(** * ccal.association: the association-scoring pipeline

    A shallow embedding of [make_association_panel], [associate], [_score]
    and [_permute_and_score] of [ccal/association.py], and the properties
    of the alignment, filtering, scoring, bootstrap and permutation stages;
    then of the class labels computed in [_plot_association_panel] and of
    [_read_bundle].

    Conventions of the embedding:
    - index labels (sample and feature identifiers) are Python ints or
      strings, with Python's truth value;
    - finite floats are rationals ([Q]); NaN and infinities are not modelled,
      and rounding of float arithmetic is not modelled;
    - a pandas [Series] is an ordered list of labelled values, a [DataFrame]
      is a list of column labels and a list of labelled rows;
    - exceptions are the [Raise] case of [result];
    - numpy's global random state is threaded explicitly. *)

From Stdlib Require Import String.
From Stdlib Require Import List Bool Arith ZArith QArith Qround Qminmax.
From Stdlib Require Import Permutation Sorted Lia Lqa.
Import ListNotations.

Set Implicit Arguments.
Set Default Proof Using "Type".

(** ** Index labels *)

Inductive label : Type :=
| LInt (z : Z)
| LStr (s : string).

Definition label_eq_dec (a b : label) : {a = b} + {a <> b}.
Proof. decide equality; [apply Z.eq_dec | apply string_dec]. Defined.

Definition label_eqb (a b : label) : bool :=
  if label_eq_dec a b then true else false.

(** Python truth value of a label: [0] and the empty string are false. *)
Definition truthy (l : label) : bool :=
  match l with
  | LInt z => negb (Z.eqb z 0)
  | LStr s => negb (String.eqb s EmptyString)
  end.

(** ** Exceptions *)

Inductive exn : Type :=
| ZeroSharedColumns (target_size features_cols : nat)
    (* ValueError: Target .. and features .. have 0 shared columns. *)
| NoViableFeatures
    (* ValueError: No feature has at least 2 unique values. *)
| RemoveAbsent          (* ValueError of list.remove(x): x not in list *)
| ZeroDivisionError
| QuantileOutOfRange    (* ValueError of Series.quantile: q outside [0, 1] *)
| SliceNotInteger       (* TypeError: slice indices must be integers *)
| LengthMismatch.       (* ValueError: length of values does not match *)

Inductive result (A : Type) : Type :=
| Ok (a : A)
| Raise (e : exn).

Arguments Ok {A} a.
Arguments Raise {A} e.

Definition bind {A B : Type} (r : result A) (k : A -> result B) : result B :=
  match r with
  | Ok a => k a
  | Raise e => Raise e
  end.

Notation "x <- r ;; k" := (bind r (fun x => k))
  (at level 61, r at next level, right associativity).
Notation "' p <- r ;; k" := (bind r (fun x => let p := x in k))
  (at level 61, p pattern, r at next level, right associativity).

(** ** pandas structures *)

Definition Series : Type := list (label * Q).

Record DataFrame : Type := mkDF {
  columns : list label;
  rows : list (label * list Q)
}.

Definition index (f : DataFrame) : list label := map fst (rows f).
Definition shape0 (f : DataFrame) : nat := length (rows f).
Definition shape1 (f : DataFrame) : nat := length (columns f).
Definition s_index (t : Series) : list label := map fst t.
Definition s_values (t : Series) : list Q := map snd t.

(** [x.ix[keys]] on a labelled axis: for each key, the entries carrying that
    label, in key order (a key may be repeated, and is then taken again). *)
Definition select {A : Type} (keys : list label) (l : list (label * A))
  : list (label * A) :=
  flat_map (fun k => filter (fun p => label_eqb (fst p) k) l) keys.

(** [features.ix[labels, :]] *)
Definition ix_rows (f : DataFrame) (labels : list label) : DataFrame :=
  mkDF (columns f) (select labels (rows f)).

(** [features.ix[:, labels]] and [features.ix[rws, labels]] restrict every
    row to the given column labels, in the given order. *)
Definition row_at (cols : list label) (labels : list label) (r : label * list Q)
  : label * list Q :=
  (fst r, map snd (select labels (combine cols (snd r)))).

Definition ix_cols (f : DataFrame) (labels : list label) : DataFrame :=
  mkDF (map fst (select labels (combine (columns f) (columns f))))
       (map (row_at (columns f) labels) (rows f)).

(** [features.iloc[lo:hi, :]] for [0 <= lo <= hi]. *)
Definition iloc_rows (f : DataFrame) (lo hi : nat) : DataFrame :=
  mkDF (columns f) (firstn (hi - lo) (skipn lo (rows f))).

(** [list.remove(x)]: drops the first occurrence, fails when there is none. *)
Fixpoint list_remove (x : label) (l : list label) : option (list label) :=
  match l with
  | [] => None
  | y :: l' =>
      if label_eqb y x then Some l'
      else option_map (cons y) (list_remove x l')
  end.

(** The inner loop [for feature in split_features.index:
    leftovers.remove(feature)]. *)
Fixpoint remove_each (xs leftovers : list label) : result (list label) :=
  match xs with
  | [] => Ok leftovers
  | x :: xs' =>
      match list_remove x leftovers with
      | Some l' => remove_each xs' l'
      | None => Raise RemoveAbsent
      end
  end.

(** First entry of a score table carrying a label. *)
Fixpoint lookup {A : Type} (i : label) (tbl : list (label * A)) : option A :=
  match tbl with
  | [] => None
  | (j, v) :: tbl' => if label_eqb j i then Some v else lookup i tbl'
  end.

(** ** Alignment and filtering in [make_association_panel] *)

(** [target.index & features.columns]: the labels of the left index that
    also occur in the right one. *)
Definition index_intersection (a b : list label) : list label :=
  filter (fun x => existsb (label_eqb x) b) a.

Fixpoint insert_by {A : Type} (leb : A -> A -> bool) (x : A) (l : list A)
  : list A :=
  match l with
  | [] => [x]
  | y :: l' => if leb x y then x :: l else y :: insert_by leb x l'
  end.

Fixpoint sort_by {A : Type} (leb : A -> A -> bool) (l : list A) : list A :=
  match l with
  | [] => []
  | x :: l' => insert_by leb x (sort_by leb l')
  end.

(** [x.sort_values(ascending=...)] on the value [key]. pandas does not fix
    the order among equal values; this model keeps their input order. *)
Definition sort_values {A : Type} (ascending : bool) (key : A -> Q)
    (l : list A) : list A :=
  sort_by (fun x y => if ascending then Qle_bool (key x) (key y)
                      else Qle_bool (key y) (key x)) l.

(** Lines 108-121: keep the shared columns, target descending. The test is
    [any(shared)], Python's [any] over the labels of the index. *)
Definition align (target : Series) (features : DataFrame)
  : result (Series * DataFrame) :=
  let shared := index_intersection (s_index target) (columns features) in
  if existsb truthy shared then
    let target' := sort_values false snd (select shared target) in
    Ok (target', ix_cols features (s_index target'))
  else Raise (ZeroSharedColumns (length target) (shape1 features)).

(** [set(f)]: the distinct values of a row. *)
Fixpoint set_of (l : list Q) : list Q :=
  match l with
  | [] => []
  | x :: l' => if existsb (Qeq_bool x) l' then set_of l' else x :: set_of l'
  end.

(** [DataFrame.empty]: some axis has length 0. *)
Definition empty (f : DataFrame) : bool :=
  match rows f, columns f with
  | [], _ => true
  | _, [] => true
  | _, _ => false
  end.

Definition min_n_unique_values : nat := 2.

(** Lines 123-130: drop the features with less than 2 unique values. *)
Definition drop_degenerate (features : DataFrame) : result DataFrame :=
  let kept :=
    mkDF (columns features)
         (filter (fun f => min_n_unique_values <=? length (set_of (snd f)))
                 (rows features)) in
  if empty kept then Raise NoViableFeatures else Ok kept.

(** ** Configuration values and numeric helpers of [associate] *)

(** The value given for [n_features]: an int, a float, or something that is
    neither ([None] in the docstring). *)
Inductive py_value : Type :=
| PyInt (z : Z)
| PyFloat (q : Q)
| PyNone.

(** [isinstance(v, int) or isinstance(v, float)] *)
Definition is_number (v : py_value) : bool :=
  match v with
  | PyNone => false
  | _ => true
  end.

Definition num (v : py_value) : Q :=
  match v with
  | PyInt z => inject_Z z
  | PyFloat q => q
  | PyNone => 0
  end.

(** [ceil(0.632 * m)] *)
Definition n_resampled (m : nat) : Z :=
  Qceiling ((632 # 1000) * inject_Z (Z.of_nat m)).

(** [Series.quantile(q)]: linear interpolation between the two closest
    ranks of the ascending values; [q] outside [0, 1] is refused. The
    interpolation is exact here; in floats it is rounded, and can leave
    the interval of the two values by an ulp. *)
Definition quantile (xs : list Q) (q : Q) : result Q :=
  if Qle_bool 0 q && Qle_bool q 1 then
    let a := sort_by Qle_bool xs in
    let h := q * inject_Z (Z.of_nat (length xs) - 1) in
    let lo := Qfloor h in
    let hi := Qceiling h in
    let a_lo := nth (Z.to_nat lo) a 0 in
    let a_hi := nth (Z.to_nat hi) a 0 in
    Ok (a_lo + (h - inject_Z lo) * (a_hi - a_lo))
  else Raise QuantileOutOfRange.

(** Lines 288-308: the features whose confidence interval is computed. *)
Definition indices_to_bootstrap (n_features : py_value)
    (scores : list (label * Q)) : result (list label) :=
  if negb (Qle_bool 1 (num n_features)) then
    top <- quantile (map snd scores) (num n_features) ;;
    bottom <- quantile (map snd scores) (1 - num n_features) ;;
    Ok (map fst (filter (fun r => Qle_bool top (snd r)
                                 || Qle_bool (snd r) bottom) scores))
  else if Qle_bool (inject_Z (Z.of_nat (length scores))) (2 * num n_features)
  then Ok (map fst scores)
  else
    match n_features with
    | PyInt z =>
        Ok (firstn (Z.to_nat z) (map fst scores)
            ++ skipn (length scores - Z.to_nat z) (map fst scores))
    | _ => Raise SliceNotInteger
    end.

(** Writing one more column into a table created with its index only:
    [tbl.ix[:, c] = col], the values taken in row order. *)
Definition set_column (tbl : list (label * list Q)) (col : list Q)
  : list (label * list Q) :=
  map (fun rv => (fst (fst rv), snd (fst rv) ++ [snd rv])) (combine tbl col).

(** [tbl.ix[:, name] = values]: the lengths must agree. *)
Definition assign {A : Type} (idx : list label) (vals : list A)
  : result (list (label * A)) :=
  if length idx =? length vals then Ok (combine idx vals)
  else Raise LengthMismatch.

(** Memory of numpy buffers, by address. *)
Definition store : Type := list (list Q).

Definition buffer (a : nat) (st : store) : list Q := nth a st [].

Fixpoint write (a : nat) (v : list Q) (st : store) {struct st} : store :=
  match st, a with
  | [], _ => []
  | _ :: st', O => v :: st'
  | b :: st', S a' => b :: write a' v st'
  end.

(** [array(t)]: a fresh buffer holding a copy of the values of [t]. *)
Definition np_array (t : nat) (st : store) : nat * store :=
  (length st, st ++ [buffer t st]).

Record PValFdr : Type := mkPF {
  p_value : Q;
  fdr_forward : Q;
  fdr_reverse : Q;
  fdr : Q
}.

(** The table returned by [associate]; a column whose stage did not run is
    absent, a feature outside the bootstrap selection has no margin. *)
Record Scores : Type := mkScores {
  score : list (label * Q);
  moe : option (list (label * option Q));
  p_values_and_fdrs : option (list (label * PValFdr))
}.

(** ** The entries and the result of [_read_bundle] *)

(** The second field of a bundle entry: a DataFrame, a filepath, or
    something else. *)
Inductive source : Type :=
| Frame (df : DataFrame)
| Path (filepath : string)
| NotASource.

(** The [index] field: nothing ([None], or an empty string or list), one
    string, or a list of strings. *)
Inductive index_spec : Type :=
| NoLabels
| OneLabel (s : string)
| Labels (ls : list string).

(** The [index_alias] field: nothing, one string, or a list of labels. *)
Inductive alias_spec : Type :=
| NoAlias
| AliasStr (s : string)
| AliasList (ls : list label).

Record bundle_entry : Type := mkEntry {
  e_name : string;
  e_source : source;
  e_data_type : string;
  e_is_ascending : bool;
  e_index_axis : py_value;
  e_index : index_spec;
  e_index_alias : alias_spec
}.

Record feature_dict : Type := mkFeatures {
  fd_data_type : string;
  fd_is_ascending : bool;
  fd_dataframe : DataFrame
}.

Inductive bundle_exn : Type :=
| BadSource            (* ValueError: must be either a DataFrame or str *)
| BadIndexAxis         (* ValueError: index_axis must be either 0 or 1 *)
| AliasLength          (* ValueError: length mismatch of the new index *)
| CannotRead           (* read_gct failed *)
| AbsentLabel.         (* a label the axis does not have: a KeyError, or
                          rows of NaN, which this development leaves out *)

Inductive loaded (A : Type) : Type :=
| Loaded (a : A)
| Failed (e : bundle_exn).

Arguments Loaded {A} a.
Arguments Failed {A} e.

(** ** Reference instances of the functions [associate] is given *)

Definition Qsum (l : list Q) : Q := fold_right Qplus 0 l.

(** A symmetric scoring function: the inner product. *)
Fixpoint inner (a b : list Q) : Q :=
  match a, b with
  | x :: a', y :: b' => x * y + inner a' b'
  | _, _ => 0
  end.

(** A scoring function that is not symmetric: the first value of its
    first argument. *)
Definition first_of (a b : list Q) : Q := hd 0 a.

(** The same scoring function with its arguments exchanged. *)
Definition flip (function : list Q -> list Q -> Q) (a b : list Q) : Q :=
  function b a.

(** A pool that hands the results back last job first. *)
Definition pool_map (A B : Type) (w : A -> B) (args : list A) : list B :=
  rev (map w args).

(** A counter as random state: draws walk through the population, a
    shuffle rotates the array. An empty population gives no draw. *)
Definition choice_cycle (g : nat) (population : list label) (k : nat)
  : list label * nat :=
  match population with
  | [] => ([], g)
  | l0 :: _ =>
      (map (fun j => nth ((g + 2 * j) mod length population) population l0)
           (seq 0 k),
       (g + k)%nat)
  end.

Definition shuffle_rotate (g : nat) (v : list Q) : list Q * nat :=
  let r := (S g mod (S (length v)))%nat in
  (skipn r v ++ firstn r v, S g).

(** A number as random state, read in base [m]: [randint] hands out its
    [k] leading digits, and [choice] the labels at those positions, as
    numpy's [choice] does with the integers of its generator. Over the
    states [0 .. m ^ k - 1] every vector of positions comes exactly once.
    An empty population gives no draw. *)
Fixpoint digits (m k g : nat) : list nat :=
  match k with
  | O => []
  | S k' => ((g / m ^ k') mod m)%nat :: digits m k' g
  end.

Definition randint_digits (g m k : nat) : list nat * nat :=
  (digits m k g, S g).

Definition choice_digits (g : nat) (population : list label) (k : nat)
  : list label * nat :=
  match population with
  | [] => ([], g)
  | _ =>
      (map (fun j => nth j population (LInt 0))
           (fst (randint_digits g (length population) k)),
       snd (randint_digits g (length population) k))
  end.

(** Three-digit square roots, the standard deviation with [n - 1] in the
    denominator, and the normal quantile at the default confidence. *)
Definition sqrt_approx (q : Q) : Q :=
  Z.sqrt (Qfloor (q * 1000000)) # 1000.

Definition sqrt_int (z : Z) : Q := sqrt_approx (inject_Z z).

Definition std_approx (l : list Q) : Q :=
  let n := inject_Z (Z.of_nat (length l)) in
  let mean := Qsum l / n in
  sqrt_approx (Qsum (map (fun x => (x - mean) * (x - mean)) l) / (n - 1)).

Definition ppf_approx (q : Q) : Q := 1645 # 1000.

(** Benjamini-Hochberg: a p-value is corrected to the least
    [q * n / rank q] over the p-values [q] not below it, at most 1. *)
Definition fdr_bh (pvals : list Q) : list Q :=
  let n := inject_Z (Z.of_nat (length pvals)) in
  let rank := fun q =>
    inject_Z (Z.of_nat (length (filter (fun p => Qle_bool p q) pvals))) in
  map (fun p =>
         fold_right Qmin 1
           (map (fun q => q * n / rank q)
                (filter (fun q => Qle_bool p q) pvals)))
      pvals.

(** ** Example data: five samples, two informative features and a
    constant one *)

Definition ex_raw_target : Series :=
  [(LStr "C", 3 # 1); (LStr "A", 5 # 1); (LStr "B", 4 # 1);
   (LStr "E", 1 # 1); (LStr "D", 2 # 1); (LStr "Y", 9 # 1)].

Definition ex_raw_features : DataFrame :=
  mkDF [LStr "B"; LStr "A"; LStr "C"; LStr "E"; LStr "D"; LStr "X"]
       [(LStr "F1", [4 # 1; 5 # 1; 3 # 1; 1 # 1; 2 # 1; 7 # 1]);
        (LStr "F2", [2 # 1; 1 # 1; 3 # 1; 5 # 1; 4 # 1; 7 # 1]);
        (LStr "F3", [2 # 1; 2 # 1; 2 # 1; 2 # 1; 2 # 1; 7 # 1])].

Definition ex_target : Series :=
  [(LStr "A", 5 # 1); (LStr "B", 4 # 1); (LStr "C", 3 # 1);
   (LStr "D", 2 # 1); (LStr "E", 1 # 1)].

Definition ex_samples : list label :=
  [LStr "A"; LStr "B"; LStr "C"; LStr "D"; LStr "E"].

Definition ex_aligned : DataFrame :=
  mkDF ex_samples
       [(LStr "F1", [5 # 1; 4 # 1; 3 # 1; 2 # 1; 1 # 1]);
        (LStr "F2", [1 # 1; 2 # 1; 3 # 1; 4 # 1; 5 # 1]);
        (LStr "F3", [2 # 1; 2 # 1; 2 # 1; 2 # 1; 2 # 1])].

Definition ex_kept : DataFrame :=
  mkDF ex_samples
       [(LStr "F1", [5 # 1; 4 # 1; 3 # 1; 2 # 1; 1 # 1]);
        (LStr "F2", [1 # 1; 2 # 1; 3 # 1; 4 # 1; 5 # 1])].

Definition ex_scores : list (label * Q) :=
  [(LStr "F1", 55 # 1); (LStr "F2", 35 # 1)].

Definition ex_null : list (label * list Q) :=
  [(LStr "F1", [45 # 1; 40 # 1]); (LStr "F2", [45 # 1; 50 # 1])].

(** ** The scoring stage of [associate] *)

Section Associate.

(** The pluggable scoring function, applied to two value vectors. *)
Variable function : list Q -> list Q -> Q.

(** [parallelize] belongs to the package's support module; it applies a
    worker to every argument tuple in a pool and collects the results.
    The order of collection is left to the pool. *)
Variable parallelize : forall A B : Type, (A -> B) -> list A -> list B.

(** numpy's random state, [numpy.random.choice(population, size)] and
    [numpy.random.shuffle] (which returns the new contents of the array
    it is given). *)
Variable rng : Type.
Variable choice : rng -> list label -> nat -> list label * rng.
Variable shuffle : rng -> list Q -> list Q * rng.

(** [RandomState.randint(0, high, size)], the integers from which
    [choice] picks its positions when it is given no weights. *)
Variable randint : rng -> nat -> nat -> list nat * rng.

(** [scipy.stats.norm.ppf], [Series.std], [math.sqrt] and the corrected
    p-values of [multipletests(..., method='fdr_bh')]. *)
Variable norm_ppf : Q -> Q.
Variable std : list Q -> Q.
Variable sqrt : Z -> Q.
Variable multipletests_fdr_bh : list Q -> list Q.

(** [_score]: one score per row, [func(t, a_f)], target first. *)
Definition _score (t : Series) (f : DataFrame) : list (label * Q) :=
  map (fun a_f => (fst a_f, function (s_values t) (snd a_f))) (rows f).

(** The grouping loop over [range(n_jobs)]: the chunk of each job and the
    labels not given to any job. *)
Fixpoint group (f : DataFrame) (n_per_job : nat) (jobs : list nat)
    (args : list DataFrame) (leftovers : list label)
  : result (list DataFrame * list label) :=
  match jobs with
  | [] => Ok (args, leftovers)
  | i :: jobs' =>
      let split_features :=
        iloc_rows f (i * n_per_job) ((i + 1) * n_per_job) in
      l' <- remove_each (index split_features) leftovers ;;
      group f n_per_job jobs' (args ++ [split_features]) l'
  end.

Definition nonempty {A : Type} (l : list A) : bool :=
  match l with [] => false | _ => true end.

(** Lines 235-270 of [associate]. *)
Definition score_stage (t : Series) (f : DataFrame)
    (n_jobs min_n_per_job : Z) : result (list (label * Q)) :=
  if (n_jobs =? 1)%Z then Ok (_score t f)
  else if (n_jobs =? 0)%Z then Raise ZeroDivisionError
  else
    let n_per_job := (Z.of_nat (shape0 f) / n_jobs)%Z in
    if (n_per_job <? min_n_per_job)%Z then Ok (_score t f)
    else
      ' (args, leftovers) <-
        group f (Z.to_nat n_per_job) (seq 0 (Z.to_nat n_jobs)) []
              (index f) ;;
      let scores := concat (parallelize (_score t) args) in
      if nonempty leftovers
      then Ok (scores ++ _score t (ix_rows f leftovers))
      else Ok scores.

(** The labels left over after [w] chunks of [n / w] rows. *)
Definition leftover_labels (f : DataFrame) (w : nat) : list label :=
  skipn (w * (shape0 f / w)) (index f).


(** ** The bootstrap stage of [associate] *)

(** One pass of the loop over the columns of [sampled_scores]: the drawn
    sample labels and the scores [function(f, sampled_target)]. *)
Definition bootstrap_round (g : rng) (target : Series) (features : DataFrame)
    (sel : list label) : list Q * rng :=
  let (ramdom_samples, g') :=
    choice g (columns features)
           (Z.to_nat (n_resampled (shape1 features))) in
  let sampled_features := ix_cols (ix_rows features sel) ramdom_samples in
  let sampled_target := select ramdom_samples target in
  (map (fun f => function (snd f) (s_values sampled_target))
       (rows sampled_features), g').

Fixpoint bootstrap_loop (n : nat) (g : rng) (target : Series)
    (features : DataFrame) (sel : list label)
    (sampled_scores : list (label * list Q))
  : list (label * list Q) * rng :=
  match n with
  | O => (sampled_scores, g)
  | S n' =>
      let (col, g') := bootstrap_round g target features sel in
      bootstrap_loop n' g' target features sel
                     (set_column sampled_scores col)
  end.

(** [z_critical * (f.std() / sqrt(n_samplings))] *)
Definition margin_of_error (confidence : Q) (n_samplings : Z)
    (f : list Q) : Q :=
  norm_ppf confidence * (std f / sqrt n_samplings).

(** Lines 278-329. [None] for the column when the stage is skipped. *)
Definition bootstrap_stage (g : rng) (target : Series)
    (features : DataFrame) (scores : list (label * Q))
    (n_features : py_value) (n_samplings : Z) (confidence : Q)
  : result (option (list (label * option Q)) * rng) :=
  if negb (is_number n_features) then Ok (None, g)
  else if (n_samplings <? 2)%Z then Ok (None, g)
  else if (n_resampled (shape1 features) <? 3)%Z then Ok (None, g)
  else
    sel <- indices_to_bootstrap n_features scores ;;
    let (sampled_scores, g') :=
      bootstrap_loop (Z.to_nat n_samplings) g target features sel
                     (map (fun i => (i, [])) sel) in
    let confidence_intervals :=
      map (fun f => (fst f, margin_of_error confidence n_samplings (snd f)))
          sampled_scores in
    Ok (Some (map (fun r => (fst r, lookup (fst r) confidence_intervals))
                  scores), g').

(** ** The permutation stage of [associate] *)

(** [shuffle(shuffled_target)]: the buffer is rewritten in place. *)
Definition np_shuffle (a : nat) (gs : rng * store) : rng * store :=
  let (v, g') := shuffle (fst gs) (buffer a (snd gs)) in
  (g', write a v (snd gs)).

Fixpoint permute_loop (n : nat) (shuffled_target : nat) (f : DataFrame)
    (scores : list (label * list Q)) (gs : rng * store)
  : list (label * list Q) * (rng * store) :=
  match n with
  | O => (scores, gs)
  | S n' =>
      let gs' := np_shuffle shuffled_target gs in
      let col := map (fun r => function (buffer shuffled_target (snd gs'))
                                        (snd r)) (rows f) in
      permute_loop n' shuffled_target f (set_column scores col) gs'
  end.

(** [_permute_and_score]; [t] is the address of the target's values. *)
Definition _permute_and_score (t : nat) (f : DataFrame) (n_perms : Z)
    (gs : rng * store) : list (label * list Q) * (rng * store) :=
  let scores := map (fun i => (i, [])) (index f) in
  let (shuffled_target, st) := np_array t (snd gs) in
  permute_loop (Z.to_nat n_perms) shuffled_target f scores (fst gs, st).

(** A call on the target of [associate], whose values are the only buffer
    of the memory it runs in. *)
Definition permute_and_score_on (g : rng) (target : Series)
    (n_permutations : Z) (f : DataFrame) : list (label * list Q) * rng :=
  let r := _permute_and_score 0 f n_permutations (g, [s_values target]) in
  (fst r, fst (snd r)).

(** Lines 340-385. A pool worker runs on its own copy of the random
    state; the leftovers are scored by the caller. *)
Definition permutation_scores (g : rng) (target : Series)
    (features : DataFrame) (n_jobs min_n_per_job n_permutations : Z)
  : result (list (label * list Q) * rng) :=
  if (n_jobs =? 1)%Z
  then Ok (permute_and_score_on g target n_permutations features)
  else if (n_jobs =? 0)%Z then Raise ZeroDivisionError
  else
    let n_per_job := (Z.of_nat (shape0 features) / n_jobs)%Z in
    if (n_per_job <? min_n_per_job)%Z
    then Ok (permute_and_score_on g target n_permutations features)
    else
      ' (args, leftovers) <-
        group features (Z.to_nat n_per_job) (seq 0 (Z.to_nat n_jobs)) []
              (index features) ;;
      let scores :=
        concat (parallelize
                  (fun a => fst (permute_and_score_on g target
                                                      n_permutations a))
                  args) in
      if nonempty leftovers
      then
        let (more, g') :=
          permute_and_score_on g target n_permutations
                               (ix_rows features leftovers) in
        Ok (scores ++ more, g')
      else Ok (scores, g).

(** Lines 392-394: the global p-value of one score. *)
Definition global_p_value (all_permutation_scores : list Q) (s : Q)
    (n_permutations : Z) (n_feat n_scores : nat) : Q :=
  let p_value :=
    inject_Z (Z.of_nat (length (filter (fun x => negb (Qle_bool x s))
                                       all_permutation_scores)))
    / inject_Z (n_permutations * Z.of_nat n_feat) in
  if Qeq_bool p_value 0
  then 1 / inject_Z (n_permutations * Z.of_nat n_scores)
  else p_value.

(** Lines 389-395: the column of global p-values, one per row of
    [scores]. *)
Definition p_values_of (scores : list (label * Q)) (features : DataFrame)
    (permutation_scores : list (label * list Q)) (n_permutations : Z)
  : list (label * Q) :=
  let all_permutation_scores := concat (map snd permutation_scores) in
  map (fun r => (fst r,
                 global_p_value all_permutation_scores (snd r)
                                n_permutations (shape0 features)
                                (length scores))) scores.

(** Lines 387-401. *)
Definition p_values_and_fdrs_of (scores : list (label * Q))
    (features : DataFrame) (permutation_scores : list (label * list Q))
    (n_permutations : Z) : result (list (label * PValFdr)) :=
  let p_values :=
    p_values_of scores features permutation_scores n_permutations in
  forward <- assign (map fst p_values)
                    (multipletests_fdr_bh (map snd p_values)) ;;
  reverse <- assign (map fst p_values)
                    (multipletests_fdr_bh
                       (map (fun p => 1 - p) (map snd p_values))) ;;
  Ok (map (fun x =>
             let p := fst (fst x) in
             let fw := snd (fst x) in
             let rv := snd x in
             (fst p, mkPF (snd p) (snd fw) (snd rv)
                          (Qmin (snd fw) (snd rv))))
          (combine (combine p_values forward) reverse)).

(** ** [associate] and [make_association_panel] *)

Definition associate (g : rng) (target : Series) (features : DataFrame)
    (n_jobs : Z) (features_ascending : bool) (n_features : py_value)
    (min_n_per_job n_samplings : Z) (confidence : Q) (n_permutations : Z)
  : result (Scores * rng) :=
  scores <- score_stage target features n_jobs min_n_per_job ;;
  let scores := sort_values features_ascending snd scores in
  ' (margins, g1) <- bootstrap_stage g target features scores n_features
                                     n_samplings confidence ;;
  if (n_permutations <? 1)%Z then Ok (mkScores scores margins None, g1)
  else
    ' (perm, g2) <- permutation_scores g1 target features n_jobs
                                       min_n_per_job n_permutations ;;
    pf <- p_values_and_fdrs_of scores features perm n_permutations ;;
    Ok (mkScores scores margins (Some pf), g2).

(** Lines 108-140 of [make_association_panel]: preprocessing, then
    [associate] with its default [min_n_per_job] and [confidence]. What
    follows the call, up to the drawing of the panel, is in
    [make_association_panel_plot] below. *)
Definition make_association_panel (g : rng) (target : Series)
    (features : DataFrame) (n_jobs : Z) (features_ascending : bool)
    (n_features : py_value) (n_samplings n_permutations : Z)
  : result (Scores * rng) :=
  ' (target', aligned) <- align target features ;;
  kept <- drop_degenerate aligned ;;
  associate g target' kept n_jobs features_ascending n_features
            100 n_samplings (95 # 100) n_permutations.


(** ** Notions used in the statements *)

(** The chunk given to job [i]. *)
Definition chunk (f : DataFrame) (k i : nat) : DataFrame :=
  iloc_rows f (i * k) ((i + 1) * k).

(** The labels shared by the target and the columns of the features. *)
Definition shared_labels (target : Series) (features : DataFrame)
  : list label :=
  index_intersection (s_index target) (columns features).

(** The value a row holds under a column label. *)
Definition value_at (cols : list label) (vs : list Q) (l : label) : Q :=
  match lookup l (combine cols vs) with
  | Some v => v
  | None => 0
  end.

(** A row carries signal when two of its values differ. *)
Definition two_distinct (vs : list Q) : Prop :=
  exists x y, In x vs /\ In y vs /\ ~ x == y.

(** The successive contents of the shuffled buffer over [n] rounds. *)
Fixpoint shuffled_targets (n : nat) (g : rng) (v : list Q) : list (list Q) :=
  match n with
  | O => []
  | S n' =>
      let (v', g') := shuffle g v in
      v' :: shuffled_targets n' g' v'
  end.

(** The table of the scores of every row of [f] against each of [vs],
    the vector first. *)
Definition scored_against (f : DataFrame) (vs : list (list Q))
  : list (label * list Q) :=
  map (fun r => (fst r, map (fun v => function v (snd r)) vs)) (rows f).

(** The sample labels drawn in each of [n] bootstrap rounds. *)
Fixpoint drawn_samples (n : nat) (g : rng) (population : list label)
    (k : nat) : list (list label) :=
  match n with
  | O => []
  | S n' =>
      let (d, g') := choice g population k in
      d :: drawn_samples n' g' population k
  end.

(** The values held under the drawn labels, in drawn order. *)
Definition resample (cols : list label) (vs : list Q) (d : list label)
  : list Q :=
  map (value_at cols vs) d.

(** The scores of one feature row over the draws, the feature first. *)
Definition bootstrap_sample (target : Series) (features : DataFrame)
    (row : list Q) (draws : list (list label)) : list Q :=
  map (fun d => function (resample (columns features) row d)
                         (resample (s_index target) (s_values target) d))
      draws.

(** All vectors of [k] positions below [m], and all vectors of [k] labels
    of a population, repetitions allowed. *)
Fixpoint positions (m k : nat) : list (list nat) :=
  match k with
  | O => [[]]
  | S k' => flat_map (fun j => map (cons j) (positions m k')) (seq 0 m)
  end.

Fixpoint key_vectors (population : list label) (k : nat)
  : list (list label) :=
  match k with
  | O => [[]]
  | S k' =>
      flat_map (fun l => map (cons l) (key_vectors population k'))
               population
  end.

(** Outcomes that are spread evenly over a support: every element of the
    support comes the same number of times, and nothing else comes. Over
    equally likely random states this is the uniform distribution. *)
Definition uniform_over {A : Type} (support outcomes : list A) : Prop :=
  exists c, (0 < c)%nat /\ Permutation outcomes (concat (repeat support c)).

(** The documented values of [n_features]: a count of at least 1, or a
    fraction in [0, 1). *)
Definition documented (n_features : py_value) : Prop :=
  match n_features with
  | PyInt z => (1 <= z)%Z
  | PyFloat q => 0 <= q /\ q < 1
  | PyNone => False
  end.

(** ** Class labels above the target in [_plot_association_panel] *)

(** Lines 493-497: the positions at which the value of the target changes;
    [i] is the counter of [enumerate(target.iloc[1:])]. *)
Fixpoint value_changes (prev_v : Q) (i : nat) (rest : list Q) : list nat :=
  match rest with
  | [] => []
  | v :: rest' =>
      if negb (Qeq_bool prev_v v) then (i + 1)%nat :: value_changes v (S i) rest'
      else value_changes v (S i) rest'
  end.

(** Lines 490-498; [None] is the IndexError of [target.iloc[0]] on an empty
    target. *)
Definition boundaries (target : list Q) (n_columns : nat)
  : option (list nat) :=
  match target with
  | [] => None
  | v0 :: rest => Some (0%nat :: value_changes v0 0 rest ++ [n_columns])
  end.

(** Lines 501-505: [b - (b - prev_b) / 2] for [b] in [boundaries[1:]]. *)
Fixpoint label_positions (prev_b : nat) (bs : list nat) : list Q :=
  match bs with
  | [] => []
  | b :: bs' =>
      (inject_Z (Z.of_nat b)
       - (inject_Z (Z.of_nat b) - inject_Z (Z.of_nat prev_b)) / 2)
      :: label_positions b bs'
  end.

Definition label_horizontal_positions (boundaries : list nat) : list Q :=
  label_positions 0 (tl boundaries).

(** ** The features handed to the plot in [make_association_panel] *)

(** Lines 176-178: at most 100 features are asked for; [None] is the
    TypeError of comparing something that is not a number. *)
Definition plot_n_features (n_features : py_value) (n : nat)
  : option py_value :=
  if is_number n_features then
    if negb (Qle_bool (num n_features) 100)
       || (negb (Qle_bool 1 (num n_features))
           && negb (Qle_bool (num n_features * inject_Z (Z.of_nat n)) 100))
    then Some (PyInt 100)
    else Some n_features
  else None.

(** Lines 180-197, which repeat lines 288-308 on the score column of the
    table of features and scores. *)
Definition indices_to_plot (n_features : py_value)
    (scores : list (label * Q)) : option (result (list label)) :=
  match plot_n_features n_features (length scores) with
  | Some n_features' => Some (indices_to_bootstrap n_features' scores)
  | None => None
  end.

(** [make_association_panel] up to the call that draws the panel (lines
    108-197): the table of [associate], and the features handed to the
    plot. [None] is the TypeError of line 176, where [n_features > 100]
    compares something that is not a number. Lines 142-170 only build the
    annotation strings of the drawing from the table and are left out. *)
Definition make_association_panel_plot (g : rng) (target : Series)
    (features : DataFrame) (n_jobs : Z) (features_ascending : bool)
    (n_features : py_value) (n_samplings n_permutations : Z)
  : option (result (Scores * list label * rng)) :=
  match make_association_panel g target features n_jobs features_ascending
                               n_features n_samplings n_permutations with
  | Raise e => Some (Raise e)
  | Ok (scores, g') =>
      match indices_to_plot n_features (score scores) with
      | None => None
      | Some (Raise e) => Some (Raise e)
      | Some (Ok sel) => Some (Ok (scores, sel, g'))
      end
  end.

(** ** Reading a bundle of features: [_read_bundle] *)

(** [read_gct] belongs to the package's support module. *)
Variable read_gct : string -> option DataFrame.

(** Python truth value of the [index] and [index_alias] fields. *)
Definition index_given (i : index_spec) : bool :=
  match i with
  | NoLabels => false
  | OneLabel s => truthy (LStr s)
  | Labels ls => nonempty ls
  end.

Definition labels_of (i : index_spec) : list label :=
  match i with
  | NoLabels => []
  | OneLabel s => [LStr s]
  | Labels ls => map LStr ls
  end.

Definition alias_given (a : alias_spec) : bool :=
  match a with
  | NoAlias => false
  | AliasStr s => negb (String.eqb s EmptyString)
  | AliasList ls => nonempty ls
  end.

Definition alias_labels (a : alias_spec) : list label :=
  match a with
  | NoAlias => []
  | AliasStr s => [LStr s]
  | AliasList ls => ls
  end.

(** [index_axis == k] *)
Definition axis_is (v : py_value) (k : Z) : bool :=
  is_number v && Qeq_bool (num v) (inject_Z k).

(** [df.T] *)
Definition transpose (f : DataFrame) : DataFrame :=
  mkDF (index f)
       (map (fun jc => (snd jc, map (fun r => nth (fst jc) (snd r) 0) (rows f)))
            (combine (seq 0 (length (columns f))) (columns f))).

(** [df.index = labels] *)
Definition set_index (f : DataFrame) (labels : list label) : loaded DataFrame :=
  if length labels =? shape0 f
  then Loaded (mkDF (columns f) (combine labels (map snd (rows f))))
  else Failed AliasLength.

(** Every label is on the axis. *)
Definition present (labels axis : list label) : bool :=
  forallb (fun l => existsb (label_eqb l) axis) labels.

(** Lines 711-739: the DataFrame of one entry. A single label selects a
    Series, which [DataFrame(df).T] turns into a frame of one row. *)
Definition entry_dataframe (e : bundle_entry) : loaded DataFrame :=
  match
    match e_source e with
    | Frame df => Loaded df
    | Path filepath =>
        match read_gct filepath with
        | Some df => Loaded df
        | None => Failed CannotRead
        end
    | NotASource => Failed BadSource
    end
  with
  | Failed x => Failed x
  | Loaded df =>
      if index_given (e_index e) then
        match
          if axis_is (e_index_axis e) 0 then
            if present (labels_of (e_index e)) (index df)
            then Loaded (ix_rows df (labels_of (e_index e)))
            else Failed AbsentLabel
          else if axis_is (e_index_axis e) 1 then
            if present (labels_of (e_index e)) (columns df)
            then Loaded (transpose (ix_cols df (labels_of (e_index e))))
            else Failed AbsentLabel
          else Failed BadIndexAxis
        with
        | Failed x => Failed x
        | Loaded df' =>
            if alias_given (e_index_alias e)
            then set_index df' (alias_labels (e_index_alias e))
            else Loaded df'
        end
      else Loaded df
  end.

(** [d[k] = v] on a dict: a key already present keeps its place. *)
Fixpoint dict_set {V : Type} (k : string) (v : V) (d : list (string * V))
  : list (string * V) :=
  match d with
  | [] => [(k, v)]
  | (k', v') :: d' =>
      if String.eqb k' k then (k, v) :: d' else (k', v') :: dict_set k v d'
  end.

Fixpoint dict_get {V : Type} (k : string) (d : list (string * V))
  : option V :=
  match d with
  | [] => None
  | (k', v) :: d' => if String.eqb k' k then Some v else dict_get k d'
  end.

(** The loop of [_read_bundle] over the entries, from the dict [dicts]. *)
Fixpoint read_entries (data_bundle : list bundle_entry)
    (dicts : list (string * feature_dict))
  : loaded (list (string * feature_dict)) :=
  match data_bundle with
  | [] => Loaded dicts
  | e :: rest =>
      match entry_dataframe e with
      | Failed x => Failed x
      | Loaded df =>
          read_entries rest
            (dict_set (e_name e)
                      (mkFeatures (e_data_type e) (e_is_ascending e) df)
                      dicts)
      end
  end.

Definition _read_bundle (data_bundle : list bundle_entry)
  : loaded (list (string * feature_dict)) :=
  read_entries data_bundle [].

(** The last entry of a bundle that carries a name. *)
Fixpoint last_named (name : string) (data_bundle : list bundle_entry)
  : option bundle_entry :=
  match data_bundle with
  | [] => None
  | e :: rest =>
      match last_named name rest with
      | Some e' => Some e'
      | None => if String.eqb (e_name e) name then Some e else None
      end
  end.

(** * Properties *)

(** Proofs of facts that do not involve the scoring function or the
    libraries forget them first, so that no automation picks them up. *)
Ltac no_vars :=
  try clear dependent function; try clear dependent parallelize;
  try clear dependent choice; try clear dependent shuffle;
  try clear dependent norm_ppf; try clear dependent std;
  try clear dependent sqrt; try clear dependent multipletests_fdr_bh;
  try clear dependent rng.

(** ** Generic list facts *)

Lemma label_eqb_refl (a : label) : label_eqb a a = true.
Proof. unfold label_eqb. destruct (label_eq_dec a a); congruence. Qed.

Lemma label_eqb_eq (a b : label) : label_eqb a b = true <-> a = b.
Proof.
  unfold label_eqb. destruct (label_eq_dec a b); split; congruence.
Qed.

Lemma Permutation_concat_compat {A : Type} (l l' : list (list A)) :
  Permutation l l' -> Permutation (concat l) (concat l').
Proof.
  induction 1; simpl.
  - constructor.
  - now apply Permutation_app_head.
  - rewrite !app_assoc. apply Permutation_app_tail, Permutation_app_comm.
  - etransitivity; eassumption.
Qed.

Lemma lookup_In {A : Type} (i : label) (v : A) (tbl : list (label * A)) :
  NoDup (map fst tbl) -> In (i, v) tbl -> lookup i tbl = Some v.
Proof.
  induction tbl as [|[j w] tbl IH]; simpl; [tauto|].
  intros Hnd [Heq | Hin].
  - inversion Heq; subst. now rewrite label_eqb_refl.
  - inversion Hnd as [|? ? Hnotin Hnd']; subst.
    destruct (label_eqb j i) eqn:E.
    + apply label_eqb_eq in E; subst. exfalso. apply Hnotin.
      change i with (fst (i, v)). now apply in_map.
    + now apply IH.
Qed.

Lemma lookup_Some_In {A : Type} (i : label) (v : A) (tbl : list (label * A)) :
  lookup i tbl = Some v -> In (i, v) tbl.
Proof.
  induction tbl as [|[j w] tbl IH]; simpl; [discriminate|].
  destruct (label_eqb j i) eqn:E.
  - apply label_eqb_eq in E; subst. intros [= ->]. now left.
  - intros H. right. now apply IH.
Qed.

Lemma lookup_None {A : Type} (i : label) (tbl : list (label * A)) :
  lookup i tbl = None <-> ~ In i (map fst tbl).
Proof.
  induction tbl as [|[j w] tbl IH]; simpl; [tauto|].
  destruct (label_eqb j i) eqn:E.
  - apply label_eqb_eq in E; subst. split; [discriminate | tauto].
  - rewrite IH. split; [|tauto].
    intros H [Heq | Hin]; [|tauto].
    subst. rewrite label_eqb_refl in E. discriminate.
Qed.

Lemma lookup_Permutation {A : Type} (i : label) (a b : list (label * A)) :
  NoDup (map fst a) -> Permutation a b -> lookup i a = lookup i b.
Proof.
  intros Hnd Hp.
  destruct (lookup i b) as [v|] eqn:E.
  - apply lookup_Some_In in E. apply lookup_In; [assumption|].
    eapply Permutation_in; [symmetry; eassumption | assumption].
  - apply lookup_None. apply lookup_None in E. intros Hin. apply E.
    eapply Permutation_in; [apply Permutation_map; eassumption | assumption].
Qed.

(** With unique labels, [.ix] on the labels of some of the entries gives
    back those entries. *)
Lemma filter_label_absent {A : Type} (k : label) (l : list (label * A)) :
  ~ In k (map fst l) -> filter (fun q => label_eqb (fst q) k) l = [].
Proof.
  induction l as [|r l IH]; simpl; [reflexivity|].
  intros Hnotin. destruct (label_eqb (fst r) k) eqn:E.
  - apply label_eqb_eq in E. tauto.
  - apply IH. tauto.
Qed.

Lemma filter_label_unique {A : Type} (p : label * A) (l : list (label * A)) :
  NoDup (map fst l) -> In p l ->
  filter (fun q => label_eqb (fst q) (fst p)) l = [p].
Proof.
  induction l as [|q l IH]; simpl; [tauto|].
  intros Hnd Hin. inversion Hnd as [|? ? Hnotin Hnd']; subst.
  destruct Hin as [-> | Hin].
  - rewrite label_eqb_refl. f_equal. now apply filter_label_absent.
  - destruct (label_eqb (fst q) (fst p)) eqn:E.
    + apply label_eqb_eq in E. exfalso. apply Hnotin. rewrite E.
      now apply in_map.
    + now apply IH.
Qed.

Lemma select_sub {A : Type} (sub l : list (label * A)) :
  NoDup (map fst l) -> incl sub l -> select (map fst sub) l = sub.
Proof.
  intros Hnd. induction sub as [|p sub IH]; intros Hincl; simpl.
  - reflexivity.
  - unfold select in *. simpl. rewrite filter_label_unique.
    + simpl. f_equal. apply IH. intros x Hx. apply Hincl. now right.
    + assumption.
    + apply Hincl. now left.
Qed.

(** ** Partitioning of the scoring stage *)

Hypothesis parallelize_collects :
  forall (A B : Type) (w : A -> B) (args : list A),
    Permutation (parallelize w args) (map w args).

Lemma remove_each_prefix (xs rest : list label) :
  remove_each xs (xs ++ rest) = Ok rest.
Proof.
  induction xs as [|x xs IH]; simpl; [reflexivity|].
  now rewrite label_eqb_refl.
Qed.

Lemma index_iloc_rows (f : DataFrame) (i k : nat) :
  index (iloc_rows f (i * k) ((i + 1) * k))
  = firstn k (skipn (i * k) (index f)).
Proof.
  unfold index, iloc_rows. simpl.
  replace ((i + 1) * k - i * k)%nat with k by lia.
  now rewrite skipn_map, firstn_map.
Qed.

Lemma group_chunks (f : DataFrame) (k n i : nat) (args : list DataFrame) :
  group f k (seq i n) args (skipn (i * k) (index f))
  = Ok (args ++ map (chunk f k) (seq i n),
        skipn ((i + n) * k) (index f)).
Proof.
  revert i args. induction n as [|n IH]; intros i args; simpl.
  - now rewrite app_nil_r, Nat.add_0_r.
  - rewrite index_iloc_rows.
    rewrite <- (firstn_skipn k (skipn (i * k) (index f))) at 2.
    rewrite remove_each_prefix. simpl.
    rewrite skipn_skipn.
    replace (k + i * k)%nat with (S i * k)%nat by lia.
    rewrite IH. rewrite <- app_assoc. simpl.
    unfold chunk. do 3 f_equal. lia.
Qed.

Lemma concat_chunks (t : Series) (f : DataFrame) (k w : nat) :
  concat (map (_score t) (map (chunk f k) (seq 0 w)))
  = _score t (mkDF (columns f) (firstn (w * k) (rows f))).
Proof.
  induction w as [|w IH].
  - reflexivity.
  - rewrite seq_S, !map_app, concat_app, IH. simpl.
    rewrite app_nil_r. unfold _score. simpl.
    rewrite <- map_app. f_equal.
    replace ((w + 1) * k - w * k)%nat with k by lia.
    replace (k + w * k)%nat with (w * k + k)%nat by lia.
    rewrite <- (firstn_skipn (w * k) (firstn (w * k + k) (rows f))).
    f_equal.
    + rewrite firstn_firstn. f_equal. lia.
    + rewrite skipn_firstn_comm. f_equal. lia.
Qed.

Lemma score_leftovers (t : Series) (f : DataFrame) (n : nat) :
  NoDup (index f) ->
  _score t (ix_rows f (skipn n (index f)))
  = _score t (mkDF (columns f) (skipn n (rows f))).
Proof.
  intros Hnd. unfold _score, ix_rows, index. simpl.
  rewrite skipn_map, select_sub; [reflexivity | assumption |].
  intros x Hx. rewrite <- (firstn_skipn n (rows f)).
  apply in_or_app. now right.
Qed.

(** The table of the parallel path before it is merged with the scores
    of the leftovers is a rearrangement of the sequential scores. *)
Lemma score_stage_Permutation (t : Series) (f : DataFrame)
    (n_jobs min_n_per_job : Z) :
  NoDup (index f) -> (1 <= n_jobs)%Z ->
  exists scores,
    score_stage t f n_jobs min_n_per_job = Ok scores
    /\ Permutation scores (_score t f).
Proof using parallelize_collects.
  intros Hnd Hw. unfold score_stage.
  destruct (n_jobs =? 1)%Z eqn:E1; [eexists; split; reflexivity|].
  destruct (n_jobs =? 0)%Z eqn:E0; [lia|].
  destruct (_ <? min_n_per_job)%Z; [eexists; split; reflexivity|].
  set (k := Z.to_nat (Z.of_nat (shape0 f) / n_jobs)).
  set (w := Z.to_nat n_jobs).
  pose proof (group_chunks f k w 0 []) as Hg. simpl in Hg.
  rewrite Hg. simpl.
  assert (Hle : (w * k <= length (rows f))%nat).
  { subst k w. unfold shape0.
    rewrite <- (Nat2Z.id (length (rows f))) at 2.
    rewrite <- Z2Nat.inj_mul by (try apply Z.div_pos; lia).
    apply Z2Nat.inj_le.
    - apply Z.mul_nonneg_nonneg; [lia | apply Z.div_pos; lia].
    - lia.
    - apply Z.mul_div_le. lia. }
  assert (Hp : Permutation
                 (concat (parallelize (_score t) (map (chunk f k) (seq 0 w))))
                 (_score t (mkDF (columns f) (firstn (w * k) (rows f))))).
  { rewrite <- concat_chunks. apply Permutation_concat_compat.
    apply parallelize_collects. }
  assert (Hall : _score t f
                 = _score t (mkDF (columns f) (firstn (w * k) (rows f)))
                   ++ _score t (mkDF (columns f) (skipn (w * k) (rows f)))).
  { unfold _score. simpl. rewrite <- map_app. now rewrite firstn_skipn. }
  destruct (nonempty (skipn (w * k) (index f))) eqn:En.
  - eexists; split; [reflexivity|].
    rewrite score_leftovers by assumption. rewrite Hall.
    now apply Permutation_app_tail.
  - eexists; split; [reflexivity|].
    rewrite Hall.
    assert (Hnil : skipn (w * k) (rows f) = []).
    { unfold index in En. rewrite skipn_map in En.
      destruct (skipn (w * k) (rows f)); [reflexivity | discriminate]. }
    rewrite Hnil. unfold _score at 3. simpl. now rewrite app_nil_r.
Qed.

(** ** Sorting *)

Lemma insert_by_Permutation {A : Type} (leb : A -> A -> bool) (x : A)
    (l : list A) :
  Permutation (insert_by leb x l) (x :: l).
Proof.
  induction l as [|y l IH]; simpl.
  - reflexivity.
  - destruct (leb x y); [reflexivity|].
    rewrite IH. apply perm_swap.
Qed.

Lemma sort_by_Permutation {A : Type} (leb : A -> A -> bool) (l : list A) :
  Permutation (sort_by leb l) l.
Proof.
  induction l as [|x l IH]; simpl.
  - reflexivity.
  - rewrite insert_by_Permutation. now constructor.
Qed.

Lemma insert_by_sorted {A : Type} (leb : A -> A -> bool) (x : A)
    (l : list A) :
  (forall a b, leb a b = false -> leb b a = true) ->
  Sorted (fun a b => leb a b = true) l ->
  Sorted (fun a b => leb a b = true) (insert_by leb x l).
Proof.
  intros Htot. induction 1 as [|y l Hs IH Hhd]; simpl.
  - repeat constructor.
  - destruct (leb x y) eqn:E.
    + repeat constructor; assumption.
    + constructor; [assumption|].
      destruct l as [|z l]; simpl in *.
      * constructor. now apply Htot.
      * destruct (leb x z); constructor.
        -- now apply Htot.
        -- now inversion Hhd.
Qed.

Lemma sort_by_sorted {A : Type} (leb : A -> A -> bool) (l : list A) :
  (forall a b, leb a b = false -> leb b a = true) ->
  Sorted (fun a b => leb a b = true) (sort_by leb l).
Proof.
  intros Htot. induction l as [|x l IH]; simpl.
  - constructor.
  - now apply insert_by_sorted.
Qed.

Lemma Qle_bool_total (a b : Q) : Qle_bool a b = false -> Qle_bool b a = true.
Proof.
  intros H. apply Qle_bool_iff. apply Qlt_le_weak. apply Qnot_le_lt.
  intros Hle. apply Qle_bool_iff in Hle. congruence.
Qed.

Lemma sort_values_Permutation {A : Type} (asc : bool) (key : A -> Q)
    (l : list A) :
  Permutation (sort_values asc key l) l.
Proof. apply sort_by_Permutation. Qed.

Lemma Sorted_weaken {A : Type} (R R' : A -> A -> Prop) (l : list A) :
  (forall a b, R a b -> R' a b) -> Sorted R l -> Sorted R' l.
Proof.
  intros Himp. induction 1 as [|a l Hs IH Hhd].
  - constructor.
  - constructor; [assumption|].
    destruct Hhd; constructor. now apply Himp.
Qed.

(** Descending order of the values, equal values in any order. *)
Lemma sort_values_descending {A : Type} (key : A -> Q) (l : list A) :
  Sorted (fun a b => key b <= key a) (sort_values false key l).
Proof.
  unfold sort_values.
  apply Sorted_weaken
    with (R := fun a b => Qle_bool (key b) (key a) = true).
  - intros a b. apply Qle_bool_iff.
  - apply (sort_by_sorted (fun x y => Qle_bool (key y) (key x))).
    intros a b. apply Qle_bool_total.
Qed.

(** C1. With unique feature labels and a worker count [n_jobs >= 1], the
    scoring stage returns a table in which every feature has the score
    that sequential scoring ([n_jobs = 1], that is [_score] on the whole
    matrix) gives it; the grouping loop leaves over the last
    [n mod n_jobs] labels, and every feature, the leftover ones among
    them, occurs exactly once in the table, also after it is sorted. *)
Theorem partition_equivalence (t : Series) (f : DataFrame)
    (n_jobs min_n_per_job : Z) (features_ascending : bool) :
  NoDup (index f) -> (1 <= n_jobs)%Z ->
  let w := Z.to_nat n_jobs in
  exists scores,
    score_stage t f n_jobs min_n_per_job = Ok scores
    /\ score_stage t f 1 min_n_per_job = Ok (_score t f)
    /\ (forall i, lookup i scores = lookup i (_score t f))
    /\ (forall i, lookup i (sort_values features_ascending snd scores)
                  = lookup i (_score t f))
    /\ group f (shape0 f / w) (seq 0 w) [] (index f)
       = Ok (map (chunk f (shape0 f / w)) (seq 0 w), leftover_labels f w)
    /\ length (leftover_labels f w) = (shape0 f mod w)%nat
    /\ (forall i, In i (index f) ->
          count_occ label_eq_dec (map fst scores) i = 1%nat
          /\ count_occ label_eq_dec
               (map fst (sort_values features_ascending snd scores)) i
             = 1%nat)
    /\ (forall i, In i (leftover_labels f w) ->
          count_occ label_eq_dec
            (map fst (sort_values features_ascending snd scores)) i
          = 1%nat).
Proof using parallelize_collects.
  intros Hnd Hw w.
  destruct (score_stage_Permutation t f min_n_per_job Hnd Hw)
    as [scores [Hs Hp]].
  assert (Hidx : map fst (_score t f) = index f).
  { unfold _score, index. rewrite map_map. reflexivity. }
  assert (Hnd1 : NoDup (map fst scores)).
  { eapply Permutation_NoDup; [apply Permutation_map; symmetry; exact Hp|].
    now rewrite Hidx. }
  assert (Hps : Permutation (sort_values features_ascending snd scores)
                            scores) by apply sort_values_Permutation.
  assert (Hnd2 : NoDup (map fst (sort_values features_ascending snd scores))).
  { eapply Permutation_NoDup;
      [apply Permutation_map; symmetry; exact Hps | assumption]. }
  assert (Hin : forall i, In i (index f) ->
            count_occ label_eq_dec (map fst scores) i = 1%nat
            /\ count_occ label_eq_dec
                 (map fst (sort_values features_ascending snd scores)) i
               = 1%nat).
  { intros i Hi. rewrite <- Hidx in Hi.
    assert (Hi1 : In i (map fst scores)).
    { eapply Permutation_in;
        [apply Permutation_map; symmetry; exact Hp | assumption]. }
    assert (Hi2 : In i (map fst (sort_values features_ascending snd scores))).
    { eapply Permutation_in;
        [apply Permutation_map; symmetry; exact Hps | assumption]. }
    split; apply NoDup_count_occ'; assumption. }
  exists scores. repeat split.
  - assumption.
  - intros i. now apply lookup_Permutation.
  - intros i. rewrite (lookup_Permutation i Hnd2 Hps).
    now apply lookup_Permutation.
  - pose proof (group_chunks f (shape0 f / w) w 0 []) as Hg.
    simpl in Hg. exact Hg.
  - unfold leftover_labels, index. rewrite length_skipn, length_map.
    fold (shape0 f). pose proof (Nat.div_mod_eq (shape0 f) w). lia.
  - now apply Hin.
  - now apply Hin.
  - intros i Hi. apply Hin. unfold leftover_labels in Hi.
    rewrite <- (firstn_skipn (w * (shape0 f / w)) (index f)).
    apply in_or_app. now right.
Qed.

(** ** Alignment *)

Lemma shared_labels_spec (target : Series) (features : DataFrame)
    (l : label) :
  In l (shared_labels target features)
  <-> In l (s_index target) /\ In l (columns features).
Proof.
  unfold shared_labels, index_intersection.
  rewrite filter_In, existsb_exists. split.
  - intros [H [x [Hx E]]]. apply label_eqb_eq in E. subst. tauto.
  - intros [H1 H2]. split; [assumption|].
    exists l. split; [assumption | apply label_eqb_refl].
Qed.

(** The zero-shared-columns error is raised exactly when no shared label
    is true in Python's sense. *)
Lemma align_raises_iff (target : Series) (features : DataFrame) :
  (exists e, align target features = Raise e)
  <-> forall l, In l (shared_labels target features) -> truthy l = false.
Proof.
  unfold align. fold (shared_labels target features).
  destruct (existsb truthy (shared_labels target features)) eqn:E.
  - split.
    + intros [e He]. discriminate.
    + intros Hall. apply existsb_exists in E. destruct E as [l [Hl Ht]].
      rewrite (Hall l Hl) in Ht. discriminate.
  - split.
    + intros _ l Hl. destruct (truthy l) eqn:Ht; [|reflexivity].
      assert (existsb truthy (shared_labels target features) = true)
        by (apply existsb_exists; eauto).
      congruence.
    + intros _. eexists. reflexivity.
Qed.

Lemma map_fst_filter {A : Type} (P : label -> bool) (l : list (label * A)) :
  map fst (filter (fun p => P (fst p)) l) = filter P (map fst l).
Proof.
  induction l as [|p l IH]; simpl; [reflexivity|].
  destruct (P (fst p)); simpl; now rewrite IH.
Qed.

Lemma select_shared (target : Series) (features : DataFrame) :
  NoDup (s_index target) ->
  select (shared_labels target features) target
  = filter (fun p => existsb (label_eqb (fst p)) (columns features)) target.
Proof.
  intros Hnd. unfold shared_labels, index_intersection, s_index.
  rewrite <- (map_fst_filter
                (fun x => existsb (label_eqb x) (columns features))).
  apply select_sub; [assumption|].
  intros x Hx. apply filter_In in Hx. tauto.
Qed.

Lemma map_fst_combine {A B : Type} (a : list A) (b : list B) :
  length a = length b -> map fst (combine a b) = a.
Proof.
  revert b. induction a as [|x a IH]; intros [|y b]; simpl;
    try discriminate; try reflexivity.
  intros [= H]. now rewrite IH.
Qed.

Lemma select_values (cols labels : list label) (vs : list Q) :
  NoDup cols -> length cols = length vs -> incl labels cols ->
  select labels (combine cols vs)
  = map (fun l => (l, value_at cols vs l)) labels.
Proof.
  intros Hnd Hlen. induction labels as [|l labels IH]; intros Hincl.
  - reflexivity.
  - unfold select in *. simpl.
    rewrite IH by (intros x Hx; apply Hincl; now right).
    assert (Hl : In l (map fst (combine cols vs))).
    { rewrite map_fst_combine by assumption. apply Hincl. now left. }
    apply in_map_iff in Hl. destruct Hl as [[l' v] [Hfst Hin]].
    simpl in Hfst. subst l'.
    assert (Hnd' : NoDup (map fst (combine cols vs)))
      by now rewrite map_fst_combine.
    pose proof (filter_label_unique (l, v) _ Hnd' Hin) as Hf.
    simpl in Hf. rewrite Hf. simpl. unfold value_at.
    now rewrite (@lookup_In _ _ _ _ Hnd' Hin).
Qed.

Lemma select_diag (cols labels : list label) :
  NoDup cols -> incl labels cols ->
  select labels (combine cols cols) = map (fun l => (l, l)) labels.
Proof.
  intros Hnd. induction labels as [|l labels IH]; intros Hincl.
  - reflexivity.
  - unfold select in *. simpl.
    rewrite IH by (intros x Hx; apply Hincl; now right).
    assert (Hl : In l cols) by (apply Hincl; now left).
    assert (Hi : In (l, l) (combine cols cols)).
    { clear - Hl. induction cols as [|c cs IHc]; simpl in *; [tauto|].
      destruct Hl; [left; congruence | right; tauto]. }
    assert (Hnd' : NoDup (map fst (combine cols cols)))
      by now rewrite map_fst_combine.
    pose proof (filter_label_unique (l, l) _ Hnd' Hi) as Hf.
    simpl in Hf. now rewrite Hf.
Qed.

(** When some shared label is true in Python's sense, the target is cut
    to the shared labels and sorted descending, and every feature row is
    rewritten to hold, under the target's labels in the target's order,
    the values it held under those labels. *)
Lemma align_sorts_and_reorders (target : Series) (features : DataFrame) :
  NoDup (s_index target) -> NoDup (columns features) ->
  (forall r, In r (rows features)
             -> length (snd r) = length (columns features)) ->
  existsb truthy (shared_labels target features) = true ->
  exists target' features',
    align target features = Ok (target', features')
    /\ Permutation target'
         (filter (fun p => existsb (label_eqb (fst p)) (columns features))
                 target)
    /\ (forall l, In l (s_index target')
                  <-> In l (s_index target) /\ In l (columns features))
    /\ Sorted (fun a b => snd b <= snd a) target'
    /\ columns features' = s_index target'
    /\ rows features'
       = map (fun r => (fst r, map (value_at (columns features) (snd r))
                                   (s_index target')))
             (rows features).
Proof.
  intros Hnt Hnc Hwf Hany. unfold align.
  fold (shared_labels target features). rewrite Hany.
  rewrite select_shared by assumption.
  set (kept := filter _ target).
  set (target' := sort_values false snd kept).
  assert (Hp : Permutation target' kept) by apply sort_values_Permutation.
  assert (Hin : forall l, In l (s_index target')
                  <-> In l (s_index target) /\ In l (columns features)).
  { intros l. rewrite <- shared_labels_spec.
    unfold shared_labels, index_intersection, s_index.
    rewrite <- (map_fst_filter
                  (fun x => existsb (label_eqb x) (columns features))).
    fold kept. split; apply Permutation_in, Permutation_map;
      [assumption | now symmetry]. }
  assert (Hincl : incl (s_index target') (columns features)).
  { intros l Hl. now apply Hin. }
  exists target', (ix_cols features (s_index target')).
  repeat split; try assumption; try (now apply Hin).
  - apply sort_values_descending.
  - unfold ix_cols. simpl.
    rewrite select_diag by assumption.
    rewrite map_map. simpl. now rewrite map_id.
  - unfold ix_cols. simpl. apply map_ext_in. intros r Hr.
    unfold row_at. f_equal.
    rewrite select_values; try assumption.
    + rewrite map_map. reflexivity.
    + symmetry. now apply Hwf.
Qed.

(** C3. The alignment step run on a target indexed [0, 1, 2, 3] and a
    feature matrix with the columns [0], [10] and [11], which share the
    sample label [0]: since [0] is not true in Python's sense,
    [any(shared)] is false and the step raises the zero-shared-columns
    error instead of restricting, sorting and reordering (what it does
    when some shared label is true is [align_sorts_and_reorders]). *)
Theorem align_refuses_shared_falsy_labels :
  let target := [(LInt 0, 1 # 1); (LInt 1, 2 # 1); (LInt 2, 3 # 1);
                 (LInt 3, 4 # 1)] in
  let features :=
    mkDF [LInt 0; LInt 10; LInt 11]
         [(LStr "F1", [4 # 1; 5 # 1; 6 # 1]);
          (LStr "F2", [6 # 1; 5 # 1; 4 # 1])] in
  shared_labels target features = [LInt 0]
  /\ align target features = Raise (ZeroSharedColumns 4 3)
  /\ ~ (exists target' features',
           align target features = Ok (target', features')
           /\ Sorted (fun a b => snd b <= snd a) target'
           /\ columns features' = s_index target').
Proof.
  simpl. split; [reflexivity|]. split; [reflexivity|].
  intros [t' [f' [H _]]]. discriminate.
Qed.

(** C6. A target indexed [0, 1, 2] and a feature matrix with the columns
    [0] and [9] share the sample label [0], and the zero-shared-columns
    error is raised all the same: the test [any(shared)] looks at the
    truth value of the shared labels, not at their number. *)
Theorem zero_shared_columns_raised_despite_shared_label :
  let target := [(LInt 0, 5 # 1); (LInt 1, 4 # 1); (LInt 2, 3 # 1)] in
  let features :=
    mkDF [LInt 0; LInt 9] [(LStr "F1", [1 # 1; 2 # 1])] in
  shared_labels target features = [LInt 0]
  /\ align target features = Raise (ZeroSharedColumns 3 2)
  /\ ~ (align target features = Raise (ZeroSharedColumns 3 2)
        <-> shared_labels target features = []).
Proof.
  simpl. split; [reflexivity|]. split; [reflexivity|].
  intros [H _]. specialize (H eq_refl). discriminate.
Qed.

(** ** Degenerate features *)

Lemma existsb_Qeq (x : Q) (l : list Q) :
  existsb (Qeq_bool x) l = true <-> exists y, In y l /\ x == y.
Proof.
  rewrite existsb_exists. split; intros [y [H1 H2]]; exists y;
    (split; [assumption | now apply Qeq_bool_iff]).
Qed.

Lemma set_of_incl (l : list Q) (x : Q) : In x (set_of l) -> In x l.
Proof.
  no_vars.
  induction l as [|a l IH]; simpl; [tauto|].
  destruct (existsb (Qeq_bool a) l); simpl; tauto.
Qed.

Lemma set_of_covers (l : list Q) (x : Q) :
  In x l -> exists y, In y (set_of l) /\ x == y.
Proof.
  no_vars.
  revert x. induction l as [|a l IH]; intros x; simpl; [tauto|].
  intros [-> | Hin].
  - destruct (existsb (Qeq_bool x) l) eqn:E.
    + apply existsb_Qeq in E. destruct E as [y [Hy Hxy]].
      destruct (IH y Hy) as [z [Hz Hyz]]. exists z. split; [assumption|].
      now rewrite Hxy.
    + exists x. split; [now left | reflexivity].
  - destruct (IH x Hin) as [y [Hy Hxy]]. exists y. split; [|assumption].
    destruct (existsb (Qeq_bool a) l); [assumption | now right].
Qed.

Lemma set_of_head_fresh (l : list Q) (x : Q) (s : list Q) :
  set_of l = x :: s -> forall y, In y s -> ~ x == y.
Proof.
  no_vars.
  induction l as [|a l IH]; simpl; [discriminate|].
  destruct (existsb (Qeq_bool a) l) eqn:E.
  - assumption.
  - intros [= -> <-] y Hy Hxy.
    assert (existsb (Qeq_bool x) l = true).
    { apply existsb_Qeq. exists y. split; [now apply set_of_incl | assumption]. }
    congruence.
Qed.

Lemma two_distinct_iff (vs : list Q) :
  (2 <= length (set_of vs))%nat <-> two_distinct vs.
Proof.
  no_vars.
  split.
  - intros H. destruct (set_of vs) as [|x [|y s]] eqn:E; simpl in H; try lia.
    exists x, y. repeat split.
    + apply set_of_incl. rewrite E. now left.
    + apply set_of_incl. rewrite E. right. now left.
    + apply (set_of_head_fresh vs E). now left.
  - intros [x [y [Hx [Hy Hne]]]].
    destruct (set_of_covers vs x Hx) as [x' [Hx' Hxx]].
    destruct (set_of_covers vs y Hy) as [y' [Hy' Hyy]].
    destruct (set_of vs) as [|a [|b s]]; simpl in *; try lia; try tauto.
    destruct Hx' as [-> | []]. destruct Hy' as [-> | []].
    exfalso. apply Hne. now rewrite Hxx, Hyy.
Qed.

Lemma In_select {A : Type} (keys : list label) (l : list (label * A))
    (p : label * A) :
  In p (select keys l) <-> In (fst p) keys /\ In p l.
Proof.
  unfold select. rewrite in_flat_map. split.
  - intros [k [Hk Hp]]. apply filter_In in Hp. destruct Hp as [Hp E].
    apply label_eqb_eq in E. subst. tauto.
  - intros [Hk Hp]. exists (fst p). split; [assumption|].
    apply filter_In. split; [assumption | apply label_eqb_refl].
Qed.

Lemma In_combine_diag {A : Type} (x : A) (l : list A) :
  In x l -> In (x, x) (combine l l).
Proof.
  induction l as [|c cs IH]; simpl; [tauto|].
  intros [-> | H]; [now left | right; tauto].
Qed.

(** After a successful alignment at least one column is left. *)
Lemma align_keeps_a_column (target target' : Series)
    (features aligned : DataFrame) :
  align target features = Ok (target', aligned) -> columns aligned <> [].
Proof.
  unfold align. fold (shared_labels target features).
  destruct (existsb truthy (shared_labels target features)) eqn:E;
    [|discriminate].
  intros [= <- <-]. simpl.
  apply existsb_exists in E. destruct E as [l [Hl _]].
  pose proof Hl as Hl'. apply shared_labels_spec in Hl'.
  destruct Hl' as [Ht Hc]. unfold s_index in Ht.
  apply in_map_iff in Ht. destruct Ht as [p [Hfst Hp]].
  set (sel := select (shared_labels target features) target).
  assert (Hsel : In p sel).
  { apply In_select. rewrite Hfst. tauto. }
  set (t' := sort_values false snd sel).
  assert (Ht' : In p t').
  { eapply Permutation_in; [symmetry; apply sort_values_Permutation|].
    assumption. }
  assert (Hin : In (fst p, fst p)
                   (select (s_index t')
                           (combine (columns features) (columns features)))).
  { apply In_select. simpl. split.
    - unfold s_index. now apply in_map.
    - apply In_combine_diag. now rewrite Hfst. }
  intros Hnil. apply (in_map fst) in Hin. rewrite Hnil in Hin. exact Hin.
Qed.

Lemma index_align (target target' : Series) (features aligned : DataFrame) :
  align target features = Ok (target', aligned) ->
  index aligned = index features.
Proof.
  unfold align. destruct (existsb truthy _); [|discriminate].
  intros [= <- <-]. unfold index, ix_cols. simpl.
  rewrite map_map. reflexivity.
Qed.

Lemma NoDup_index_filter {A : Type} (P : label * A -> bool)
    (l : list (label * A)) :
  NoDup (map fst l) -> NoDup (map fst (filter P l)).
Proof.
  induction l as [|p l IH]; simpl; [trivial|].
  intros Hnd. inversion Hnd as [|? ? Hnotin Hnd']; subst.
  destruct (P p); simpl; [|now apply IH].
  constructor; [|now apply IH].
  intros Hin. apply Hnotin. apply in_map_iff in Hin.
  destruct Hin as [q [Hq Hin]]. apply filter_In in Hin.
  rewrite <- Hq. apply in_map. tauto.
Qed.

Lemma filter_none {A : Type} (P : A -> bool) (l : list A) :
  (forall x, In x l -> P x = false) -> filter P l = [].
Proof.
  induction l as [|x l IH]; intros H; simpl; [reflexivity|].
  rewrite (H x) by now left. apply IH. intros y Hy. apply H. now right.
Qed.

Lemma keeps_two_distinct (r : label * list Q) :
  (min_n_unique_values <=? length (set_of (snd r))) = true
  <-> two_distinct (snd r).
Proof.
  no_vars.
  unfold min_n_unique_values. rewrite Nat.leb_le. apply two_distinct_iff.
Qed.

(** C5. After a successful alignment: when no aligned feature row has two
    distinct values, the filter raises the no-viable-features error and so
    does the whole panel, whatever the scoring function and settings, so
    nothing is scored; otherwise the filter keeps, in order, exactly the
    rows with two distinct values, and the scoring stage, sequential or
    partitioned, returns a score for exactly the labels of those rows. *)
Theorem degenerate_features_dropped (target target' : Series)
    (features aligned : DataFrame) :
  align target features = Ok (target', aligned) ->
  ((forall r, In r (rows aligned) -> ~ two_distinct (snd r)) ->
     drop_degenerate aligned = Raise NoViableFeatures
     /\ forall g n_jobs asc n_features n_samplings n_permutations,
          make_association_panel g target features n_jobs asc n_features
                                 n_samplings n_permutations
          = Raise NoViableFeatures)
  /\ ((exists r, In r (rows aligned) /\ two_distinct (snd r)) ->
      exists kept,
        drop_degenerate aligned = Ok kept
        /\ columns kept = columns aligned
        /\ rows kept
           = filter (fun f => min_n_unique_values <=? length (set_of (snd f)))
                    (rows aligned)
        /\ (forall r, In r (rows kept)
                      <-> In r (rows aligned) /\ two_distinct (snd r))
        /\ forall n_jobs min_n_per_job,
             NoDup (index features) -> (1 <= n_jobs)%Z ->
             exists scores,
               score_stage target' kept n_jobs min_n_per_job = Ok scores
               /\ forall i, In i (map fst scores)
                            <-> exists r, In r (rows aligned) /\ fst r = i
                                          /\ two_distinct (snd r)).
Proof using parallelize_collects.
  intros Hal.
  pose proof (align_keeps_a_column _ _ Hal) as Hcols.
  split.
  - intros Hall.
    assert (Hd : drop_degenerate aligned = Raise NoViableFeatures).
    { unfold drop_degenerate, empty. cbn [rows columns].
      rewrite filter_none; [reflexivity|].
      intros r Hr.
      destruct (min_n_unique_values <=? length (set_of (snd r))) eqn:E;
        [|reflexivity].
      apply keeps_two_distinct in E. exfalso. now apply (Hall r). }
    split; [assumption|].
    intros. unfold make_association_panel. rewrite Hal. simpl.
    rewrite Hd. reflexivity.
  - intros [r [Hr Htwo]].
    set (keep := fun f : label * list Q =>
                   min_n_unique_values <=? length (set_of (snd f))).
    assert (Hin : forall r', In r' (filter keep (rows aligned))
                    <-> In r' (rows aligned) /\ two_distinct (snd r')).
    { intros r'. rewrite filter_In. unfold keep.
      now rewrite keeps_two_distinct. }
    exists (mkDF (columns aligned) (filter keep (rows aligned))).
    repeat split; try (now apply Hin).
    + unfold drop_degenerate, empty. fold keep. cbn [rows columns].
      destruct (filter keep (rows aligned)) as [|x xs] eqn:E.
      * exfalso. exact (proj2 (Hin r) (conj Hr Htwo)).
      * destruct (columns aligned); [congruence | reflexivity].
    + intros n_jobs min_n_per_job Hnd Hw.
      assert (Hnd' : NoDup (index (mkDF (columns aligned)
                                        (filter keep (rows aligned))))).
      { unfold index at 1. simpl. apply NoDup_index_filter.
        fold (index aligned). now rewrite (index_align _ _ Hal). }
      destruct (score_stage_Permutation target' _ min_n_per_job Hnd' Hw)
        as [scores [Hs Hp]].
      exists scores. split; [assumption|].
      intros i.
      assert (Hi : In i (map fst scores)
                   <-> In i (map fst (filter keep (rows aligned)))).
      { split; intros H.
        - apply (Permutation_in _ (Permutation_map fst Hp)) in H.
          unfold _score in H. simpl in H. now rewrite map_map in H.
        - apply (Permutation_in _ (Permutation_map fst (Permutation_sym Hp))).
          unfold _score. simpl. now rewrite map_map. }
      rewrite Hi, in_map_iff. split.
      * intros [r' [Hf Hr']]. exists r'. apply Hin in Hr'. tauto.
      * intros [r' [Hr' [Hf Ht]]]. exists r'. split; [assumption|].
        apply Hin. tauto.
Qed.

(** ** Global p-values *)

(** The p-value of one score against the pooled null scores. *)
Lemma global_p_value_spec (null : list Q) (s : Q) (P : Z) (n : nat) :
  (1 <= P)%Z -> (1 <= n)%nat ->
  let c := Z.of_nat (length (filter (fun x => negb (Qle_bool x s)) null)) in
  let N := (P * Z.of_nat n)%Z in
  let p := global_p_value null s P n n in
  (c = 0%Z -> p == 1 / inject_Z N)
  /\ (c <> 0%Z -> p == inject_Z c / inject_Z N)
  /\ ~ p == 0
  /\ 1 / inject_Z N <= p.
Proof.
  intros HP Hn c N p.
  assert (HN : (0 < P * Z.of_nat n)%Z) by nia.
  assert (Hc : (0 <= c)%Z) by (subst c; lia).
  unfold p, global_p_value. fold c. subst N.
  destruct (P * Z.of_nat n)%Z as [|N'|N'] eqn:EN; try lia.
  assert (Hdiv : forall a, inject_Z a / inject_Z (Zpos N')
                           = (a * 1 # 1 * N')) by reflexivity.
  assert (Hone : 1 / inject_Z (Zpos N') = (1 * 1 # 1 * N')) by reflexivity.
  rewrite !Hdiv, !Hone.
  destruct (Qeq_bool (c * 1 # 1 * N') 0) eqn:E.
  - apply Qeq_bool_iff in E. unfold Qeq in E. simpl in E.
    repeat split.
    + intros Hc'. exfalso. lia.
    + unfold Qeq. simpl. lia.
    + apply Qle_refl.
  - apply Qeq_bool_neq in E. unfold Qeq in E. simpl in E.
    repeat split.
    + intros Hc'. exfalso. lia.
    + unfold Qeq. simpl. lia.
    + unfold Qle. simpl. nia.
Qed.

(** ** False discovery rates *)

Lemma map_snd_combine {A B : Type} (a : list A) (b : list B) :
  length a = length b -> map snd (combine a b) = b.
Proof.
  revert b. induction a as [|x a IH]; intros [|y b]; simpl;
    try discriminate; try reflexivity.
  intros [= H]. now rewrite IH.
Qed.

Lemma assign_Ok {A : Type} (idx : list label) (vals : list A) :
  length idx = length vals -> assign idx vals = Ok (combine idx vals).
Proof. intros H. unfold assign. now rewrite H, Nat.eqb_refl. Qed.

Hypothesis multipletests_length :
  forall pvals, length (multipletests_fdr_bh pvals) = length pvals.

(** The table of p-values and corrected p-values. *)
Lemma fdr_table_spec (scores : list (label * Q)) (features : DataFrame)
    (permutation_scores : list (label * list Q)) (n_permutations : Z) :
  let p_values :=
    p_values_of scores features permutation_scores n_permutations in
  exists pf,
    p_values_and_fdrs_of scores features permutation_scores n_permutations
    = Ok pf
    /\ map fst pf = map fst scores
    /\ map (fun x => p_value (snd x)) pf = map snd p_values
    /\ map (fun x => fdr_forward (snd x)) pf
       = multipletests_fdr_bh (map snd p_values)
    /\ map (fun x => fdr_reverse (snd x)) pf
       = multipletests_fdr_bh (map (fun p => 1 - p) (map snd p_values))
    /\ forall i r, In (i, r) pf ->
         fdr r = Qmin (fdr_forward r) (fdr_reverse r)
         /\ fdr r <= Qmax (fdr_forward r) (fdr_reverse r).
Proof using multipletests_length.
  intros p_values. unfold p_values_and_fdrs_of. fold p_values.
  set (fw := multipletests_fdr_bh (map snd p_values)).
  set (rv := multipletests_fdr_bh (map (fun p => 1 - p) (map snd p_values))).
  assert (Hfw : length fw = length p_values).
  { unfold fw. now rewrite multipletests_length, length_map. }
  assert (Hrv : length rv = length p_values).
  { unfold rv. now rewrite multipletests_length, !length_map. }
  rewrite !assign_Ok by (rewrite length_map; congruence). simpl.
  set (forward := combine (map fst p_values) fw).
  set (reverse := combine (map fst p_values) rv).
  assert (Lf : length forward = length p_values).
  { unfold forward. rewrite length_combine, length_map. lia. }
  assert (Lr : length reverse = length p_values).
  { unfold reverse. rewrite length_combine, length_map. lia. }
  assert (L2 : length (combine p_values forward) = length reverse).
  { rewrite length_combine. lia. }
  eexists. split; [reflexivity|].
  repeat split.
  - rewrite map_map. simpl.
    rewrite <- (map_map (fun x => fst (fst x)) fst).
    rewrite <- (map_map fst fst), map_fst_combine by assumption.
    rewrite map_fst_combine by congruence.
    unfold p_values, p_values_of. now rewrite map_map.
  - rewrite map_map. simpl.
    rewrite <- (map_map (fun x => fst (fst x)) snd).
    rewrite <- (map_map fst fst), map_fst_combine by assumption.
    now rewrite map_fst_combine by congruence.
  - rewrite map_map. simpl.
    rewrite <- (map_map (fun x => snd (fst x)) snd).
    rewrite <- (map_map fst snd), map_fst_combine by assumption.
    rewrite map_snd_combine by congruence.
    unfold forward. apply map_snd_combine. rewrite length_map. congruence.
  - rewrite map_map. simpl.
    rewrite <- (map_map snd snd), map_snd_combine by assumption.
    unfold reverse. apply map_snd_combine. rewrite length_map. congruence.
  - apply in_map_iff in H. destruct H as [x [Hx _]].
    injection Hx as _ <-. reflexivity.
  - apply in_map_iff in H. destruct H as [x [Hx _]].
    injection Hx as _ <-. simpl.
    eapply Qle_trans; [apply Q.le_min_l | apply Q.le_max_l].
Qed.

(** ** The permutation test and the target *)

Hypothesis shuffle_permutes :
  forall g v, Permutation (fst (shuffle g v)) v.

Lemma buffer_write_same (a : nat) (v : list Q) (st : store) :
  (a < length st)%nat -> buffer a (write a v st) = v.
Proof.
  unfold buffer. revert a. induction st as [|b st IH]; intros a H; simpl in *.
  - lia.
  - destruct a; simpl; [reflexivity|]. apply IH. lia.
Qed.

Lemma buffer_write_other (a b : nat) (v : list Q) (st : store) :
  a <> b -> buffer b (write a v st) = buffer b st.
Proof.
  unfold buffer. revert a b. induction st as [|c st IH]; intros a b H; simpl.
  - now destruct b.
  - destruct a, b; simpl; try reflexivity; try congruence.
    apply IH. congruence.
Qed.

Lemma length_write (a : nat) (v : list Q) (st : store) :
  length (write a v st) = length st.
Proof.
  revert a. induction st as [|c st IH]; intros a; simpl; [reflexivity|].
  destruct a; simpl; [reflexivity|]. now rewrite IH.
Qed.

Lemma combine_map {A B C : Type} (F : A -> B) (G : A -> C) (l : list A) :
  combine (map F l) (map G l) = map (fun x => (F x, G x)) l.
Proof. induction l; simpl; [reflexivity | now f_equal]. Qed.

Lemma set_column_scored (f : DataFrame) (done : list (list Q)) (v : list Q) :
  set_column (scored_against f done)
             (map (fun r => function v (snd r)) (rows f))
  = scored_against f (done ++ [v]).
Proof.
  unfold set_column, scored_against.
  rewrite combine_map, map_map. apply map_ext. intros r. simpl.
  now rewrite map_app.
Qed.

Lemma permute_loop_spec (n a : nat) (f : DataFrame) (done : list (list Q))
    (g : rng) (st : store) :
  (a < length st)%nat ->
  exists g' st',
    permute_loop n a f (scored_against f done) (g, st)
    = (scored_against f (done ++ shuffled_targets n g (buffer a st)),
       (g', st'))
    /\ length st' = length st
    /\ forall b, b <> a -> buffer b st' = buffer b st.
Proof.
  revert done g st. induction n as [|n IH]; intros done g st Ha; simpl.
  - exists g, st. rewrite app_nil_r. repeat split.
  - unfold np_shuffle. simpl.
    destruct (shuffle g (buffer a st)) as [v g1] eqn:E. simpl.
    rewrite buffer_write_same by assumption.
    rewrite set_column_scored.
    destruct (IH (done ++ [v]) g1 (write a v st)) as [g' [st' [H1 [H2 H3]]]].
    { now rewrite length_write. }
    exists g', st'. rewrite H1.
    rewrite buffer_write_same by assumption.
    rewrite <- app_assoc. simpl. repeat split.
    + now rewrite H2, length_write.
    + intros b Hb. rewrite H3 by assumption.
      apply buffer_write_other. congruence.
Qed.

Lemma shuffled_targets_permute (n : nat) (g : rng) (v : list Q) :
  Forall (fun v' => Permutation v' v) (shuffled_targets n g v).
Proof using shuffle_permutes.
  revert g v. induction n as [|n IH]; intros g v; simpl; [constructor|].
  pose proof (shuffle_permutes g v) as Hp.
  destruct (shuffle g v) as [v' g']. simpl in Hp.
  constructor; [assumption|].
  eapply Forall_impl; [|apply IH].
  intros w Hw. simpl in Hw. now rewrite Hw.
Qed.

(** The scores and the memory [_permute_and_score] returns. *)
Lemma permute_and_score_spec (t : nat) (f : DataFrame)
    (n_perms : Z) (g : rng) (st : store) :
  (t < length st)%nat ->
  let vs := shuffled_targets (Z.to_nat n_perms) g (buffer t st) in
  let r := _permute_and_score t f n_perms (g, st) in
  fst r = scored_against f vs
  /\ length vs = Z.to_nat n_perms
  /\ forall b, (b < length st)%nat -> buffer b (snd (snd r)) = buffer b st.
Proof.
  intros Ht vs r. unfold r, _permute_and_score, np_array. simpl.
  assert (Hinit : map (fun i => (i, @nil Q)) (index f) = scored_against f []).
  { unfold scored_against, index. now rewrite map_map. }
  rewrite Hinit.
  assert (Ha : (length st < length (st ++ [buffer t st]))%nat).
  { rewrite length_app. simpl. lia. }
  destruct (@permute_loop_spec (Z.to_nat n_perms) _ f [] g _ Ha)
    as [g' [st' [H1 [H2 H3]]]].
  assert (Hcopy : buffer (length st) (st ++ [buffer t st]) = buffer t st).
  { unfold buffer at 1. rewrite app_nth2 by lia.
    now rewrite Nat.sub_diag. }
  rewrite Hcopy in H1. rewrite H1. simpl. fold vs.
  repeat split.
  - unfold vs. clear. generalize (buffer t st). revert g.
    induction (Z.to_nat n_perms) as [|n IH]; intros g v; simpl;
      [reflexivity|].
    destruct (shuffle g v) as [v' g1]. simpl. now rewrite IH.
  - intros b Hb. rewrite H3 by lia. unfold buffer. now rewrite app_nth1.
Qed.

(** C9. [_permute_and_score] run on a target stored at address [t]: the
    vectors scored against the features, one per round and the vector
    first, are rearrangements of the values of the target; they are the
    successive contents of a fresh copy, and once the call returns, the
    buffer of the target and every other buffer the caller had hold what
    they held before. *)
Theorem permutation_test_keeps_target (t : nat) (f : DataFrame)
    (n_perms : Z) (g : rng) (st : store) :
  (t < length st)%nat ->
  let vs := shuffled_targets (Z.to_nat n_perms) g (buffer t st) in
  let r := _permute_and_score t f n_perms (g, st) in
  fst r = scored_against f vs
  /\ length vs = Z.to_nat n_perms
  /\ Forall (fun v => Permutation v (buffer t st)) vs
  /\ buffer t (snd (snd r)) = buffer t st
  /\ forall b, (b < length st)%nat -> buffer b (snd (snd r)) = buffer b st.
Proof using shuffle_permutes.
  intros Ht vs r.
  destruct (permute_and_score_spec f n_perms g st Ht) as [H1 [H2 H3]].
  split; [exact H1|]. split; [exact H2|].
  split; [apply shuffled_targets_permute|].
  split; [now apply H3 | exact H3].
Qed.

(** ** The bootstrap stage *)

Hypothesis choice_length :
  forall g population k,
    population <> [] -> length (fst (choice g population k)) = k.
Hypothesis choice_in :
  forall g population k, incl (fst (choice g population k)) population.

(** Without weights, [choice] draws [k] integers below the size of the
    population and returns the labels at those positions. *)
Hypothesis randint_range :
  forall g m k,
    (0 < m)%nat ->
    length (fst (randint g m k)) = k
    /\ Forall (fun j => (j < m)%nat) (fst (randint g m k)).
Hypothesis choice_by_position :
  forall g population k,
    population <> [] ->
    choice g population k
    = (map (fun j => nth j population (LInt 0))
           (fst (randint g (length population) k)),
       snd (randint g (length population) k)).

Lemma drawn_samples_spec (n : nat) (g : rng) (population : list label)
    (k : nat) :
  population <> [] ->
  length (drawn_samples n g population k) = n
  /\ Forall (fun d => length d = k /\ incl d population)
            (drawn_samples n g population k).
Proof using choice_in choice_length.
  intros Hne. revert g. induction n as [|n IH]; intros g; simpl.
  - split; [reflexivity | constructor].
  - pose proof (choice_length g k Hne) as Hl.
    pose proof (choice_in g population k) as Hi.
    destruct (choice g population k) as [d g']. simpl in *.
    destruct (IH g') as [H1 H2]. split; [now rewrite H1|].
    constructor; [split; assumption | assumption].
Qed.

Lemma combine_index_values (t : Series) :
  combine (s_index t) (s_values t) = t.
Proof.
  unfold s_index, s_values. induction t as [|[l v] t IH]; simpl;
    [reflexivity | now rewrite IH].
Qed.

Lemma select_index (sel : list label) (l : list (label * list Q)) :
  NoDup (map fst l) -> incl sel (map fst l) -> map fst (select sel l) = sel.
Proof.
  intros Hnd. induction sel as [|i sel IH]; intros Hincl.
  - reflexivity.
  - unfold select in *. simpl. rewrite map_app.
    rewrite IH by (intros x Hx; apply Hincl; now right).
    assert (Hi : In i (map fst l)) by (apply Hincl; now left).
    apply in_map_iff in Hi. destruct Hi as [r [Hfst Hr]].
    pose proof (filter_label_unique r l Hnd Hr) as Hf.
    rewrite Hfst in Hf. rewrite Hf. simpl. now rewrite Hfst.
Qed.

Section Bootstrap.

Variables (target : Series) (features : DataFrame).
Hypothesis columns_unique : NoDup (columns features).
Hypothesis columns_target : columns features = s_index target.
Hypothesis rows_rectangular :
  forall r, In r (rows features)
            -> length (snd r) = length (columns features).
Hypothesis index_unique : NoDup (index features).

Lemma bootstrap_round_spec (g : rng) (sel : list label) :
  let k := Z.to_nat (n_resampled (shape1 features)) in
  let d := fst (choice g (columns features) k) in
  bootstrap_round g target features sel
  = (map (fun r => function (resample (columns features) (snd r) d)
                            (resample (s_index target) (s_values target) d))
         (select sel (rows features)),
     snd (choice g (columns features) k)).
Proof using choice_in columns_target columns_unique rows_rectangular.
  intros k d. unfold bootstrap_round. fold k.
  pose proof (choice_in g (columns features) k) as Hin. fold d in Hin.
  destruct (choice g (columns features) k) as [d' g'] eqn:E.
  simpl in d. subst d. simpl. f_equal.
  rewrite map_map. apply map_ext_in. intros r Hr. simpl.
  apply In_select in Hr. destruct Hr as [_ Hr].
  f_equal.
  - rewrite select_values; try assumption.
    + now rewrite map_map.
    + symmetry. now apply rows_rectangular.
  - rewrite <- (combine_index_values target) at 1.
    rewrite select_values.
    + unfold s_values at 1. now rewrite map_map.
    + now rewrite <- columns_target.
    + unfold s_index, s_values. now rewrite !length_map.
    + now rewrite <- columns_target.
Qed.

(** The table of bootstrapped scores of the selected rows. *)
Lemma bootstrap_loop_spec (n : nat) (g : rng) (sel : list label)
    (done : list (list label)) :
  let k := Z.to_nat (n_resampled (shape1 features)) in
  let tbl := fun draws =>
    map (fun r => (fst r, bootstrap_sample target features (snd r) draws))
        (select sel (rows features)) in
  exists g',
    bootstrap_loop n g target features sel (tbl done)
    = (tbl (done ++ drawn_samples n g (columns features) k), g').
Proof using choice_in columns_target columns_unique rows_rectangular.
  intros k tbl. revert g done. induction n as [|n IH]; intros g done; simpl.
  - exists g. now rewrite app_nil_r.
  - rewrite bootstrap_round_spec. fold k.
    destruct (choice g (columns features) k) as [d g1]. simpl.
    assert (Hset : set_column (tbl done)
              (map (fun r => function
                               (resample (columns features) (snd r) d)
                               (resample (s_index target) (s_values target) d))
                   (select sel (rows features)))
            = tbl (done ++ [d])).
    { unfold set_column, tbl, bootstrap_sample.
      rewrite combine_map, map_map. apply map_ext. intros r. simpl.
      now rewrite map_app. }
    rewrite Hset. destruct (IH g1 (done ++ [d])) as [g' H].
    exists g'. rewrite H. now rewrite <- app_assoc.
Qed.

Lemma lookup_unique {A : Type} (i : label) (v : A) (tbl : list (label * A)) :
  In (i, v) tbl -> (forall v', In (i, v') tbl -> v' = v) ->
  lookup i tbl = Some v.
Proof.
  induction tbl as [|[j w] tbl IH]; simpl; [tauto|].
  intros Hin Huniq. destruct (label_eqb j i) eqn:E.
  - apply label_eqb_eq in E. subst j. f_equal. apply Huniq. now left.
  - destruct Hin as [Heq | Hin].
    + inversion Heq; subst. rewrite label_eqb_refl in E. discriminate.
    + apply IH; [assumption|]. intros v' Hv'. apply Huniq. now right.
Qed.

Lemma row_of_label (i : label) (row row' : list Q) :
  In (i, row) (rows features) -> In (i, row') (rows features) -> row' = row.
Proof using index_unique.
  intros H1 H2.
  pose proof (@lookup_In _ _ _ _ index_unique H1) as E1.
  pose proof (@lookup_In _ _ _ _ index_unique H2) as E2.
  congruence.
Qed.

(** What the stage returns when it is not skipped. *)
Lemma bootstrap_stage_runs (g : rng) (scores : list (label * Q))
    (n_features : py_value) (n_samplings : Z) (confidence : Q)
    (sel : list label) :
  is_number n_features = true -> (2 <= n_samplings)%Z ->
  (3 <= n_resampled (shape1 features))%Z ->
  indices_to_bootstrap n_features scores = Ok sel ->
  incl sel (index features) ->
  let draws := drawn_samples (Z.to_nat n_samplings) g (columns features)
                             (Z.to_nat (n_resampled (shape1 features))) in
  exists margins g',
    bootstrap_stage g target features scores n_features n_samplings
                    confidence
    = Ok (Some margins, g')
    /\ map fst margins = map fst scores
    /\ (forall i s row,
          In (i, s) scores -> In i sel -> In (i, row) (rows features) ->
          In (i, Some (margin_of_error confidence n_samplings
                         (bootstrap_sample target features row draws)))
             margins)
    /\ (forall i s, In (i, s) scores -> ~ In i sel -> In (i, None) margins).
Proof using choice_in columns_target columns_unique index_unique rows_rectangular.
  intros Hnum HR Hk Hsel Hincl draws.
  unfold bootstrap_stage. rewrite Hnum. simpl.
  destruct (n_samplings <? 2)%Z eqn:E1; [lia|].
  destruct (n_resampled (shape1 features) <? 3)%Z eqn:E2; [lia|].
  rewrite Hsel. simpl.
  assert (Hidx : map fst (select sel (rows features)) = sel)
    by now apply select_index.
  assert (Hinit : map (fun i => (i, @nil Q)) sel
                  = map (fun r => (fst r,
                                   bootstrap_sample target features (snd r) []))
                        (select sel (rows features))).
  { rewrite <- Hidx at 1. now rewrite map_map. }
  rewrite Hinit.
  destruct (bootstrap_loop_spec (Z.to_nat n_samplings) g sel []) as [g' Hl].
  rewrite Hl. simpl. fold draws.
  eexists. exists g'. split; [reflexivity|].
  set (ci := map _ (map _ (select sel (rows features)))).
  assert (Hci : map fst ci = sel).
  { unfold ci. rewrite !map_map. simpl. exact Hidx. }
  repeat split.
  - rewrite map_map. reflexivity.
  - intros i s row Hs Hi Hrow.
    apply in_map_iff. exists (i, s). simpl. split; [|assumption].
    f_equal. apply lookup_unique.
    + unfold ci. rewrite map_map. apply in_map_iff.
      exists (i, row). split; [reflexivity|].
      apply In_select. tauto.
    + intros v' Hv'. unfold ci in Hv'. rewrite map_map in Hv'.
      apply in_map_iff in Hv'. destruct Hv' as [[j row'] [Heq Hr']].
      simpl in Heq. injection Heq as -> <-.
      apply In_select in Hr'. destruct Hr' as [_ Hr'].
      now rewrite (@row_of_label _ _ _ Hrow Hr').
  - intros i s Hs Hi.
    apply in_map_iff. exists (i, s). simpl. split; [|assumption].
    f_equal. apply lookup_None. now rewrite Hci.
Qed.

End Bootstrap.

Lemma n_resampled_spec (m : nat) :
  (632 * Z.of_nat m <= 1000 * n_resampled m < 632 * Z.of_nat m + 1000)%Z.
Proof.
  unfold n_resampled.
  set (x := (632 # 1000) * inject_Z (Z.of_nat m)).
  pose proof (Qle_ceiling x) as H1.
  pose proof (Qceiling_lt x) as H2.
  set (c := Qceiling x) in *.
  assert (Hx : x == (632 * Z.of_nat m) # 1000).
  { unfold x, Qmult, inject_Z, Qeq. cbn [Qnum Qden]. lia. }
  rewrite Hx in H1, H2.
  unfold Qle, Qlt, inject_Z in H1, H2. cbn [Qnum Qden] in H1, H2. lia.
Qed.

Lemma indices_to_bootstrap_incl (n_features : py_value)
    (scores : list (label * Q)) (sel : list label) :
  indices_to_bootstrap n_features scores = Ok sel ->
  incl sel (map fst scores).
Proof.
  no_vars.
  unfold indices_to_bootstrap.
  destruct (negb (Qle_bool 1 (num n_features))).
  - destruct (quantile _ (num n_features)) as [top|]; [|discriminate].
    destruct (quantile _ (1 - num n_features)) as [bottom|]; [|discriminate].
    simpl. intros [= <-] i Hi.
    apply in_map_iff in Hi. destruct Hi as [r [<- Hr]].
    apply filter_In in Hr. apply in_map. tauto.
  - destruct (Qle_bool _ _).
    + intros [= <-]. apply incl_refl.
    + destruct n_features; try discriminate.
      intros [= <-] i Hi. apply in_app_or in Hi.
      destruct Hi as [Hi | Hi].
      * rewrite <- (firstn_skipn (Z.to_nat z) (map fst scores)).
        apply in_or_app. now left.
      * rewrite <- (firstn_skipn (length scores - Z.to_nat z)
                                  (map fst scores)).
        apply in_or_app. now right.
Qed.

Lemma indices_to_bootstrap_documented (n_features : py_value)
    (scores : list (label * Q)) :
  documented n_features ->
  exists sel, indices_to_bootstrap n_features scores = Ok sel.
Proof.
  unfold indices_to_bootstrap, documented.
  destruct n_features as [z | q |]; cbn [num]; [| |tauto].
  - intros Hz.
    assert (E : Qle_bool 1 (inject_Z z) = true).
    { apply Qle_bool_iff. unfold Qle, inject_Z. cbn [Qnum Qden]. lia. }
    rewrite E. cbn [negb].
    destruct (Qle_bool (inject_Z (Z.of_nat (length scores)))
                       (2 * inject_Z z)); eexists; reflexivity.
  - intros [H0 H1].
    assert (E : Qle_bool 1 q = false).
    { destruct (Qle_bool 1 q) eqn:E; [|reflexivity].
      apply Qle_bool_iff in E. exfalso. apply (Qlt_not_le _ _ H1 E). }
    rewrite E. cbn [negb]. unfold quantile.
    assert (Ea : Qle_bool 0 q && Qle_bool q 1 = true).
    { apply andb_true_iff. split; apply Qle_bool_iff;
        [assumption | now apply Qlt_le_weak]. }
    assert (Eb : Qle_bool 0 (1 - q) && Qle_bool (1 - q) 1 = true).
    { apply andb_true_iff. split; apply Qle_bool_iff.
      - apply Qlt_le_weak. unfold Qlt, Qminus, Qplus, Qopp in *.
        cbn [Qnum Qden] in *. lia.
      - unfold Qle, Qminus, Qplus, Qopp in *. cbn [Qnum Qden] in *. nia. }
    rewrite Ea, Eb. cbn [bind]. eexists. reflexivity.
Qed.

Lemma permutation_scores_Ok (g : rng) (target : Series)
    (features : DataFrame) (n_jobs min_n_per_job n_permutations : Z) :
  (1 <= n_jobs)%Z ->
  exists r,
    permutation_scores g target features n_jobs min_n_per_job n_permutations
    = Ok r.
Proof.
  intros Hw. unfold permutation_scores.
  destruct (n_jobs =? 1)%Z; [eexists; reflexivity|].
  destruct (n_jobs =? 0)%Z eqn:E0; [lia|].
  destruct (_ <? min_n_per_job)%Z; [eexists; reflexivity|].
  pose proof (group_chunks features
                (Z.to_nat (Z.of_nat (shape0 features) / n_jobs))
                (Z.to_nat n_jobs) 0 []) as Hg.
  simpl in Hg. rewrite Hg. simpl.
  destruct (nonempty _); eexists; reflexivity.
Qed.

(** * Further properties of [associate] *)

Lemma sort_values_sorted {A : Type} (asc : bool) (key : A -> Q)
    (l : list A) :
  Sorted (fun a b => if asc then key a <= key b else key b <= key a)
         (sort_values asc key l).
Proof.
  unfold sort_values.
  apply Sorted_weaken
    with (R := fun a b => (if asc then Qle_bool (key a) (key b)
                           else Qle_bool (key b) (key a)) = true).
  - intros a b. destruct asc; apply Qle_bool_iff.
  - apply (sort_by_sorted (fun x y => if asc then Qle_bool (key x) (key y)
                                      else Qle_bool (key y) (key x))).
    intros a b. destruct asc; apply Qle_bool_total.
Qed.

(** What a successful run of [associate] went through. *)
Lemma associate_inv (g g' : rng) (target : Series) (features : DataFrame)
    (n_jobs : Z) (asc : bool) (n_features : py_value)
    (min_n_per_job n_samplings : Z) (confidence : Q) (n_permutations : Z)
    (sc : Scores) :
  associate g target features n_jobs asc n_features min_n_per_job
            n_samplings confidence n_permutations = Ok (sc, g') ->
  exists scores0 g1,
    score_stage target features n_jobs min_n_per_job = Ok scores0
    /\ score sc = sort_values asc snd scores0
    /\ bootstrap_stage g target features (score sc) n_features n_samplings
                       confidence = Ok (moe sc, g1)
    /\ (((n_permutations < 1)%Z /\ p_values_and_fdrs sc = None /\ g' = g1)
        \/ ((1 <= n_permutations)%Z
            /\ exists perm pf,
                 permutation_scores g1 target features n_jobs min_n_per_job
                                    n_permutations = Ok (perm, g')
                 /\ p_values_and_fdrs_of (score sc) features perm
                                         n_permutations = Ok pf
                 /\ p_values_and_fdrs sc = Some pf)).
Proof.
  unfold associate.
  destruct (score_stage target features n_jobs min_n_per_job)
    as [scores0|] eqn:Es; [|discriminate].
  cbn [bind].
  destruct (bootstrap_stage g target features (sort_values asc snd scores0)
                            n_features n_samplings confidence)
    as [[margins g1]|] eqn:Eb; [|discriminate].
  cbn [bind].
  destruct (n_permutations <? 1)%Z eqn:EP.
  - intros [= <- <-]. exists scores0, g1. cbn [score moe p_values_and_fdrs].
    repeat split; try assumption. left. repeat split. lia.
  - destruct (permutation_scores g1 target features n_jobs min_n_per_job
                                 n_permutations) as [[perm g2]|] eqn:Ep;
      [|discriminate].
    cbn [bind].
    destruct (p_values_and_fdrs_of (sort_values asc snd scores0) features
                                   perm n_permutations) as [pf|] eqn:Ef;
      [|discriminate].
    cbn [bind]. intros [= <- <-]. exists scores0, g1.
    cbn [score moe p_values_and_fdrs].
    repeat split; try assumption. right. split; [lia|].
    exists perm, pf. repeat split; assumption.
Qed.

Lemma bootstrap_stage_labels (g g' : rng) (target : Series)
    (features : DataFrame) (scores : list (label * Q))
    (n_features : py_value) (n_samplings : Z) (confidence : Q)
    (margins : list (label * option Q)) :
  bootstrap_stage g target features scores n_features n_samplings confidence
  = Ok (Some margins, g') ->
  map fst margins = map fst scores.
Proof.
  unfold bootstrap_stage.
  destruct (negb (is_number n_features)); [discriminate|].
  destruct (n_samplings <? 2)%Z; [discriminate|].
  destruct (n_resampled (shape1 features) <? 3)%Z; [discriminate|].
  destruct (indices_to_bootstrap n_features scores) as [sel|];
    [|discriminate].
  cbn [bind]. destruct (bootstrap_loop _ _ _ _ _ _) as [tbl g1].
  intros [= <- _]. rewrite map_map. reflexivity.
Qed.

Lemma assign_inv {A : Type} (idx : list label) (vals : list A)
    (col : list (label * A)) :
  assign idx vals = Ok col -> length idx = length vals /\ col = combine idx vals.
Proof.
  unfold assign. destruct (length idx =? length vals) eqn:E; [|discriminate].
  apply Nat.eqb_eq in E. intros [= <-]. tauto.
Qed.

Lemma p_values_and_fdrs_labels (scores : list (label * Q))
    (features : DataFrame) (perm : list (label * list Q)) (P : Z)
    (pf : list (label * PValFdr)) :
  p_values_and_fdrs_of scores features perm P = Ok pf ->
  map fst pf = map fst scores
  /\ map (fun x => (fst x, p_value (snd x))) pf
     = p_values_of scores features perm P.
Proof.
  unfold p_values_and_fdrs_of.
  set (pv := p_values_of scores features perm P).
  destruct (assign (map fst pv) (multipletests_fdr_bh (map snd pv)))
    as [fw|] eqn:Ef; [|discriminate].
  cbn [bind].
  destruct (assign (map fst pv)
                   (multipletests_fdr_bh (map (fun p => 1 - p) (map snd pv))))
    as [rv|] eqn:Er; [|discriminate].
  cbn [bind]. intros [= <-].
  apply assign_inv in Ef. destruct Ef as [Lf ->].
  apply assign_inv in Er. destruct Er as [Lr ->].
  rewrite length_map in Lf, Lr.
  set (fw := combine (map fst pv) (multipletests_fdr_bh (map snd pv))).
  set (rv := combine (map fst pv) _).
  assert (L1 : length pv = length fw).
  { unfold fw. rewrite length_combine, length_map. lia. }
  assert (L2 : length (combine pv fw) = length rv).
  { unfold rv. rewrite !length_combine, length_map. lia. }
  assert (Hpv : map fst (map fst (combine (combine pv fw) rv)) = pv).
  { rewrite map_fst_combine by assumption. now apply map_fst_combine. }
  split.
  - rewrite map_map. cbn [fst].
    rewrite <- (map_map (fun x => fst (fst x)) fst).
    rewrite <- (map_map fst fst), Hpv.
    unfold pv, p_values_of. now rewrite map_map.
  - rewrite map_map. cbn [fst snd p_value].
    rewrite <- (map_map (fun x => fst (fst x)) (fun p => (fst p, snd p))).
    rewrite <- (map_map fst fst), Hpv.
    rewrite <- (map_id pv) at 2. apply map_ext. now intros [i p].
Qed.

(** ** The shape of the null scores *)

Lemma concat_chunks_map {B : Type} (F : label * list Q -> B) (f : DataFrame)
    (k w : nat) :
  concat (map (fun a => map F (rows a)) (map (chunk f k) (seq 0 w)))
  = map F (firstn (w * k) (rows f)).
Proof.
  induction w as [|w IH].
  - reflexivity.
  - rewrite seq_S, !map_app, concat_app, IH. simpl.
    rewrite app_nil_r, <- map_app. f_equal.
    replace ((w + 1) * k - w * k)%nat with k by lia.
    replace (k + w * k)%nat with (w * k + k)%nat by lia.
    rewrite <- (firstn_skipn (w * k) (firstn (w * k + k) (rows f))).
    f_equal.
    + rewrite firstn_firstn. f_equal. lia.
    + rewrite skipn_firstn_comm. f_equal. lia.
Qed.

Lemma leftover_rows (f : DataFrame) (n : nat) :
  NoDup (index f) ->
  rows (ix_rows f (skipn n (index f))) = skipn n (rows f).
Proof.
  intros Hnd. unfold ix_rows, index. cbn [rows].
  rewrite skipn_map. apply select_sub; [assumption|].
  intros x Hx. rewrite <- (firstn_skipn n (rows f)).
  apply in_or_app. now right.
Qed.

Lemma permute_and_score_on_spec (g : rng) (target : Series) (P : Z)
    (f : DataFrame) :
  fst (permute_and_score_on g target P f)
  = scored_against f (shuffled_targets (Z.to_nat P) g (s_values target)).
Proof.
  unfold permute_and_score_on. cbn [fst].
  assert (Ht : (0 < length [s_values target])%nat) by (simpl; lia).
  destruct (permute_and_score_spec f P g [s_values target] Ht) as [H _].
  exact H.
Qed.

Lemma shuffled_targets_length (n : nat) (g : rng) (v : list Q) :
  length (shuffled_targets n g v) = n.
Proof.
  revert g v. induction n as [|n IH]; intros g v; simpl; [reflexivity|].
  destruct (shuffle g v) as [v' g1]. simpl. now rewrite IH.
Qed.

(** The rows of the null-score table are, in some order, the scores of
    every feature against the same shuffled targets. *)
Lemma permutation_scores_rows (g g' : rng) (target : Series)
    (features : DataFrame) (n_jobs min_n_per_job P : Z)
    (perm : list (label * list Q)) :
  NoDup (index features) -> (1 <= n_jobs)%Z ->
  permutation_scores g target features n_jobs min_n_per_job P
  = Ok (perm, g') ->
  Permutation perm
    (scored_against features
                    (shuffled_targets (Z.to_nat P) g (s_values target))).
Proof using parallelize_collects.
  intros Hnd Hw. unfold permutation_scores.
  set (vs := shuffled_targets (Z.to_nat P) g (s_values target)).
  assert (Hseq : forall a, fst (permute_and_score_on g target P a)
                           = scored_against a vs)
    by (intros a; apply permute_and_score_on_spec).
  destruct (n_jobs =? 1)%Z eqn:E1.
  { intros [= H1 _]. subst perm. pose proof (Hseq features) as Hs.
    unfold permute_and_score_on in Hs. cbn [fst] in Hs. now rewrite Hs. }
  destruct (n_jobs =? 0)%Z eqn:E0; [lia|].
  destruct (_ <? min_n_per_job)%Z.
  { intros [= H1 _]. subst perm. pose proof (Hseq features) as Hs.
    unfold permute_and_score_on in Hs. cbn [fst] in Hs. now rewrite Hs. }
  set (k := Z.to_nat (Z.of_nat (shape0 features) / n_jobs)).
  set (w := Z.to_nat n_jobs).
  pose proof (group_chunks features k w 0 []) as Hg. simpl in Hg.
  rewrite Hg. cbn [bind].
  assert (Hp : Permutation
                 (concat (parallelize
                            (fun a => fst (permute_and_score_on g target P a))
                            (map (chunk features k) (seq 0 w))))
                 (map (fun r => (fst r, map (fun v => function v (snd r)) vs))
                      (firstn (w * k) (rows features)))).
  { rewrite <- concat_chunks_map.
    apply Permutation_concat_compat.
    rewrite (parallelize_collects _ (map (chunk features k) (seq 0 w))).
    erewrite map_ext; [reflexivity|]. intros a. apply Hseq. }
  assert (Hall : scored_against features vs
                 = map (fun r => (fst r, map (fun v => function v (snd r)) vs))
                       (firstn (w * k) (rows features))
                   ++ map (fun r => (fst r,
                                     map (fun v => function v (snd r)) vs))
                          (skipn (w * k) (rows features))).
  { unfold scored_against. now rewrite <- map_app, firstn_skipn. }
  destruct (nonempty (skipn (w * k) (index features))) eqn:En.
  - destruct (permute_and_score_on g target P
                (ix_rows features (skipn (w * k) (index features))))
      as [more g1] eqn:Em.
    intros [= <- _].
    assert (Hmore : more
              = map (fun r => (fst r, map (fun v => function v (snd r)) vs))
                    (skipn (w * k) (rows features))).
    { change more with (fst (more, g1)). rewrite <- Em, Hseq.
      unfold scored_against. now rewrite leftover_rows. }
    rewrite Hmore, Hall. now apply Permutation_app_tail.
  - intros [= <- _]. rewrite Hall.
    assert (Hnil : skipn (w * k) (rows features) = []).
    { unfold index in En. rewrite skipn_map in En.
      destruct (skipn (w * k) (rows features)); [reflexivity | discriminate]. }
    rewrite Hnil. simpl. now rewrite app_nil_r.
Qed.

Lemma flat_length_Permutation (a b : list (label * list Q)) :
  Permutation a b ->
  length (concat (map snd a)) = length (concat (map snd b)).
Proof.
  intros H. apply Permutation_length, Permutation_concat_compat.
  now apply Permutation_map.
Qed.

Lemma scored_against_flat_length (f : DataFrame) (vs : list (list Q)) :
  length (concat (map snd (scored_against f vs)))
  = (shape0 f * length vs)%nat.
Proof.
  unfold scored_against, shape0. rewrite map_map. cbn [snd].
  induction (rows f) as [|r rs IH]; simpl; [reflexivity|].
  now rewrite length_app, length_map, IH.
Qed.

Lemma filter_length_le {A : Type} (P : A -> bool) (l : list A) :
  (length (filter P l) <= length l)%nat.
Proof.
  induction l as [|x l IH]; simpl; [lia|].
  destruct (P x); simpl; lia.
Qed.

Lemma global_p_value_le_1 (null : list Q) (s : Q) (P : Z) (n : nat) :
  (1 <= P)%Z -> (1 <= n)%nat -> length null = (n * Z.to_nat P)%nat ->
  global_p_value null s P n n <= 1.
Proof.
  intros HP Hn Hlen.
  pose proof (filter_length_le (fun x => negb (Qle_bool x s)) null) as Hc.
  unfold global_p_value.
  set (c := Z.of_nat (length (filter _ null))) in *.
  assert (HN : (P * Z.of_nat n = Z.of_nat (length null))%Z).
  { rewrite Hlen, Nat2Z.inj_mul, Z2Nat.id by lia. lia. }
  assert (Hpos : (0 < P * Z.of_nat n)%Z) by nia.
  destruct (P * Z.of_nat n)%Z as [|N'|N'] eqn:EN; try lia.
  assert (Hdiv : forall a, inject_Z a / inject_Z (Zpos N')
                           = (a * 1 # 1 * N')) by reflexivity.
  assert (Hone : 1 / inject_Z (Zpos N') = (1 * 1 # 1 * N')) by reflexivity.
  rewrite !Hdiv, !Hone.
  destruct (Qeq_bool (c * 1 # 1 * N') 0); unfold Qle; simpl; lia.
Qed.

(** X1. A successful run of [associate] on features with unique labels
    returns the scores ordered by value in the requested direction
    (ascending when [features_ascending], descending otherwise), and the
    score table holds exactly the rows of sequential scoring, one per
    feature. *)
Theorem associate_scores_sorted (g g' : rng) (target : Series)
    (features : DataFrame) (n_jobs : Z) (asc : bool) (n_features : py_value)
    (min_n_per_job n_samplings : Z) (confidence : Q) (n_permutations : Z)
    (sc : Scores) :
  NoDup (index features) -> (1 <= n_jobs)%Z ->
  associate g target features n_jobs asc n_features min_n_per_job
            n_samplings confidence n_permutations = Ok (sc, g') ->
  Sorted (fun a b => if asc then snd a <= snd b else snd b <= snd a)
         (score sc)
  /\ Permutation (score sc) (_score target features)
  /\ length (score sc) = shape0 features.
Proof using parallelize_collects.
  intros Hnd Hw Ha.
  destruct (associate_inv _ _ _ _ _ _ _ _ _ _ Ha)
    as [scores0 [g1 [Hs [Hsc _]]]].
  destruct (score_stage_Permutation target features min_n_per_job Hnd Hw)
    as [scores1 [Hs1 Hp]].
  assert (scores1 = scores0) by congruence. subst scores1.
  assert (Hperm : Permutation (score sc) (_score target features)).
  { rewrite Hsc. now rewrite sort_values_Permutation. }
  split; [rewrite Hsc; apply sort_values_sorted|].
  split; [exact Hperm|].
  rewrite (Permutation_length Hperm). unfold _score, shape0.
  apply length_map.
Qed.

(** X2. In the table [associate] returns, the margin column and the
    columns of the permutation stage, when present, carry the feature
    labels of the score column, in the same order. *)
Theorem associate_columns_aligned (g g' : rng) (target : Series)
    (features : DataFrame) (n_jobs : Z) (asc : bool) (n_features : py_value)
    (min_n_per_job n_samplings : Z) (confidence : Q) (n_permutations : Z)
    (sc : Scores) :
  associate g target features n_jobs asc n_features min_n_per_job
            n_samplings confidence n_permutations = Ok (sc, g') ->
  (forall margins, moe sc = Some margins
                   -> map fst margins = map fst (score sc))
  /\ (forall pf, p_values_and_fdrs sc = Some pf
                 -> map fst pf = map fst (score sc)).
Proof.
  intros Ha.
  destruct (associate_inv _ _ _ _ _ _ _ _ _ _ Ha)
    as [scores0 [g1 [_ [_ [Hb Hp]]]]].
  split.
  - intros margins Hm. rewrite Hm in Hb.
    exact (bootstrap_stage_labels _ _ _ _ _ _ _ Hb).
  - intros pf Hpf.
    destruct Hp as [[_ [Hnone _]] | [_ [perm [pf' [_ [Hf Hsome]]]]]];
      [congruence|].
    assert (pf' = pf) by congruence. subst pf'.
    now apply p_values_and_fdrs_labels in Hf.
Qed.

(** X3. In a successful run of [associate], the p-value and FDR columns
    are absent exactly when [n_permutations < 1]. *)
Theorem permutation_stage_skipped_iff (g g' : rng) (target : Series)
    (features : DataFrame) (n_jobs : Z) (asc : bool) (n_features : py_value)
    (min_n_per_job n_samplings : Z) (confidence : Q) (n_permutations : Z)
    (sc : Scores) :
  associate g target features n_jobs asc n_features min_n_per_job
            n_samplings confidence n_permutations = Ok (sc, g') ->
  (p_values_and_fdrs sc = None <-> (n_permutations < 1)%Z).
Proof.
  intros Ha.
  destruct (associate_inv _ _ _ _ _ _ _ _ _ _ Ha)
    as [scores0 [g1 [_ [_ [_ Hp]]]]].
  destruct Hp as [[Hlt [Hnone _]] | [Hge [perm [pf [_ [_ Hsome]]]]]].
  - tauto.
  - split; [congruence | lia].
Qed.

(** X4. In a successful run of [associate] on features with unique
    labels, every reported p-value lies in (0, 1]: the pooled null scores
    number [n * n_permutations], so at most that many exceed a score. *)
Theorem p_values_in_unit_interval (g g' : rng) (target : Series)
    (features : DataFrame) (n_jobs : Z) (asc : bool) (n_features : py_value)
    (min_n_per_job n_samplings : Z) (confidence : Q) (n_permutations : Z)
    (sc : Scores) (pf : list (label * PValFdr)) :
  NoDup (index features) -> (1 <= n_jobs)%Z ->
  associate g target features n_jobs asc n_features min_n_per_job
            n_samplings confidence n_permutations = Ok (sc, g') ->
  p_values_and_fdrs sc = Some pf ->
  forall i r, In (i, r) pf -> 0 < p_value r /\ p_value r <= 1.
Proof using parallelize_collects.
  intros Hnd Hw Ha Hpf i r Hin.
  destruct (associate_inv _ _ _ _ _ _ _ _ _ _ Ha)
    as [scores0 [g1 [Hs [Hsc [_ Hp]]]]].
  destruct Hp as [[_ [Hnone _]] | [HP [perm [pf' [Hperm [Hf Hsome]]]]]];
    [congruence|].
  assert (pf' = pf) by congruence. subst pf'.
  destruct (score_stage_Permutation target features min_n_per_job Hnd Hw)
    as [scores1 [Hs1 Hp1]].
  assert (scores1 = scores0) by congruence. subst scores1.
  assert (Hlen : length (score sc) = shape0 features).
  { rewrite Hsc, (Permutation_length (sort_values_Permutation _ _ _)).
    rewrite (Permutation_length Hp1). unfold _score, shape0.
    apply length_map. }
  destruct (p_values_and_fdrs_labels _ _ _ _ Hf) as [_ Hpv].
  assert (Hi : In (i, p_value r)
                  (p_values_of (score sc) features perm n_permutations)).
  { rewrite <- Hpv. apply in_map_iff. exists (i, r). tauto. }
  unfold p_values_of in Hi. apply in_map_iff in Hi.
  destruct Hi as [[j s] [Heq Hj]]. cbn [fst snd] in Heq.
  injection Heq as _ Hval.
  assert (Hn : (1 <= shape0 features)%nat).
  { rewrite <- Hlen. destruct (score sc); simpl in *; [tauto | lia]. }
  rewrite Hlen in Hval.
  set (null := concat (map snd perm)) in *.
  assert (Hnull : length null = (shape0 features * Z.to_nat n_permutations)%nat).
  { unfold null.
    rewrite (flat_length_Permutation
               (permutation_scores_rows _ _ _ _ _ Hnd Hw Hperm)).
    now rewrite scored_against_flat_length, shuffled_targets_length. }
  rewrite <- Hval. split.
  - destruct (global_p_value_spec null s HP Hn) as [_ [_ [Hnz Hge]]].
    apply Qlt_le_trans with (y := 1 / inject_Z (n_permutations
                                               * Z.of_nat (shape0 features)));
      [|exact Hge].
    assert (Hpos : (0 < n_permutations * Z.of_nat (shape0 features))%Z)
      by nia.
    destruct (n_permutations * Z.of_nat (shape0 features))%Z; try lia.
    reflexivity.
  - now apply global_p_value_le_1.
Qed.

(** ** The bootstrap selection *)

Lemma set_column_labels (tbl : list (label * list Q)) (col : list Q) :
  incl (map fst (set_column tbl col)) (map fst tbl).
Proof.
  unfold set_column. rewrite map_map. cbn [fst].
  intros i Hi. apply in_map_iff in Hi. destruct Hi as [[r v] [<- Hin]].
  apply in_combine_l in Hin. cbn [fst]. now apply in_map.
Qed.

Lemma bootstrap_loop_labels (n : nat) (g : rng) (target : Series)
    (features : DataFrame) (sel : list label)
    (tbl : list (label * list Q)) :
  incl (map fst (fst (bootstrap_loop n g target features sel tbl)))
       (map fst tbl).
Proof.
  revert g tbl. induction n as [|n IH]; intros g tbl; simpl.
  - apply incl_refl.
  - destruct (bootstrap_round g target features sel) as [col g1].
    eapply incl_tran; [apply IH | apply set_column_labels].
Qed.

(** X5. Whenever the bootstrap stage returns a margin column, the column
    has one entry per row of the score table, in the same order, and a
    feature has a margin value only if it is in the bootstrap selection;
    the others are left undefined. *)
Theorem margins_only_for_selection (g g' : rng) (target : Series)
    (features : DataFrame) (scores : list (label * Q))
    (n_features : py_value) (n_samplings : Z) (confidence : Q)
    (margins : list (label * option Q)) :
  bootstrap_stage g target features scores n_features n_samplings confidence
  = Ok (Some margins, g') ->
  exists sel,
    indices_to_bootstrap n_features scores = Ok sel
    /\ map fst margins = map fst scores
    /\ forall i v, In (i, Some v) margins -> In i sel.
Proof.
  intros Hb. pose proof (bootstrap_stage_labels _ _ _ _ _ _ _ Hb) as Hl.
  unfold bootstrap_stage in Hb.
  destruct (negb (is_number n_features)); [discriminate|].
  destruct (n_samplings <? 2)%Z; [discriminate|].
  destruct (n_resampled (shape1 features) <? 3)%Z; [discriminate|].
  destruct (indices_to_bootstrap n_features scores) as [sel|];
    [|discriminate].
  cbn [bind] in Hb.
  pose proof (bootstrap_loop_labels (Z.to_nat n_samplings) g target features
                sel (map (fun i => (i, [])) sel)) as Hlab.
  destruct (bootstrap_loop _ _ _ _ _ _) as [tbl g1]. cbn [fst] in Hlab.
  injection Hb as Hm _.
  exists sel. split; [reflexivity|]. split; [exact Hl|].
  intros i v Hin. rewrite <- Hm in Hin. apply in_map_iff in Hin.
  destruct Hin as [[j s] [Heq _]]. cbn [fst] in Heq.
  injection Heq as -> Hlk.
  apply lookup_Some_In in Hlk. apply (in_map fst) in Hlk.
  rewrite map_map in Hlk. cbn [fst] in Hlk. apply Hlab in Hlk.
  rewrite map_map in Hlk. cbn [fst] in Hlk. now rewrite map_id in Hlk.
Qed.

Lemma NoDup_app_outer {A : Type} (a b c : list A) :
  NoDup (a ++ b ++ c) -> NoDup (a ++ c).
Proof.
  intros H. apply NoDup_app_remove_l with (l := b).
  eapply Permutation_NoDup; [|exact H].
  rewrite !app_assoc. apply Permutation_app_tail, Permutation_app_comm.
Qed.

(** The selection under the count policy. *)
Lemma count_selection_spec (z : Z) (scores : list (label * Q)) :
  (1 <= z)%Z ->
  let idx := map fst scores in
  let n := length scores in
  let N := Z.to_nat z in
  exists sel,
    indices_to_bootstrap (PyInt z) scores = Ok sel
    /\ sel = (if (n <=? 2 * N)%nat then idx
              else firstn N idx ++ skipn (n - N) idx)
    /\ length sel = Nat.min n (2 * N)
    /\ (NoDup idx -> NoDup sel)
    /\ (forall i, In i sel
                  <-> In i (firstn N idx) \/ In i (skipn (n - N) idx)).
Proof.
  no_vars.
  intros Hz idx n N.
  assert (Hlen : length idx = n) by (unfold idx, n; apply length_map).
  assert (E1 : Qle_bool 1 (num (PyInt z)) = true).
  { apply Qle_bool_iff. cbn [num]. unfold Qle, inject_Z. cbn [Qnum Qden].
    lia. }
  unfold indices_to_bootstrap. rewrite E1. cbn [negb].
  assert (E2 : Qle_bool (inject_Z (Z.of_nat (length scores)))
                        (2 * num (PyInt z))
               = (n <=? 2 * N)%nat).
  { fold n. cbn [num].
    destruct (Nat.leb_spec n (2 * N)) as [H | H].
    - apply Qle_bool_iff. unfold Qle, Qmult, inject_Z. cbn [Qnum Qden].
      unfold N in H. lia.
    - destruct (Qle_bool (inject_Z (Z.of_nat n)) (2 * inject_Z z)) eqn:E;
        [|reflexivity].
      apply Qle_bool_iff in E. unfold Qle, Qmult, inject_Z in E.
      cbn [Qnum Qden] in E. unfold N in H. lia. }
  rewrite E2. fold idx n N.
  destruct (Nat.leb_spec n (2 * N)) as [H | H].
  - exists idx. repeat split.
    + lia.
    + trivial.
    + intros Hi. rewrite <- (firstn_skipn N idx) in Hi.
      apply in_app_or in Hi. destruct Hi as [Hi | Hi]; [now left|].
      right. replace N with ((N - (n - N)) + (n - N))%nat in Hi by lia.
      rewrite <- skipn_skipn in Hi.
      rewrite <- (firstn_skipn (N - (n - N)) (skipn (n - N) idx)).
      apply in_or_app. now right.
    + intros [Hi | Hi].
      * rewrite <- (firstn_skipn N idx). apply in_or_app. now left.
      * rewrite <- (firstn_skipn (n - N) idx). apply in_or_app. now right.
  - exists (firstn N idx ++ skipn (n - N) idx). repeat split.
    + rewrite length_app, length_firstn, length_skipn. lia.
    + intros Hnd.
      apply NoDup_app_outer
        with (b := firstn (n - N - N) (skipn N idx)).
      assert (Hsplit : idx = firstn N idx
                             ++ firstn (n - N - N) (skipn N idx)
                             ++ skipn (n - N) idx).
      { rewrite <- (firstn_skipn N idx) at 1. f_equal.
        rewrite <- (firstn_skipn (n - N - N) (skipn N idx)) at 1. f_equal.
        rewrite skipn_skipn. f_equal. lia. }
      now rewrite <- Hsplit.
    + intros Hi. now apply in_app_or.
    + intros Hi. now apply in_or_app.
Qed.

(** X6. With an integer [n_features = N >= 1], the bootstrap selection is
    the first [N] and the last [N] labels of the sorted score table, or
    every label when [2 * N] covers the table; it has [min(n, 2 * N)]
    labels, without repetition when the table has none. *)
Theorem count_selection (z : Z) (scores : list (label * Q)) :
  (1 <= z)%Z ->
  let idx := map fst scores in
  let n := length scores in
  let N := Z.to_nat z in
  exists sel,
    indices_to_bootstrap (PyInt z) scores = Ok sel
    /\ sel = (if (n <=? 2 * N)%nat then idx
              else firstn N idx ++ skipn (n - N) idx)
    /\ length sel = Nat.min n (2 * N)
    /\ (NoDup idx -> NoDup sel)
    /\ (forall i, In i sel
                  <-> In i (firstn N idx) \/ In i (skipn (n - N) idx)).
Proof. no_vars. apply count_selection_spec. Qed.

(** ** The panel from end to end *)

Lemma two_distinct_map {A : Type} (F : A -> Q) (ls : list A) :
  two_distinct (map F ls)
  <-> exists l1 l2, In l1 ls /\ In l2 ls /\ ~ F l1 == F l2.
Proof.
  no_vars.
  unfold two_distinct. split.
  - intros [x [y [Hx [Hy Hne]]]].
    apply in_map_iff in Hx. destruct Hx as [l1 [<- H1]].
    apply in_map_iff in Hy. destruct Hy as [l2 [<- H2]].
    exists l1, l2. tauto.
  - intros [l1 [l2 [H1 [H2 Hne]]]].
    exists (F l1), (F l2). repeat split; try assumption; now apply in_map.
Qed.

Lemma drop_degenerate_Ok (f : DataFrame) :
  columns f <> [] ->
  (exists r, In r (rows f) /\ two_distinct (snd r)) ->
  drop_degenerate f
  = Ok (mkDF (columns f)
             (filter (fun r => min_n_unique_values <=? length (set_of (snd r)))
                     (rows f))).
Proof.
  no_vars.
  intros Hc [r [Hr Ht]]. unfold drop_degenerate, empty. cbn [rows columns].
  destruct (filter _ (rows f)) as [|x xs] eqn:E.
  - exfalso.
    assert (Hin : In r (filter (fun r => min_n_unique_values
                                         <=? length (set_of (snd r)))
                               (rows f))).
    { apply filter_In. split; [assumption|]. now apply keeps_two_distinct. }
    rewrite E in Hin. exact Hin.
  - destruct (columns f); [congruence | reflexivity].
Qed.

Lemma bootstrap_stage_Ok (g : rng) (target : Series) (features : DataFrame)
    (scores : list (label * Q)) (n_features : py_value) (n_samplings : Z)
    (confidence : Q) :
  is_number n_features = false \/ documented n_features ->
  exists r,
    bootstrap_stage g target features scores n_features n_samplings confidence
    = Ok r.
Proof.
  intros Hn. unfold bootstrap_stage.
  destruct (is_number n_features) eqn:En; cbn [negb];
    [|eexists; reflexivity].
  destruct (n_samplings <? 2)%Z; [eexists; reflexivity|].
  destruct (n_resampled (shape1 features) <? 3)%Z; [eexists; reflexivity|].
  destruct Hn as [Hn | Hn]; [discriminate|].
  destruct (indices_to_bootstrap_documented n_features scores Hn)
    as [sel Hsel].
  rewrite Hsel. cbn [bind].
  destruct (bootstrap_loop _ _ _ _ _ _). eexists; reflexivity.
Qed.

(** * The stages as [associate] runs them *)

(** The score table of a successful run carries the labels of the
    features, each once. *)
Lemma associate_score_labels (g g' : rng) (target : Series)
    (features : DataFrame) (n_jobs : Z) (asc : bool) (n_features : py_value)
    (min_n_per_job n_samplings : Z) (confidence : Q) (n_permutations : Z)
    (sc : Scores) :
  NoDup (index features) -> (1 <= n_jobs)%Z ->
  associate g target features n_jobs asc n_features min_n_per_job
            n_samplings confidence n_permutations = Ok (sc, g') ->
  Permutation (map fst (score sc)) (index features)
  /\ length (score sc) = shape0 features.
Proof using parallelize_collects.
  intros Hnd Hw Ha.
  destruct (associate_inv _ _ _ _ _ _ _ _ _ _ Ha)
    as [scores0 [g1 [Hs [Hsc _]]]].
  destruct (score_stage_Permutation target features min_n_per_job Hnd Hw)
    as [scores1 [Hs1 Hp]].
  assert (scores1 = scores0) by congruence. subst scores1.
  assert (Hperm : Permutation (score sc) (_score target features)).
  { rewrite Hsc. now rewrite sort_values_Permutation. }
  split.
  - rewrite (Permutation_map fst Hperm). unfold _score, index.
    rewrite map_map. reflexivity.
  - rewrite (Permutation_length Hperm). unfold _score, shape0.
    apply length_map.
Qed.


(** The permutation stage of a successful run with [n_permutations >= 1]:
    the null table holds, in some order of the rows, the scores of every
    feature against the successive shuffles of the target, and the
    reported table is computed from it. *)
Lemma associate_permutation_stage (g g' : rng) (target : Series)
    (features : DataFrame) (n_jobs : Z) (asc : bool) (n_features : py_value)
    (min_n_per_job n_samplings : Z) (confidence : Q) (n_permutations : Z)
    (sc : Scores) :
  NoDup (index features) -> (1 <= n_jobs)%Z -> (1 <= n_permutations)%Z ->
  associate g target features n_jobs asc n_features min_n_per_job
            n_samplings confidence n_permutations = Ok (sc, g') ->
  exists g1 perm pf,
    bootstrap_stage g target features (score sc) n_features n_samplings
                    confidence = Ok (moe sc, g1)
    /\ Permutation perm
         (scored_against features
            (shuffled_targets (Z.to_nat n_permutations) g1
                              (s_values target)))
    /\ length (concat (map snd perm))
       = (shape0 features * Z.to_nat n_permutations)%nat
    /\ length (score sc) = shape0 features
    /\ p_values_and_fdrs_of (score sc) features perm n_permutations = Ok pf
    /\ p_values_and_fdrs sc = Some pf.
Proof using parallelize_collects.
  intros Hnd Hw HP Ha.
  destruct (@associate_score_labels g g' target features n_jobs asc
              n_features min_n_per_job n_samplings confidence n_permutations
              sc Hnd Hw Ha)
    as [_ Hlen].
  destruct (associate_inv _ _ _ _ _ _ _ _ _ _ Ha)
    as [scores0 [g1 [_ [_ [Hb Hp]]]]].
  destruct Hp as [[Hlt _] | [_ [perm [pf [Hperm [Hf Hsome]]]]]]; [lia|].
  exists g1, perm, pf.
  pose proof (permutation_scores_rows _ _ _ _ _ Hnd Hw Hperm) as Hrows.
  repeat split; try assumption.
  rewrite (flat_length_Permutation Hrows).
  now rewrite scored_against_flat_length, shuffled_targets_length.
Qed.

Lemma map_pointwise {A B C : Type} (f : A -> C) (h : A -> B) (k : B -> C)
    (l : list A) :
  map f l = map k (map h l) -> forall x, In x l -> f x = k (h x).
Proof.
  rewrite map_map. intros H x Hx.
  exact (proj1 (@map_ext_in_iff _ _ f (fun a => k (h a)) l) H x Hx).
Qed.

(** C2. When [associate] returns after a permutation stage of
    [P = n_permutations >= 1] rounds over [n] features with unique labels:
    the null table has one row per feature, holding the scores of that
    feature against each of the [P] shuffled targets, so [n * P] null
    scores in all; the table of p-values has the rows of the score table;
    and the p-value reported for a feature of score [s] is the number of
    null scores above [s] divided by [n * P], unless that number is zero,
    in which case it is [1 / (n * P)]. So no reported p-value is 0 and
    none is below [1 / (n * P)]. *)
Theorem p_value_floor (g g' : rng) (target : Series)
    (features : DataFrame) (n_jobs : Z) (asc : bool) (n_features : py_value)
    (min_n_per_job n_samplings : Z) (confidence : Q) (n_permutations : Z)
    (sc : Scores) :
  NoDup (index features) -> (1 <= n_jobs)%Z -> (1 <= n_permutations)%Z ->
  associate g target features n_jobs asc n_features min_n_per_job
            n_samplings confidence n_permutations = Ok (sc, g') ->
  let n := shape0 features in
  let N := inject_Z (n_permutations * Z.of_nat n) in
  exists g1 null_scores pf,
    bootstrap_stage g target features (score sc) n_features n_samplings
                    confidence = Ok (moe sc, g1)
    /\ Permutation null_scores
         (scored_against features
            (shuffled_targets (Z.to_nat n_permutations) g1
                              (s_values target)))
    /\ length (concat (map snd null_scores))
       = (n * Z.to_nat n_permutations)%nat
    /\ p_values_and_fdrs sc = Some pf
    /\ map fst pf = map fst (score sc)
    /\ forall i r,
         In (i, r) pf ->
         exists s,
           In (i, s) (score sc)
           /\ let above :=
                Z.of_nat (length (filter (fun x => negb (Qle_bool x s))
                                         (concat (map snd null_scores)))) in
              (above = 0%Z -> p_value r == 1 / N)
              /\ (above <> 0%Z -> p_value r == inject_Z above / N)
              /\ ~ p_value r == 0
              /\ 1 / N <= p_value r.
Proof using parallelize_collects.
  intros Hnd Hw HP Ha n N.
  destruct (@associate_permutation_stage g g' target features n_jobs asc
              n_features min_n_per_job n_samplings confidence n_permutations
              sc Hnd Hw HP Ha)
    as [g1 [perm [pf [Hb [Hrows [Hnull [Hlen [Hf Hsome]]]]]]]].
  exists g1, perm, pf.
  destruct (p_values_and_fdrs_labels _ _ _ _ Hf) as [Hlab Hpv].
  repeat (split; [assumption|]).
  intros i r Hin.
  assert (Hi : In (i, p_value r)
                  (p_values_of (score sc) features perm n_permutations)).
  { rewrite <- Hpv. apply in_map_iff. exists (i, r). tauto. }
  unfold p_values_of in Hi. apply in_map_iff in Hi.
  destruct Hi as [[j s] [Heq Hj]]. cbn [fst snd] in Heq.
  injection Heq as -> Hval.
  exists s. split; [exact Hj|].
  assert (Hn : (1 <= shape0 features)%nat).
  { rewrite <- Hlen. destruct (score sc); simpl in *; [tauto | lia]. }
  rewrite Hlen in Hval. rewrite <- Hval.
  apply (global_p_value_spec (concat (map snd perm)) s HP Hn).
Qed.

Lemma fold_Qmin_le_1 (l : list Q) : fold_right Qmin 1 l <= 1.
Proof.
  induction l as [|x l IH]; simpl; [apply Qle_refl|].
  eapply Qle_trans; [apply Q.le_min_r | exact IH].
Qed.

Lemma fold_Qmin_ge (p : Q) (l : list Q) :
  p <= 1 -> (forall x, In x l -> p <= x) -> p <= fold_right Qmin 1 l.
Proof.
  intros H1. induction l as [|x l IH]; simpl; intros Hall; [exact H1|].
  apply Q.min_glb; [apply Hall; now left|].
  apply IH. intros y Hy. apply Hall. now right.
Qed.

(** A Benjamini-Hochberg value lies between the p-value and 1. *)
Lemma fdr_bh_between (pvals : list Q) (p : Q) :
  0 <= p -> p <= 1 ->
  let n := inject_Z (Z.of_nat (length pvals)) in
  let rank := fun q =>
    inject_Z (Z.of_nat (length (filter (fun p' => Qle_bool p' q) pvals))) in
  let c := fold_right Qmin 1
             (map (fun q => q * n / rank q)
                  (filter (fun q => Qle_bool p q) pvals)) in
  p <= c /\ c <= 1.
Proof.
  no_vars.
  intros H0 H1 n rank c. split; [|apply fold_Qmin_le_1].
  apply fold_Qmin_ge; [assumption|].
  intros x Hx. apply in_map_iff in Hx. destruct Hx as [q [<- Hq]].
  apply filter_In in Hq. destruct Hq as [Hin Hpq].
  apply Qle_bool_iff in Hpq.
  set (k := length (filter (fun p' => Qle_bool p' q) pvals)).
  assert (Hk1 : (1 <= k)%nat).
  { assert (Hq : In q (filter (fun p' => Qle_bool p' q) pvals)).
    { apply filter_In. split; [assumption|].
      apply Qle_bool_iff, Qle_refl. }
    unfold k. revert Hq.
    destruct (filter (fun p' => Qle_bool p' q) pvals); intros Hq;
      [exfalso; exact Hq | simpl; lia]. }
  assert (Hkn : (k <= length pvals)%nat) by apply filter_length_le.
  unfold rank, n. fold k.
  assert (Hq0 : 0 <= q) by (eapply Qle_trans; eassumption).
  apply Qle_trans with (y := q); [assumption|].
  apply Qle_shift_div_l.
  - unfold Qlt, inject_Z. cbn [Qnum Qden]. lia.
  - rewrite (Qmult_comm q (inject_Z (Z.of_nat k))).
    rewrite (Qmult_comm q (inject_Z (Z.of_nat (length pvals)))).
    apply Qmult_le_compat_r; [|assumption].
    unfold Qle, inject_Z. cbn [Qnum Qden]. lia.
Qed.

(** The p-values computed from a null table of [n * P] scores lie in
    (0, 1]. *)
Lemma p_value_bounds (features : DataFrame) (n_permutations : Z)
    (sc : Scores) (perm : list (label * list Q))
    (pf : list (label * PValFdr)) :
  (1 <= n_permutations)%Z ->
  length (concat (map snd perm))
  = (shape0 features * Z.to_nat n_permutations)%nat ->
  length (score sc) = shape0 features ->
  p_values_and_fdrs_of (score sc) features perm n_permutations = Ok pf ->
  forall i r, In (i, r) pf -> 0 < p_value r /\ p_value r <= 1.
Proof.
  no_vars.
  intros HP Hnull Hlen Hf i r Hin.
  destruct (p_values_and_fdrs_labels _ _ _ _ Hf) as [_ Hpv].
  assert (Hi : In (i, p_value r)
                  (p_values_of (score sc) features perm n_permutations)).
  { rewrite <- Hpv. apply in_map_iff. exists (i, r). tauto. }
  unfold p_values_of in Hi. apply in_map_iff in Hi.
  destruct Hi as [[j s] [Heq Hj]]. cbn [fst snd] in Heq.
  injection Heq as _ Hval.
  assert (Hn : (1 <= shape0 features)%nat).
  { rewrite <- Hlen. destruct (score sc); simpl in *; [tauto | lia]. }
  rewrite Hlen in Hval. rewrite <- Hval. split.
  - destruct (global_p_value_spec (concat (map snd perm)) s HP Hn)
      as [_ [_ [Hnz Hge]]].
    apply Qlt_le_trans with (y := 1 / inject_Z (n_permutations
                                               * Z.of_nat (shape0 features)));
      [|exact Hge].
    assert (Hpos : (0 < n_permutations * Z.of_nat (shape0 features))%Z)
      by nia.
    destruct (n_permutations * Z.of_nat (shape0 features))%Z; try lia.
    reflexivity.
  - now apply global_p_value_le_1.
Qed.

(** C4. When [associate] returns after a permutation stage
    ([n_permutations >= 1], unique feature labels), the table it reports
    has, for the features of the score table: as forward column the
    correction [multipletests(..., method='fdr_bh')] of the column of
    p-values; as reverse column that correction of [1 - p-value]; and as
    combined value of every feature the smaller of its forward and reverse
    values, hence at most the larger of the two. With the correction
    computed as Benjamini and Hochberg define it, every forward value lies
    between the p-value and 1, and every reverse value between
    [1 - p-value] and 1. [multipletests] belongs to statsmodels; it is
    assumed to return one value per p-value. *)
Theorem fdr_columns (g g' : rng) (target : Series)
    (features : DataFrame) (n_jobs : Z) (asc : bool) (n_features : py_value)
    (min_n_per_job n_samplings : Z) (confidence : Q) (n_permutations : Z)
    (sc : Scores) :
  NoDup (index features) -> (1 <= n_jobs)%Z -> (1 <= n_permutations)%Z ->
  associate g target features n_jobs asc n_features min_n_per_job
            n_samplings confidence n_permutations = Ok (sc, g') ->
  exists pf,
    p_values_and_fdrs sc = Some pf
    /\ map fst pf = map fst (score sc)
    /\ map (fun x => fdr_forward (snd x)) pf
       = multipletests_fdr_bh (map (fun x => p_value (snd x)) pf)
    /\ map (fun x => fdr_reverse (snd x)) pf
       = multipletests_fdr_bh (map (fun x => 1 - p_value (snd x)) pf)
    /\ (forall i r, In (i, r) pf ->
          fdr r = Qmin (fdr_forward r) (fdr_reverse r)
          /\ fdr r <= fdr_forward r /\ fdr r <= fdr_reverse r
          /\ fdr r <= Qmax (fdr_forward r) (fdr_reverse r))
    /\ ((forall pvals, multipletests_fdr_bh pvals = fdr_bh pvals) ->
        forall i r, In (i, r) pf ->
          p_value r <= fdr_forward r /\ fdr_forward r <= 1
          /\ 1 - p_value r <= fdr_reverse r /\ fdr_reverse r <= 1).
Proof using parallelize_collects multipletests_length.
  intros Hnd Hw HP Ha.
  destruct (@associate_permutation_stage g g' target features n_jobs asc
              n_features min_n_per_job n_samplings confidence n_permutations
              sc Hnd Hw HP Ha)
    as [g1 [perm [pf [_ [_ [Hnull [Hlen [Hf Hsome]]]]]]]].
  destruct (fdr_table_spec (score sc) features perm n_permutations)
    as [pf' [Hf' [Hlab [Hpv [Hfw [Hrv Hmin]]]]]].
  assert (pf' = pf) by congruence. subst pf'.
  assert (Hfw' : map (fun x => fdr_forward (snd x)) pf
                 = multipletests_fdr_bh (map (fun x => p_value (snd x)) pf))
    by (now rewrite Hpv).
  assert (Hrv' : map (fun x => fdr_reverse (snd x)) pf
                 = multipletests_fdr_bh
                     (map (fun x => 1 - p_value (snd x)) pf)).
  { rewrite Hrv, <- Hpv, map_map. reflexivity. }
  exists pf. split; [exact Hsome|]. split; [exact Hlab|].
  split; [exact Hfw'|]. split; [exact Hrv'|]. split.
  - intros i r Hin. destruct (Hmin i r Hin) as [Hm1 Hm2].
    split; [exact Hm1|]. rewrite Hm1.
    split; [apply Q.le_min_l|]. split; [apply Q.le_min_r|].
    eapply Qle_trans; [apply Q.le_min_l | apply Q.le_max_l].
  - intros Hbh i r Hin.
    destruct (@p_value_bounds features n_permutations sc perm pf
                HP Hnull Hlen Hf i r Hin)
      as [Hp0 Hp1].
    rewrite Hbh in Hfw', Hrv'. unfold fdr_bh in Hfw', Hrv'.
    pose proof (map_pointwise _ _ _ _ Hfw' (i, r) Hin) as Efw.
    pose proof (map_pointwise _ _ _ _ Hrv' (i, r) Hin) as Erv.
    cbn [snd] in Efw, Erv. rewrite Efw, Erv.
    assert (H1p0 : 0 <= 1 - p_value r) by lra.
    assert (H1p1 : 1 - p_value r <= 1) by lra.
    destruct (fdr_bh_between (map (fun x => p_value (snd x)) pf)
                (Qlt_le_weak _ _ Hp0) Hp1) as [A1 A2].
    destruct (fdr_bh_between (map (fun x => 1 - p_value (snd x)) pf)
                H1p0 H1p1) as [B1 B2].
    repeat split; assumption.
Qed.

(** ** The bootstrap stage within [associate] *)



(** The margins of a successful run whose bootstrap stage is not skipped,
    on aligned data. *)
Lemma associate_bootstrap_stage (g g' : rng) (target : Series)
    (features : DataFrame) (n_jobs : Z) (asc : bool) (n_features : py_value)
    (min_n_per_job n_samplings : Z) (confidence : Q) (n_permutations : Z)
    (sc : Scores) :
  NoDup (columns features) ->
  columns features = s_index target ->
  (forall r, In r (rows features)
             -> length (snd r) = length (columns features)) ->
  NoDup (index features) -> (1 <= n_jobs)%Z ->
  is_number n_features = true -> (2 <= n_samplings)%Z ->
  (3 <= n_resampled (shape1 features))%Z ->
  associate g target features n_jobs asc n_features min_n_per_job
            n_samplings confidence n_permutations = Ok (sc, g') ->
  let draws := drawn_samples (Z.to_nat n_samplings) g (columns features)
                             (Z.to_nat (n_resampled (shape1 features))) in
  exists sel margins,
    indices_to_bootstrap n_features (score sc) = Ok sel
    /\ moe sc = Some margins
    /\ map fst margins = map fst (score sc)
    /\ forall i, In i sel ->
         exists s row,
           In (i, s) (score sc) /\ In (i, row) (rows features)
           /\ forall row', In (i, row') (rows features) ->
                In (i, Some (margin_of_error confidence n_samplings
                               (bootstrap_sample target features row' draws)))
                   margins.
Proof using choice_in parallelize_collects.
  intros Hc Hct Hrect Hidx Hw Hnum HR Hk Ha draws.
  destruct (@associate_score_labels g g' target features n_jobs asc
              n_features min_n_per_job n_samplings confidence n_permutations
              sc Hidx Hw Ha) as [Hlab _].
  destruct (associate_inv _ _ _ _ _ _ _ _ _ _ Ha)
    as [scores0 [g1 [_ [_ [Hb _]]]]].
  destruct (indices_to_bootstrap n_features (score sc)) as [sel|e] eqn:Hsel.
  2:{ exfalso. unfold bootstrap_stage in Hb. rewrite Hnum in Hb.
      cbn [negb] in Hb.
      destruct (n_samplings <? 2)%Z eqn:E1; [lia|].
      destruct (n_resampled (shape1 features) <? 3)%Z eqn:E2; [lia|].
      rewrite Hsel in Hb. discriminate. }
  assert (Hsub0 : incl sel (map fst (score sc)))
    by (eapply indices_to_bootstrap_incl; eassumption).
  assert (Hsub : incl sel (index features)).
  { intros i Hi. apply (Permutation_in _ Hlab). now apply Hsub0. }
  destruct (@bootstrap_stage_runs target features Hc Hct Hrect Hidx g
              (score sc) n_features n_samplings confidence sel
              Hnum HR Hk Hsel Hsub)
    as [margins [g2 [H1 [H2 [H3 _]]]]].
  rewrite H1 in Hb. injection Hb as Hm _.
  exists sel, margins. split; [reflexivity|]. split; [now symmetry|].
  split; [exact H2|].
  intros i Hi.
  pose proof (Hsub0 i Hi) as Hs. apply in_map_iff in Hs.
  destruct Hs as [[j s] [Hj Hs]]. simpl in Hj. subst j.
  pose proof (Hsub i Hi) as Hr. unfold index in Hr.
  apply in_map_iff in Hr. destruct Hr as [[j row] [Hj Hr]].
  simpl in Hj. subst j.
  exists s, row. split; [exact Hs|]. split; [exact Hr|].
  intros row' Hr'. exact (H3 i s row' Hs Hi Hr').
Qed.


(** ** Draws by position *)

Lemma nth_positions {A : Type} (population : list A) (d : A) :
  map (fun j => nth j population d) (seq 0 (length population)) = population.
Proof.
  induction population as [|x l IH]; simpl; [reflexivity|].
  f_equal. rewrite <- seq_shift, map_map. exact IH.
Qed.

Lemma flat_map_map {A B C : Type} (h : A -> B) (f : B -> list C)
    (l : list A) :
  flat_map f (map h l) = flat_map (fun x => f (h x)) l.
Proof. induction l as [|x l IH]; simpl; [reflexivity | now rewrite IH]. Qed.

Lemma map_flat_map {A B C : Type} (F : B -> C) (f : A -> list B)
    (l : list A) :
  map F (flat_map f l) = flat_map (fun x => map F (f x)) l.
Proof.
  induction l as [|x l IH]; simpl; [reflexivity|].
  now rewrite map_app, IH.
Qed.

(** Reading the labels at every vector of positions gives every vector of
    labels, in the same order. *)
Lemma keys_of_positions (population : list label) (k : nat) :
  map (map (fun j => nth j population (LInt 0)))
      (positions (length population) k)
  = key_vectors population k.
Proof.
  induction k as [|k IH]; simpl; [reflexivity|].
  rewrite map_flat_map.
  transitivity
    (flat_map (fun l => map (cons l) (key_vectors population k))
              (map (fun j => nth j population (LInt 0))
                   (seq 0 (length population))));
    [|now rewrite nth_positions].
  rewrite flat_map_map. apply flat_map_ext. intros j.
  rewrite <- IH, !map_map. reflexivity.
Qed.

Lemma NoDup_map_cons {A : Type} (a : A) (V : list (list A)) :
  NoDup V -> NoDup (map (cons a) V).
Proof.
  induction 1 as [|v V Hv _ IH]; simpl; constructor; [|exact IH].
  intros Hin. apply in_map_iff in Hin. destruct Hin as [w [Heq Hw]].
  injection Heq as ->. contradiction.
Qed.

Lemma NoDup_flat_map_cons {A : Type} (V : list (list A)) (ls : list A) :
  NoDup ls -> NoDup V -> NoDup (flat_map (fun l => map (cons l) V) ls).
Proof.
  intros Hls HV. induction Hls as [|a ls Ha _ IH]; simpl; [constructor|].
  apply NoDup_app; [now apply NoDup_map_cons | exact IH |].
  intros x Hx Hx'. apply in_map_iff in Hx. destruct Hx as [v [<- _]].
  apply in_flat_map in Hx'. destruct Hx' as [l [Hl Hin]].
  apply in_map_iff in Hin. destruct Hin as [w [Heq _]].
  injection Heq as -> _. contradiction.
Qed.

(** With distinct labels, the vectors of labels are distinct outcomes. *)
Lemma key_vectors_NoDup (population : list label) (k : nat) :
  NoDup population -> NoDup (key_vectors population k).
Proof.
  intros Hp. induction k as [|k IH]; simpl.
  - repeat constructor. intros [].
  - now apply NoDup_flat_map_cons.
Qed.

Lemma uniform_over_map {A B : Type} (F : A -> B) (support outcomes : list A) :
  uniform_over support outcomes ->
  uniform_over (map F support) (map F outcomes).
Proof.
  intros [c [Hc Hp]]. exists c. split; [exact Hc|].
  rewrite (Permutation_map F Hp), concat_map, map_repeat. reflexivity.
Qed.

Lemma drawn_samples_draws (n : nat) (g : rng) (population : list label)
    (k : nat) :
  Forall (fun d => exists s, d = fst (choice s population k))
         (drawn_samples n g population k).
Proof.
  revert g. induction n as [|n IH]; intros g; simpl; [constructor|].
  destruct (choice g population k) as [d g1] eqn:E.
  constructor; [|apply IH]. exists g. now rewrite E.
Qed.

(** C7. When [associate] returns on aligned data (unique sample and
    feature labels, the target indexed by the columns of the features,
    [n_jobs >= 1]) with a numeric [n_features], [R = n_samplings >= 2] and
    [ceil(0.632 * m) >= 3]: each of the [R] rounds draws
    [k = ceil(0.632 * m)] sample labels among the [m] columns, repetitions
    allowed, by a call of [choice]; such a call reads the labels at [k]
    positions taken from the generator, so that over random states whose
    positions are spread evenly over all vectors of [k] positions the
    drawn labels are spread evenly over all vectors of [k] labels, which
    are distinct outcomes; the target and the row of each selected feature
    are read under the drawn labels in drawn order and scored, the feature
    first; and the margin reported for a selected feature is
    [norm_ppf confidence * (std of its R scores / sqrt R)]. That numpy's
    generator spreads its integers evenly is taken as given. *)
Theorem bootstrap_margin_of_error (target : Series) (features : DataFrame)
    (n_jobs : Z) (asc : bool) (n_features : py_value)
    (min_n_per_job n_samplings : Z) (confidence : Q) (n_permutations : Z)
    (g g' : rng) (sc : Scores) :
  NoDup (columns features) ->
  columns features = s_index target ->
  (forall r, In r (rows features)
             -> length (snd r) = length (columns features)) ->
  NoDup (index features) -> (1 <= n_jobs)%Z ->
  is_number n_features = true -> (2 <= n_samplings)%Z ->
  (3 <= n_resampled (shape1 features))%Z ->
  associate g target features n_jobs asc n_features min_n_per_job
            n_samplings confidence n_permutations = Ok (sc, g') ->
  let m := shape1 features in
  let k := n_resampled m in
  let draw := fun s => fst (choice s (columns features) (Z.to_nat k)) in
  let draws := drawn_samples (Z.to_nat n_samplings) g (columns features)
                             (Z.to_nat k) in
  (632 * Z.of_nat m <= 1000 * k < 632 * Z.of_nat m + 1000)%Z
  /\ length draws = Z.to_nat n_samplings
  /\ Forall (fun d => length d = Z.to_nat k /\ incl d (columns features))
            draws
  /\ Forall (fun d => exists s, d = draw s) draws
  /\ (forall s,
        draw s = map (fun j => nth j (columns features) (LInt 0))
                     (fst (randint s m (Z.to_nat k)))
        /\ Forall (fun j => (j < m)%nat) (fst (randint s m (Z.to_nat k))))
  /\ NoDup (key_vectors (columns features) (Z.to_nat k))
  /\ (forall states,
        uniform_over (positions m (Z.to_nat k))
                     (map (fun s => fst (randint s m (Z.to_nat k))) states) ->
        uniform_over (key_vectors (columns features) (Z.to_nat k))
                     (map draw states))
  /\ exists sel margins,
       indices_to_bootstrap n_features (score sc) = Ok sel
       /\ moe sc = Some margins
       /\ map fst margins = map fst (score sc)
       /\ forall i row,
            In i sel -> In (i, row) (rows features) ->
            In (i, Some
                     (norm_ppf confidence
                      * (std (map (fun d =>
                                     function
                                       (map (value_at (columns features) row)
                                            d)
                                       (map (value_at (s_index target)
                                                      (s_values target)) d))
                                  draws)
                         / sqrt n_samplings)))
               margins.
Proof using choice_by_position choice_in choice_length parallelize_collects
  randint_range.
  intros Hc Hct Hrect Hidx Hw Hnum HR Hk Ha m k draw draws.
  split; [apply n_resampled_spec|].
  assert (Hne : columns features <> []).
  { intros Hnil. unfold shape1 in Hk. rewrite Hnil in Hk.
    vm_compute in Hk. apply Hk. reflexivity. }
  assert (Hm : (0 < m)%nat).
  { unfold m, shape1. destruct (columns features); [tauto | simpl; lia]. }
  destruct (drawn_samples_spec (Z.to_nat n_samplings) g (Z.to_nat k) Hne)
    as [Hlen Hall].
  split; [exact Hlen|]. split; [exact Hall|].
  split; [apply drawn_samples_draws|].
  assert (Hdraw : forall s,
            draw s = map (fun j => nth j (columns features) (LInt 0))
                         (fst (randint s m (Z.to_nat k)))).
  { intros s. unfold draw.
    now rewrite (choice_by_position s (Z.to_nat k) Hne). }
  split.
  { intros s. split; [apply Hdraw|].
    apply (randint_range s (Z.to_nat k) Hm). }
  split; [now apply key_vectors_NoDup|].
  split.
  { intros states Hu.
    rewrite (map_ext _ _ Hdraw), <- map_map.
    unfold m, shape1. rewrite <- keys_of_positions.
    now apply uniform_over_map. }
  destruct (@associate_bootstrap_stage g g' target features n_jobs asc
              n_features min_n_per_job n_samplings confidence
              n_permutations sc Hc Hct Hrect Hidx Hw Hnum HR Hk Ha)
    as [sel [margins [H1 [H2 [H3 H4]]]]].
  exists sel, margins. repeat (split; [assumption|]).
  intros i row Hi Hr. destruct (H4 i Hi) as [s [row0 [_ [_ Hmrg]]]].
  exact (Hmrg row Hr).
Qed.

(** On well-formed input the computation of [make_association_panel]
    returns, and scores exactly the features that take two different
    values on shared samples. *)
Lemma make_association_panel_Ok (g : rng) (target : Series)
    (features : DataFrame) (n_jobs : Z) (asc : bool) (n_features : py_value)
    (n_samplings n_permutations : Z) :
  NoDup (s_index target) -> NoDup (columns features) ->
  (forall r, In r (rows features)
             -> length (snd r) = length (columns features)) ->
  NoDup (index features) ->
  existsb truthy (shared_labels target features) = true ->
  (exists r l1 l2,
      In r (rows features)
      /\ In l1 (shared_labels target features)
      /\ In l2 (shared_labels target features)
      /\ ~ value_at (columns features) (snd r) l1
           == value_at (columns features) (snd r) l2) ->
  (1 <= n_jobs)%Z ->
  is_number n_features = false \/ documented n_features ->
  exists sc g',
    make_association_panel g target features n_jobs asc n_features
                           n_samplings n_permutations
    = Ok (sc, g')
    /\ forall i,
         In i (map fst (score sc))
         <-> exists r l1 l2,
               In r (rows features) /\ fst r = i
               /\ In l1 (shared_labels target features)
               /\ In l2 (shared_labels target features)
               /\ ~ value_at (columns features) (snd r) l1
                    == value_at (columns features) (snd r) l2.
Proof using parallelize_collects multipletests_length.
  intros Hnt Hnc Hrect Hni Hany Hex Hw Hnf.
  destruct (align_sorts_and_reorders target features Hnt Hnc Hrect Hany)
    as [t' [f' [Hal [_ [Hlab [_ [_ Hrows]]]]]]].
  assert (Hshared : forall l, In l (s_index t')
                              <-> In l (shared_labels target features)).
  { intros l. rewrite Hlab. symmetry. apply shared_labels_spec. }
  assert (Hrow : forall r : label * list Q,
            two_distinct (map (value_at (columns features) (snd r))
                              (s_index t'))
            <-> exists l1 l2,
                  In l1 (shared_labels target features)
                  /\ In l2 (shared_labels target features)
                  /\ ~ value_at (columns features) (snd r) l1
                       == value_at (columns features) (snd r) l2).
  { intros r. rewrite two_distinct_map.
    split; intros [l1 [l2 [H1 [H2 H3]]]]; exists l1, l2;
      (split; [now apply Hshared | split; [now apply Hshared | exact H3]]). }
  set (keep := fun r : label * list Q =>
                 min_n_unique_values <=? length (set_of (snd r))).
  assert (Hd : drop_degenerate f'
               = Ok (mkDF (columns f') (filter keep (rows f')))).
  { apply drop_degenerate_Ok.
    - exact (align_keeps_a_column _ _ Hal).
    - destruct Hex as [r [l1 [l2 [Hr Hl]]]].
      exists (fst r, map (value_at (columns features) (snd r)) (s_index t')).
      split.
      + rewrite Hrows. apply in_map_iff. exists r. tauto.
      + cbn [snd]. apply Hrow. exists l1, l2. exact Hl. }
  set (kept := mkDF (columns f') (filter keep (rows f'))).
  assert (Hnk : NoDup (index kept)).
  { unfold kept, index. cbn [rows]. apply NoDup_index_filter.
    fold (index f'). now rewrite (index_align _ _ Hal). }
  destruct (score_stage_Permutation t' kept 100 Hnk Hw)
    as [scores0 [Hs Hp]].
  set (scores := sort_values asc snd scores0).
  destruct (bootstrap_stage_Ok g t' kept scores n_features n_samplings
                               (95 # 100) Hnf)
    as [[margins g1] Hb].
  assert (Hlabels : forall i,
            In i (map fst scores)
            <-> exists r l1 l2,
                  In r (rows features) /\ fst r = i
                  /\ In l1 (shared_labels target features)
                  /\ In l2 (shared_labels target features)
                  /\ ~ value_at (columns features) (snd r) l1
                       == value_at (columns features) (snd r) l2).
  { intros i.
    assert (Hi : In i (map fst scores) <-> In i (map fst (rows kept))).
    { assert (Hpp : Permutation (map fst scores) (map fst (rows kept))).
      { unfold scores. rewrite sort_values_Permutation, Hp.
        unfold _score. rewrite map_map. reflexivity. }
      split; apply Permutation_in; [exact Hpp | now symmetry]. }
    rewrite Hi. unfold kept. cbn [rows]. rewrite in_map_iff. split.
    - intros [r' [<- Hr']]. apply filter_In in Hr'.
      destruct Hr' as [Hin Hk]. rewrite Hrows in Hin.
      apply in_map_iff in Hin. destruct Hin as [r [<- Hr]].
      apply keeps_two_distinct in Hk. cbn [snd] in Hk.
      apply Hrow in Hk. destruct Hk as [l1 [l2 Hl]].
      exists r, l1, l2. cbn [fst]. tauto.
    - intros [r [l1 [l2 [Hr [<- Hl]]]]].
      exists (fst r, map (value_at (columns features) (snd r)) (s_index t')).
      split; [reflexivity|]. apply filter_In. split.
      + rewrite Hrows. apply in_map_iff. exists r. tauto.
      + apply keeps_two_distinct. cbn [snd]. apply Hrow.
        exists l1, l2. exact Hl. }
  unfold make_association_panel. rewrite Hal. cbn [bind].
  rewrite Hd. cbn [bind]. fold kept. unfold associate.
  rewrite Hs. cbn [bind]. fold scores. rewrite Hb. cbn [bind].
  destruct (n_permutations <? 1)%Z.
  - eexists. eexists. split; [reflexivity|]. exact Hlabels.
  - destruct (permutation_scores_Ok g1 t' kept 100 n_permutations Hw)
      as [[perm g2] Hpm].
    rewrite Hpm. cbn [bind].
    destruct (fdr_table_spec scores kept perm n_permutations)
      as [pf [Hpf _]].
    rewrite Hpf. cbn [bind].
    eexists. eexists. split; [reflexivity|]. exact Hlabels.
Qed.

Lemma indices_to_plot_documented (n_features : py_value)
    (scores : list (label * Q)) :
  documented n_features ->
  exists sel,
    indices_to_plot n_features scores = Some (Ok sel)
    /\ incl sel (map fst scores).
Proof.
  no_vars.
  intros Hd. unfold indices_to_plot, plot_n_features.
  assert (Hnum : is_number n_features = true)
    by (destruct n_features; [reflexivity | reflexivity | destruct Hd]).
  rewrite Hnum.
  assert (H100 : documented (PyInt 100)) by (simpl; lia).
  destruct (negb (Qle_bool (num n_features) 100)
            || negb (Qle_bool 1 (num n_features))
               && negb (Qle_bool (num n_features
                                  * inject_Z (Z.of_nat (length scores)))
                                 100)).
  - destruct (indices_to_bootstrap_documented (PyInt 100) scores H100)
      as [sel Hsel].
    exists sel. rewrite Hsel. split; [reflexivity|].
    eapply indices_to_bootstrap_incl; eassumption.
  - destruct (indices_to_bootstrap_documented n_features scores Hd)
      as [sel Hsel].
    exists sel. rewrite Hsel. split; [reflexivity|].
    eapply indices_to_bootstrap_incl; eassumption.
Qed.

(** X8. On a target and features with unique sample and feature labels and
    rows as long as the column list, which share a sample label that is
    true in Python's sense, and of which some feature takes two different
    values on shared samples, with [n_jobs >= 1]: for a documented
    [n_features], [make_association_panel] reaches the drawing of the
    panel with a table that scores exactly the features taking two
    different values on shared samples, and hands the plot features of
    that table; when [n_features] is not a number the scores are computed
    all the same, and the comparison [n_features > 100] then raises a
    TypeError. *)
Theorem panel_succeeds_on_aligned_input (g : rng) (target : Series)
    (features : DataFrame) (n_jobs : Z) (asc : bool) (n_features : py_value)
    (n_samplings n_permutations : Z) :
  NoDup (s_index target) -> NoDup (columns features) ->
  (forall r, In r (rows features)
             -> length (snd r) = length (columns features)) ->
  NoDup (index features) ->
  existsb truthy (shared_labels target features) = true ->
  (exists r l1 l2,
      In r (rows features)
      /\ In l1 (shared_labels target features)
      /\ In l2 (shared_labels target features)
      /\ ~ value_at (columns features) (snd r) l1
           == value_at (columns features) (snd r) l2) ->
  (1 <= n_jobs)%Z ->
  (documented n_features ->
   exists sc sel g',
     make_association_panel_plot g target features n_jobs asc n_features
                                 n_samplings n_permutations
     = Some (Ok (sc, sel, g'))
     /\ incl sel (map fst (score sc))
     /\ forall i,
          In i (map fst (score sc))
          <-> exists r l1 l2,
                In r (rows features) /\ fst r = i
                /\ In l1 (shared_labels target features)
                /\ In l2 (shared_labels target features)
                /\ ~ value_at (columns features) (snd r) l1
                     == value_at (columns features) (snd r) l2)
  /\ (is_number n_features = false ->
      (exists sc g',
         make_association_panel g target features n_jobs asc n_features
                                n_samplings n_permutations = Ok (sc, g'))
      /\ make_association_panel_plot g target features n_jobs asc n_features
                                     n_samplings n_permutations = None).
Proof using parallelize_collects multipletests_length.
  intros Hnt Hnc Hrect Hni Hany Hex Hw. split.
  - intros Hd.
    destruct (@make_association_panel_Ok g target features n_jobs asc
                n_features n_samplings n_permutations
                Hnt Hnc Hrect Hni Hany Hex Hw (or_intror Hd))
      as [sc [g' [Hp Hlab]]].
    destruct (indices_to_plot_documented n_features (score sc) Hd)
      as [sel [Hsel Hincl]].
    exists sc, sel, g'. unfold make_association_panel_plot.
    rewrite Hp, Hsel. split; [reflexivity|]. split; assumption.
  - intros Hn.
    destruct (@make_association_panel_Ok g target features n_jobs asc
                n_features n_samplings n_permutations
                Hnt Hnc Hrect Hni Hany Hex Hw (or_introl Hn))
      as [sc [g' [Hp _]]].
    split; [exists sc, g'; exact Hp|].
    unfold make_association_panel_plot. rewrite Hp.
    unfold indices_to_plot, plot_n_features. now rewrite Hn.
Qed.

(** * Class labels above the target *)

Lemma value_changes_sorted (prev : Q) (i lo : nat) (rest : list Q) :
  (lo <= i)%nat ->
  Sorted lt (lo :: value_changes prev i rest ++ [i + 1 + length rest])%nat.
Proof.
  no_vars.
  revert prev i lo. induction rest as [|v rest IH]; intros prev i lo Hlo.
  - simpl. repeat constructor. lia.
  - simpl. destruct (negb (Qeq_bool prev v)).
    + simpl. constructor.
      * replace (i + 1 + S (length rest))%nat
          with (S i + 1 + length rest)%nat by lia.
        replace (i + 1)%nat with (S i) by lia. apply IH. lia.
      * constructor. lia.
    + replace (i + 1 + S (length rest))%nat
        with (S i + 1 + length rest)%nat by lia.
      apply IH. lia.
Qed.

Lemma value_changes_spec (prev : Q) (i : nat) (rest : list Q) (b : nat) :
  In b (value_changes prev i rest)
  <-> exists j, (j < length rest)%nat /\ b = (i + 1 + j)%nat
                /\ ~ nth j (prev :: rest) 0 == nth j rest 0.
Proof.
  no_vars.
  revert prev i. induction rest as [|v rest IH]; intros prev i.
  - simpl. split; [tauto | intros [j [H _]]; lia].
  - cbn [value_changes].
    assert (Hneq : negb (Qeq_bool prev v) = true -> ~ prev == v).
    { rewrite negb_true_iff. intros E. now apply Qeq_bool_neq. }
    assert (Heq : negb (Qeq_bool prev v) = false -> prev == v).
    { rewrite negb_false_iff. apply Qeq_bool_iff. }
    assert (Htail : In b (value_changes v (S i) rest)
              <-> exists j, (0 < j < length (v :: rest))%nat
                            /\ b = (i + 1 + j)%nat
                            /\ ~ nth j (prev :: v :: rest) 0
                                 == nth j (v :: rest) 0).
    { rewrite IH. split.
      - intros [j [Hj [-> Hne]]]. exists (S j). simpl. repeat split; try lia.
        exact Hne.
      - intros [[|j] [Hj [-> Hne]]]; [lia|]. exists j. simpl in *.
        repeat split; try lia. exact Hne. }
    destruct (negb (Qeq_bool prev v)) eqn:E.
    + cbn [In]. rewrite Htail. split.
      * intros [<- | [j [Hj H]]].
        -- exists 0%nat. simpl. repeat split; try lia. now apply Hneq.
        -- exists j. split; [lia | exact H].
      * intros [[|j] [Hj [-> Hne]]].
        -- left. lia.
        -- right. exists (S j). repeat split; try lia. exact Hne.
    + rewrite Htail. split.
      * intros [j [Hj H]]. exists j. split; [lia | exact H].
      * intros [[|j] [Hj [-> Hne]]].
        -- exfalso. simpl in Hne. apply Hne. now apply Heq.
        -- exists (S j). repeat split; try lia. exact Hne.
Qed.

Lemma boundaries_spec (target : list Q) :
  target <> [] ->
  exists inner,
    boundaries target (length target) = Some (0%nat :: inner ++ [length target])
    /\ Sorted lt (0%nat :: inner ++ [length target])
    /\ (forall b, In b inner
                  <-> (1 <= b < length target)%nat
                      /\ ~ nth (b - 1) target 0 == nth b target 0).
Proof.
  no_vars.
  destruct target as [|v0 rest]; [tauto|]. intros _.
  exists (value_changes v0 0 rest). cbn [boundaries].
  split; [reflexivity|]. split.
  - exact (value_changes_sorted v0 rest (Nat.le_refl 0)).
  - intros b. rewrite value_changes_spec. split.
    + intros [j [Hj [-> Hne]]]. simpl length. split; [lia|].
      replace (0 + 1 + j - 1)%nat with j by lia.
      replace (0 + 1 + j)%nat with (S j) by lia. exact Hne.
    + intros [Hb Hne]. simpl length in Hb. exists (b - 1)%nat.
      repeat split; try lia.
      replace b with (S (b - 1)) in Hne at 2 by lia. exact Hne.
Qed.

(** X9. For a non-empty target with as many values as the features have
    columns, the boundaries start at 0, end at the number of columns, are
    strictly increasing, and an inner boundary stands exactly at each
    position whose value differs from the one before; an empty target
    fails ([target.iloc[0]]). *)
Theorem boundaries_of_runs (target : list Q) :
  target <> [] ->
  exists inner,
    boundaries target (length target) = Some (0%nat :: inner ++ [length target])
    /\ Sorted lt (0%nat :: inner ++ [length target])
    /\ (forall b, In b inner
                  <-> (1 <= b < length target)%nat
                      /\ ~ nth (b - 1) target 0 == nth b target 0)
    /\ boundaries [] 0 = None.
Proof.
  no_vars.
  intros Hne. destruct (boundaries_spec Hne) as [inner [H1 [H2 H3]]].
  exists inner. repeat split; try assumption; now apply H3.
Qed.

Lemma label_positions_spec (prev : nat) (bs : list nat) :
  length (label_positions prev bs) = length bs
  /\ forall j, (j < length bs)%nat ->
       nth j (label_positions prev bs) 0
       == (inject_Z (Z.of_nat (nth j (prev :: bs) 0%nat))
           + inject_Z (Z.of_nat (nth j bs 0%nat))) / 2.
Proof.
  no_vars.
  revert prev. induction bs as [|b bs IH]; intros prev.
  - split; [reflexivity | simpl; intros; lia].
  - destruct (IH b) as [IH1 IH2]. split; [simpl; now rewrite IH1|].
    intros [|j] Hj.
    + cbn [label_positions nth]. field.
    + cbn [label_positions nth]. apply IH2. simpl in Hj. lia.
Qed.

Lemma sorted_successive (l : list nat) (j : nat) :
  Sorted lt l -> (S j < length l)%nat ->
  (nth j l 0 < nth (S j) l 0)%nat.
Proof.
  no_vars.
  intros Hs. revert j. induction Hs as [|a l Hs IH Hhd]; intros j Hj.
  - simpl in Hj. lia.
  - destruct j as [|j].
    + destruct Hhd as [|b l Hab]; [simpl in Hj; lia | exact Hab].
    + simpl in Hj. simpl. apply IH. lia.
Qed.

(** X10. For a non-empty target with as many values as the features have
    columns, there is one label position per run of equal values: one more
    than the number of inner boundaries, each the midpoint of two
    successive boundaries and strictly between them. *)
Theorem label_positions_are_midpoints (target : list Q) (bs : list nat) :
  target <> [] ->
  boundaries target (length target) = Some bs ->
  S (length (label_horizontal_positions bs)) = length bs
  /\ forall j, (S j < length bs)%nat ->
       let lo := inject_Z (Z.of_nat (nth j bs 0%nat)) in
       let hi := inject_Z (Z.of_nat (nth (S j) bs 0%nat)) in
       let x := nth j (label_horizontal_positions bs) 0 in
       x == (lo + hi) / 2 /\ lo < x /\ x < hi.
Proof.
  no_vars.
  intros Hne Hb.
  destruct (boundaries_spec Hne) as [inner [Hb' [Hs _]]].
  assert (bs = 0%nat :: inner ++ [length target]) by congruence. subst bs.
  unfold label_horizontal_positions. cbn [tl].
  destruct (label_positions_spec 0 (inner ++ [length target])) as [H1 H2].
  split; [simpl; now rewrite H1|].
  intros j Hj. simpl length in Hj.
  assert (Hj' : (j < length (inner ++ [length target]))%nat) by lia.
  pose proof (H2 j Hj') as Hx.
  assert (Hlt : (nth j (0%nat :: inner ++ [length target]) 0
                 < nth (S j) (0%nat :: inner ++ [length target]) 0)%nat).
  { apply sorted_successive; [exact Hs | simpl length; lia]. }
  change (nth (S j) (0%nat :: inner ++ [length target]) 0%nat)
    with (nth j (inner ++ [length target]) 0%nat) in Hlt |- *.
  change (nth j (label_positions 0 (tl (0%nat :: inner ++ [length target])))
              0)
    with (nth j (label_positions 0 (inner ++ [length target])) 0).
  apply Nat2Z.inj_lt in Hlt. rewrite Zlt_Qlt in Hlt.
  set (lo := inject_Z (Z.of_nat (nth j (0%nat :: inner ++ [length target])
                                     0%nat))) in *.
  set (hi := inject_Z (Z.of_nat (nth j (inner ++ [length target]) 0%nat)))
    in *.
  clearbody lo hi.
  split; [exact Hx|]. rewrite Hx.
  assert (Hhalf : (lo + hi) / 2 == (lo + hi) * (1 # 2)) by field.
  rewrite Hhalf. split; lra.
Qed.

Lemma runs_distinct (v : Q) (i : nat) (rest : list Q) :
  Sorted (fun a b => b <= a) (v :: rest) ->
  length (set_of (v :: rest)) = S (length (value_changes v i rest)).
Proof.
  no_vars.
  revert v i. induction rest as [|y rest IH]; intros v i Hs.
  - reflexivity.
  - assert (Hs' : Sorted (fun a b => b <= a) (y :: rest))
      by now inversion Hs.
    assert (Hyv : y <= v).
    { inversion Hs as [|? ? _ Hhd]; subst. now inversion Hhd. }
    assert (Hall : forall z, In z rest -> z <= y).
    { apply Sorted_StronglySorted in Hs'.
      - inversion Hs' as [|? ? _ Hf]; subst.
        intros z Hz. exact (proj1 (Forall_forall _ _) Hf z Hz).
      - intros a b c Hab Hbc. now apply Qle_trans with (y := b). }
    assert (Hex : existsb (Qeq_bool v) (y :: rest) = Qeq_bool v y).
    { cbn [existsb]. destruct (Qeq_bool v y) eqn:E; [reflexivity|].
      cbn [orb]. destruct (existsb (Qeq_bool v) rest) eqn:E2; [|reflexivity].
      exfalso. apply existsb_Qeq in E2. destruct E2 as [z [Hz Hvz]].
      apply Qeq_bool_neq in E. apply E.
      apply Qle_antisym; [|assumption].
      rewrite Hvz. now apply Hall. }
    change (set_of (v :: y :: rest))
      with (if existsb (Qeq_bool v) (y :: rest) then set_of (y :: rest)
            else v :: set_of (y :: rest)).
    rewrite Hex. cbn [value_changes].
    destruct (Qeq_bool v y); cbn [negb].
    + apply (IH y (S i) Hs').
    + cbn [length]. f_equal. apply (IH y (S i) Hs').
Qed.

(** X11. For a non-empty target in descending order with as many values
    as the features have columns, the number of label positions equals the
    number of distinct values of the target, so that every position has
    its class label. *)
Theorem one_label_position_per_class (target : list Q) (bs : list nat) :
  target <> [] ->
  Sorted (fun a b => b <= a) target ->
  boundaries target (length target) = Some bs ->
  length (label_horizontal_positions bs) = length (set_of target).
Proof.
  no_vars.
  intros Hne Hs Hb. destruct target as [|v0 rest]; [tauto|].
  unfold boundaries in Hb. injection Hb as <-.
  unfold label_horizontal_positions.
  match goal with
  | |- length (label_positions 0 (tl (0%nat :: ?L))) = _ =>
      change (tl (0%nat :: L)) with L;
      rewrite (proj1 (label_positions_spec 0 L))
  end.
  rewrite length_app, (runs_distinct 0 Hs). simpl. lia.
Qed.

(** * The features handed to the plot *)



(** ** Reading a bundle *)

Lemma present_incl (labels axis : list label) :
  incl labels axis -> present labels axis = true.
Proof.
  intros Hincl. unfold present. apply forallb_forall. intros l Hl.
  apply existsb_exists. exists l. split; [now apply Hincl|].
  now apply label_eqb_eq.
Qed.

Lemma axis_is_exclusive (v : py_value) :
  axis_is v 1 = true -> axis_is v 0 = false.
Proof.
  unfold axis_is. intros H. apply andb_prop in H. destruct H as [Hn H1].
  rewrite Hn. simpl. apply Qeq_bool_iff in H1.
  destruct (Qeq_bool (num v) (inject_Z 0)) eqn:E0; [|reflexivity].
  apply Qeq_bool_iff in E0. rewrite E0 in H1. discriminate.
Qed.

Lemma read_entries_app (before after : list bundle_entry)
    (dicts : list (string * feature_dict)) :
  read_entries (before ++ after) dicts
  = match read_entries before dicts with
    | Loaded d => read_entries after d
    | Failed x => Failed x
    end.
Proof.
  revert dicts. induction before as [|e before IH]; intros dicts; simpl.
  - reflexivity.
  - destruct (entry_dataframe e); [apply IH | reflexivity].
Qed.

Lemma read_entries_loads (data_bundle : list bundle_entry)
    (dicts : list (string * feature_dict)) :
  Forall (fun e => exists df, entry_dataframe e = Loaded df) data_bundle ->
  exists d, read_entries data_bundle dicts = Loaded d.
Proof.
  intros H. revert dicts. induction H as [|e rest [df He] _ IH];
    intros dicts; simpl.
  - now exists dicts.
  - rewrite He. apply IH.
Qed.

Lemma dict_get_set {V : Type} (k k' : string) (v : V)
    (d : list (string * V)) :
  dict_get k' (dict_set k v d)
  = if String.eqb k k' then Some v else dict_get k' d.
Proof.
  induction d as [|[k0 v0] d IH]; simpl.
  - reflexivity.
  - destruct (String.eqb k0 k) eqn:E0; simpl.
    + apply String.eqb_eq in E0. subst k0.
      destruct (String.eqb k k'); reflexivity.
    + destruct (String.eqb k0 k') eqn:E1.
      * apply String.eqb_eq in E1. subst k0. now rewrite String.eqb_sym, E0.
      * apply IH.
Qed.

Lemma dict_set_keys {V : Type} (k : string) (v : V) (d : list (string * V)) :
  NoDup (map fst d) ->
  NoDup (map fst (dict_set k v d))
  /\ forall k', In k' (map fst (dict_set k v d)) <-> k' = k \/ In k' (map fst d).
Proof.
  no_vars. clear read_gct.
  induction d as [|[k0 v0] d IH]; simpl; intros Hnd.
  - split; [repeat constructor; simpl; tauto|]. intros k'. intuition.
  - inversion Hnd as [|? ? Hnotin Hnd']; subst.
    destruct (String.eqb k0 k) eqn:E0; simpl.
    + apply String.eqb_eq in E0. subst k0. split; [now constructor|].
      intros k'. intuition.
    + destruct (IH Hnd') as [IH1 IH2]. split.
      * constructor; [|assumption]. rewrite IH2. intros [Hk | Hin].
        -- subst k0. now rewrite String.eqb_refl in E0.
        -- contradiction.
      * intros k'. rewrite IH2. intuition.
Qed.

Lemma read_entries_spec (data_bundle : list bundle_entry) :
  forall dicts d,
  NoDup (map fst dicts) ->
  read_entries data_bundle dicts = Loaded d ->
  NoDup (map fst d)
  /\ forall name,
       match last_named name data_bundle with
       | Some e =>
           exists df, entry_dataframe e = Loaded df
             /\ dict_get name d
                = Some (mkFeatures (e_data_type e) (e_is_ascending e) df)
       | None => dict_get name d = dict_get name dicts
       end.
Proof.
  induction data_bundle as [|e rest IH]; intros dicts d Hnd H; simpl in *.
  - injection H as <-. split; [assumption | reflexivity].
  - destruct (entry_dataframe e) as [df|x] eqn:He; [|discriminate].
    destruct (@dict_set_keys _ (e_name e)
                (mkFeatures (e_data_type e) (e_is_ascending e) df) dicts Hnd)
      as [Hnd' _].
    destruct (IH _ _ Hnd' H) as [Hd Hget]. split; [assumption|].
    intros name. specialize (Hget name).
    destruct (last_named name rest) as [e'|]; [assumption|].
    rewrite Hget, dict_get_set.
    destruct (String.eqb (e_name e) name).
    + exists df. split; [exact He | reflexivity].
    + reflexivity.
Qed.

Lemma nth_map_in {A B : Type} (f : A -> B) (l : list A) (j : nat)
    (a : A) (b : B) :
  (j < length l)%nat -> nth j (map f l) b = f (nth j l a).
Proof.
  revert j. induction l as [|x l IH]; intros [|j] Hj; simpl in *;
    try lia; [reflexivity | apply IH; lia].
Qed.

Lemma combine_seq_map {A B : Type} (f : nat -> A -> B) (l : list A)
    (g : A -> B) (k : nat) :
  (forall j, (j < length l)%nat -> forall a, f (k + j)%nat (nth j l a) = g (nth j l a)) ->
  map (fun jc => f (fst jc) (snd jc)) (combine (seq k (length l)) l)
  = map g l.
Proof.
  revert k. induction l as [|x l IH]; intros k H; simpl.
  - reflexivity.
  - f_equal.
    + specialize (H 0%nat ltac:(simpl; lia) x). simpl in H.
      now rewrite Nat.add_0_r in H.
    + apply IH. intros j Hj a. specialize (H (S j) ltac:(simpl; lia) a).
      simpl in H. now rewrite Nat.add_succ_r in H.
Qed.

(** X13. An entry that names columns ([index_axis] 1) of an in-memory frame
    gives the transposed selection: one row per requested column, in the
    order asked, labelled by the column, holding for each row of the frame
    the value that row has under the column; the frame's row labels become
    the column labels. *)
Theorem bundle_columns_become_rows (e : bundle_entry) (df : DataFrame) :
  e_source e = Frame df ->
  index_given (e_index e) = true ->
  axis_is (e_index_axis e) 1 = true ->
  alias_given (e_index_alias e) = false ->
  NoDup (columns df) ->
  Forall (fun r => length (snd r) = length (columns df)) (rows df) ->
  incl (labels_of (e_index e)) (columns df) ->
  entry_dataframe e
  = Loaded
      (mkDF (index df)
            (map (fun c =>
                    (c, map (fun r => value_at (columns df) (snd r) c)
                            (rows df)))
                 (labels_of (e_index e)))).
Proof.
  intros Hsrc Hgiven Haxis Halias Hnd Hrect Hincl.
  unfold entry_dataframe. rewrite Hsrc, Hgiven, (axis_is_exclusive _ Haxis),
    Haxis, (present_incl Hincl), Halias.
  f_equal. unfold transpose, ix_cols, index. simpl.
  set (labels := labels_of (e_index e)) in *.
  rewrite select_diag by assumption.
  rewrite !map_map. simpl. rewrite map_id. f_equal.
  assert (Hrows : map (row_at (columns df) labels) (rows df)
                  = map (fun r => (fst r, map (value_at (columns df) (snd r))
                                              labels)) (rows df)).
  { apply map_ext_in. intros r Hr. unfold row_at.
    rewrite Forall_forall in Hrect.
    rewrite select_values; auto.
    - now rewrite map_map, (map_ext _ (value_at (columns df) (snd r))).
    - symmetry. now apply Hrect. }
  rewrite Hrows.
  apply (@combine_seq_map _ _
           (fun j c =>
              (c, map (fun r => nth j (snd r) 0)
                      (map (fun r => (fst r,
                                      map (value_at (columns df) (snd r))
                                          labels)) (rows df))))
           labels
           (fun c => (c, map (fun r => value_at (columns df) (snd r) c)
                             (rows df))) 0%nat).
  intros j Hj a. simpl. f_equal. rewrite map_map. apply map_ext.
  intros r. simpl. now apply nth_map_in.
Qed.

(** X14. An entry that names rows ([index_axis] 0) of an in-memory frame
    with uniquely labelled rows, and gives aliases, keeps the frame's
    columns and yields the requested rows in the order asked, relabelled
    by the aliases one for one; aliases in a different number than the
    requested rows make the entry fail. *)
Theorem bundle_rows_renamed (e : bundle_entry) (df : DataFrame) :
  e_source e = Frame df ->
  index_given (e_index e) = true ->
  axis_is (e_index_axis e) 0 = true ->
  alias_given (e_index_alias e) = true ->
  NoDup (index df) ->
  incl (labels_of (e_index e)) (index df) ->
  (length (alias_labels (e_index_alias e))
     = length (labels_of (e_index e)) ->
   exists vss,
     entry_dataframe e
     = Loaded (mkDF (columns df)
                    (combine (alias_labels (e_index_alias e)) vss))
     /\ Forall2 (fun l vs => In (l, vs) (rows df))
                (labels_of (e_index e)) vss)
  /\ (length (alias_labels (e_index_alias e))
        <> length (labels_of (e_index e)) ->
      entry_dataframe e = Failed AliasLength).
Proof.
  intros Hsrc Hgiven Haxis Halias Hnd Hincl.
  unfold entry_dataframe. rewrite Hsrc, Hgiven, Haxis, (present_incl Hincl),
    Halias.
  set (labels := labels_of (e_index e)) in *.
  set (alias := alias_labels (e_index_alias e)) in *.
  assert (Hsel : map fst (select labels (rows df)) = labels)
    by (now apply select_index).
  assert (Hlen : shape0 (ix_rows df labels) = length labels).
  { unfold shape0, ix_rows. simpl. rewrite <- Hsel at 2.
    now rewrite length_map. }
  unfold set_index. rewrite Hlen. split.
  - intros Hl. rewrite Hl, Nat.eqb_refl.
    exists (map snd (select labels (rows df))). split; [reflexivity|].
    rewrite <- Hsel at 1.
    assert (Hsub : incl (select labels (rows df)) (rows df)).
    { intros r Hr. unfold select in Hr. apply in_flat_map in Hr.
      destruct Hr as [k [_ Hr]]. now apply filter_In in Hr. }
    revert Hsub. generalize (select labels (rows df)).
    intros sel. induction sel as [|[l vs] sel IH]; intros Hsub; simpl.
    + constructor.
    + constructor.
      * apply Hsub. now left.
      * apply IH. intros r Hr. apply Hsub. now right.
  - intros Hl. apply Nat.eqb_neq in Hl. now rewrite Hl.
Qed.

(** X15. When every entry of a bundle can be read, [_read_bundle] returns
    a dict with one key per name used; under each name it holds the data
    type, the direction and the frame of the last entry with that name,
    earlier entries of the same name being overwritten; a name no entry
    carries is not a key. *)
Theorem bundle_last_entry_wins (data_bundle : list bundle_entry) :
  Forall (fun e => exists df, entry_dataframe e = Loaded df) data_bundle ->
  exists d,
    _read_bundle data_bundle = Loaded d
    /\ NoDup (map fst d)
    /\ forall name,
         match last_named name data_bundle with
         | Some e =>
             exists df, entry_dataframe e = Loaded df
               /\ dict_get name d
                  = Some (mkFeatures (e_data_type e) (e_is_ascending e) df)
         | None => dict_get name d = None
         end.
Proof.
  intros Hall. unfold _read_bundle.
  destruct (read_entries_loads [] Hall) as [d Hd]. exists d.
  split; [assumption|].
  assert (Hnd : NoDup (map fst (@nil (string * feature_dict))))
    by constructor.
  destruct (@read_entries_spec data_bundle [] d Hnd Hd) as [H1 H2].
  split; assumption.
Qed.

(** X16. The index axis is checked only when an index is given. An
    in-memory frame with no index (None, an empty string or list) is
    taken whole, whatever the axis and the alias are; with an index given
    and an axis other than 0 or 1 the entry fails, and so does the whole
    bundle when the entries before it can be read: nothing of them is
    returned. *)
Theorem bundle_axis_checked_with_index (e : bundle_entry) (df : DataFrame)
    (before after : list bundle_entry) :
  e_source e = Frame df ->
  Forall (fun e' => exists df', entry_dataframe e' = Loaded df') before ->
  (index_given (e_index e) = false -> entry_dataframe e = Loaded df)
  /\ (index_given (e_index e) = true ->
      axis_is (e_index_axis e) 0 = false ->
      axis_is (e_index_axis e) 1 = false ->
      entry_dataframe e = Failed BadIndexAxis
      /\ _read_bundle (before ++ e :: after) = Failed BadIndexAxis).
Proof.
  intros Hsrc Hbefore. split.
  - intros Hgiven. unfold entry_dataframe. now rewrite Hsrc, Hgiven.
  - intros Hgiven H0 H1.
    assert (He : entry_dataframe e = Failed BadIndexAxis).
    { unfold entry_dataframe. now rewrite Hsrc, Hgiven, H0, H1. }
    split; [assumption|].
    unfold _read_bundle. rewrite read_entries_app.
    destruct (read_entries_loads [] Hbefore) as [d Hd]. rewrite Hd.
    simpl. now rewrite He.
Qed.

End Associate.

(** * The reference instances meet what is assumed of the libraries *)

Lemma pool_map_collects (A B : Type) (w : A -> B) (args : list A) :
  Permutation (pool_map w args) (map w args).
Proof. unfold pool_map. symmetry. apply Permutation_rev. Qed.

Lemma choice_cycle_length (g : nat) (population : list label) (k : nat) :
  population <> [] -> length (fst (choice_cycle g population k)) = k.
Proof.
  intros Hne. unfold choice_cycle. destruct population as [|l0 p]; [tauto|].
  cbn [fst]. now rewrite length_map, length_seq.
Qed.


Lemma shuffle_rotate_permutes (g : nat) (v : list Q) :
  Permutation (fst (shuffle_rotate g v)) v.
Proof.
  unfold shuffle_rotate. cbn [fst].
  rewrite Permutation_app_comm. now rewrite firstn_skipn.
Qed.

Lemma fdr_bh_length (pvals : list Q) : length (fdr_bh pvals) = length pvals.
Proof. unfold fdr_bh. apply length_map. Qed.

Lemma digits_length (m k g : nat) : length (digits m k g) = k.
Proof. induction k as [|k IH]; simpl; [reflexivity | now rewrite IH]. Qed.

Lemma digits_below (m k g : nat) :
  (0 < m)%nat -> Forall (fun j => (j < m)%nat) (digits m k g).
Proof.
  intros Hm. induction k as [|k IH]; simpl; constructor; [|exact IH].
  apply Nat.mod_upper_bound. lia.
Qed.

Lemma randint_digits_range (g m k : nat) :
  (0 < m)%nat ->
  length (fst (randint_digits g m k)) = k
  /\ Forall (fun j => (j < m)%nat) (fst (randint_digits g m k)).
Proof.
  intros Hm. unfold randint_digits. cbn [fst].
  split; [apply digits_length | now apply digits_below].
Qed.

Lemma choice_digits_by_position (g : nat) (population : list label)
    (k : nat) :
  population <> [] ->
  choice_digits g population k
  = (map (fun j => nth j population (LInt 0))
         (fst (randint_digits g (length population) k)),
     snd (randint_digits g (length population) k)).
Proof. destruct population; [tauto | reflexivity]. Qed.

Lemma choice_digits_length (g : nat) (population : list label) (k : nat) :
  population <> [] -> length (fst (choice_digits g population k)) = k.
Proof.
  intros Hne. rewrite choice_digits_by_position by assumption.
  unfold randint_digits. cbn [fst]. now rewrite length_map, digits_length.
Qed.

Lemma choice_digits_in (g : nat) (population : list label) (k : nat) :
  incl (fst (choice_digits g population k)) population.
Proof.
  destruct population as [|l0 p]; [apply incl_refl|].
  rewrite choice_digits_by_position by discriminate.
  unfold randint_digits. cbn [fst].
  intros l Hl. apply in_map_iff in Hl. destruct Hl as [j [<- Hj]].
  apply nth_In.
  assert (Hm : (0 < length (l0 :: p))%nat) by (simpl; lia).
  pose proof (@digits_below (length (l0 :: p)) k g Hm) as Hb.
  rewrite Forall_forall in Hb. now apply Hb.
Qed.

(** Over the states [0 .. 5 ^ 4 - 1] the reference generator hands out
    every vector of 4 positions below 5 exactly once. *)
Lemma digits_enumerate :
  map (fun s => fst (randint_digits s 5 4)) (seq 0 625) = positions 5 4.
Proof. vm_compute. reflexivity. Qed.

Lemma ex_alignment :
  align ex_raw_target ex_raw_features = Ok (ex_target, ex_aligned).
Proof. reflexivity. Qed.

Lemma ex_filtering : drop_degenerate ex_aligned = Ok ex_kept.
Proof. reflexivity. Qed.

Lemma ex_scoring : _score inner ex_target ex_kept = ex_scores.
Proof. reflexivity. Qed.

Lemma inner_sym (a b : list Q) : inner a b = inner b a.
Proof.
  revert b. induction a as [|x a IH]; intros [|y b]; simpl; try reflexivity.
  rewrite IH. f_equal. unfold Qmult. now rewrite Z.mul_comm, Pos.mul_comm.
Qed.

(** * Argument order of the scoring function *)

(** C10. The scoring stage and the permutation stage call the scoring
    function with the target (or its shuffled copy) first and the feature
    row second; the bootstrap stage calls it with the resampled feature row
    first and the resampled target second. For a symmetric function the
    bootstrap scores are those of the target-first order; for [first_of],
    which is not symmetric, the bootstrap scores of the example data
    differ from those the target-first order gives on the same draws. *)
Theorem bootstrap_scores_feature_first :
  (forall function t f,
     _score function t f
     = map (fun a_f => (fst a_f, function (s_values t) (snd a_f))) (rows f))
  /\ (forall function (rng : Type) (shuffle : rng -> list Q -> list Q * rng)
             t f n_perms g st,
        (t < length st)%nat ->
        fst (_permute_and_score function shuffle t f n_perms (g, st))
        = map (fun r =>
                 (fst r,
                  map (fun v => function v (snd r))
                      (shuffled_targets shuffle (Z.to_nat n_perms) g
                                        (buffer t st))))
              (rows f))
  /\ (forall function (rng : Type)
             (choice : rng -> list label -> nat -> list label * rng)
             g target features sel,
        fst (bootstrap_round function choice g target features sel)
        = let d := fst (choice g (columns features)
                               (Z.to_nat (n_resampled (shape1 features)))) in
          map (fun f => function (snd f) (s_values (select d target)))
              (rows (ix_cols (ix_rows features sel) d)))
  /\ (forall function,
        (forall a b, function a b = function b a) ->
        forall (rng : Type)
               (choice : rng -> list label -> nat -> list label * rng)
               g target features sel,
          fst (bootstrap_round function choice g target features sel)
          = fst (bootstrap_round (flip function) choice g target features
                                 sel))
  /\ (exists a b, first_of a b <> first_of b a)
  /\ fst (bootstrap_round first_of choice_cycle 0%nat ex_target ex_kept
                          [LStr "F1"; LStr "F2"])
     = [5 # 1; 1 # 1]
  /\ fst (bootstrap_round (flip first_of) choice_cycle 0%nat ex_target
                          ex_kept [LStr "F1"; LStr "F2"])
     = [5 # 1; 5 # 1].
Proof.
  split; [reflexivity|]. split.
  { intros function rng shuffle t f n_perms g st Ht.
    destruct (permute_and_score_spec function shuffle f n_perms g st Ht)
      as [H _].
    exact H. }
  split.
  { intros function rng choice g target features sel.
    unfold bootstrap_round. now destruct (choice _ _ _). }
  split.
  { intros function Hsym rng choice g target features sel.
    unfold bootstrap_round, flip. destruct (choice _ _ _) as [d g'].
    cbn [fst]. apply map_ext. intros x. apply Hsym. }
  split.
  { exists [1 # 1], [2 # 1]. discriminate. }
  split; reflexivity.
Qed.

(** * The theorems at the example data *)

Ltac distinct_labels :=
  repeat constructor; simpl; intuition discriminate.

Lemma partition_equivalence_witness :
  NoDup (index ex_aligned) /\ (1 <= 2)%Z
  /\ exists scores,
       score_stage inner pool_map ex_target ex_aligned 2 1 = Ok scores
       /\ forall i, lookup i scores
                    = lookup i (_score inner ex_target ex_aligned).
Proof.
  assert (Hnd : NoDup (index ex_aligned)) by distinct_labels.
  assert (Hw : (1 <= 2)%Z) by lia.
  split; [exact Hnd|]. split; [exact Hw|].
  pose proof (partition_equivalence inner pool_map pool_map_collects
                ex_target ex_aligned 1 false Hnd Hw) as H.
  cbv zeta in H. destruct H as [scores [H1 [_ [H3 _]]]].
  exists scores. split; assumption.
Defined.

Lemma degenerate_features_dropped_witness :
  align ex_raw_target ex_raw_features = Ok (ex_target, ex_aligned)
  /\ exists kept,
       drop_degenerate ex_aligned = Ok kept
       /\ forall r, In r (rows kept)
                    <-> In r (rows ex_aligned) /\ two_distinct (snd r).
Proof.
  split; [exact ex_alignment|].
  pose proof (degenerate_features_dropped
                inner pool_map choice_cycle shuffle_rotate ppf_approx
                std_approx sqrt_int fdr_bh pool_map_collects ex_raw_target
                ex_raw_features ex_alignment) as [_ H].
  destruct H as [kept [H1 [_ [_ [H4 _]]]]].
  - exists (LStr "F1", [5 # 1; 4 # 1; 3 # 1; 2 # 1; 1 # 1]).
    split; [now left|].
    exists (5 # 1), (4 # 1). simpl. repeat split; try tauto.
    intros E. discriminate E.
  - exists kept. split; assumption.
Defined.

Lemma permutation_test_keeps_target_witness :
  (0 < length [s_values ex_target])%nat
  /\ buffer 0 (snd (snd (_permute_and_score inner shuffle_rotate 0 ex_kept 3
                                            (0%nat, [s_values ex_target]))))
     = s_values ex_target.
Proof.
  assert (Ht : (0 < length [s_values ex_target])%nat) by (simpl; lia).
  split; [exact Ht|].
  pose proof (permutation_test_keeps_target
                inner shuffle_rotate shuffle_rotate_permutes ex_kept 3
                0%nat [s_values ex_target] Ht) as H.
  cbv zeta in H. destruct H as [_ [_ [_ [H _]]]]. exact H.
Defined.

Lemma bootstrap_scores_feature_first_witness :
  (forall a b, inner a b = inner b a)
  /\ fst (bootstrap_round inner choice_cycle 0%nat ex_target ex_kept
                          [LStr "F1"; LStr "F2"])
     = fst (bootstrap_round (flip inner) choice_cycle 0%nat ex_target
                            ex_kept [LStr "F1"; LStr "F2"]).
Proof.
  split; [exact inner_sym|].
  destruct bootstrap_scores_feature_first as [_ [_ [_ [H _]]]].
  exact (H inner inner_sym nat choice_cycle 0%nat ex_target ex_kept
           [LStr "F1"; LStr "F2"]).
Defined.

(** * The further properties at the example data *)

Lemma ex_association :
  exists sc g',
    associate inner pool_map choice_cycle shuffle_rotate ppf_approx
              std_approx sqrt_int fdr_bh 0%nat ex_target ex_kept 2 false
              (PyInt 1) 1 2 (95 # 100) 2
    = Ok (sc, g')
    /\ exists pf, p_values_and_fdrs sc = Some pf /\ pf <> [].
Proof.
  vm_compute. eexists. eexists. split; [reflexivity|].
  eexists. split; [reflexivity | discriminate].
Qed.

Lemma ex_bootstrap :
  exists margins g',
    bootstrap_stage inner choice_cycle ppf_approx std_approx sqrt_int
                    0%nat ex_target ex_kept ex_scores (PyInt 1) 2
                    (95 # 100)
    = Ok (Some margins, g').
Proof. vm_compute. eexists. eexists. reflexivity. Qed.

Lemma associate_scores_sorted_witness :
  NoDup (index ex_kept) /\ (1 <= 2)%Z
  /\ exists sc g',
       associate inner pool_map choice_cycle shuffle_rotate ppf_approx
                 std_approx sqrt_int fdr_bh 0%nat ex_target ex_kept 2 false
                 (PyInt 1) 1 2 (95 # 100) 2
       = Ok (sc, g')
       /\ Sorted (fun a b => snd b <= snd a) (score sc)
       /\ Permutation (score sc) (_score inner ex_target ex_kept).
Proof.
  assert (Hnd : NoDup (index ex_kept)) by distinct_labels.
  assert (Hw : (1 <= 2)%Z) by lia.
  split; [exact Hnd|]. split; [exact Hw|].
  destruct ex_association as [sc [g' [H _]]]. exists sc, g'.
  split; [exact H|].
  pose proof (@associate_scores_sorted
                inner pool_map nat choice_cycle shuffle_rotate ppf_approx
                std_approx sqrt_int fdr_bh pool_map_collects 0%nat g'
                ex_target ex_kept 2 false (PyInt 1) 1 2 (95 # 100) 2 sc
                Hnd Hw H) as [H1 [H2 _]].
  split; [exact H1 | exact H2].
Defined.

Lemma associate_columns_aligned_witness :
  exists sc g',
    associate inner pool_map choice_cycle shuffle_rotate ppf_approx
              std_approx sqrt_int fdr_bh 0%nat ex_target ex_kept 2 false
              (PyInt 1) 1 2 (95 # 100) 2
    = Ok (sc, g')
    /\ exists pf, p_values_and_fdrs sc = Some pf
                  /\ map fst pf = map fst (score sc).
Proof.
  destruct ex_association as [sc [g' [H [pf [Hpf _]]]]]. exists sc, g'.
  split; [exact H|]. exists pf. split; [exact Hpf|].
  pose proof (@associate_columns_aligned
                inner pool_map nat choice_cycle shuffle_rotate ppf_approx
                std_approx sqrt_int fdr_bh 0%nat g' ex_target ex_kept 2
                false (PyInt 1) 1 2 (95 # 100) 2 sc H) as [_ H2].
  exact (H2 pf Hpf).
Defined.

Lemma permutation_stage_skipped_iff_witness :
  exists sc g',
    associate inner pool_map choice_cycle shuffle_rotate ppf_approx
              std_approx sqrt_int fdr_bh 0%nat ex_target ex_kept 2 false
              (PyInt 1) 1 2 (95 # 100) 2
    = Ok (sc, g')
    /\ (p_values_and_fdrs sc = None <-> (2 < 1)%Z).
Proof.
  destruct ex_association as [sc [g' [H _]]]. exists sc, g'.
  split; [exact H|].
  exact (@permutation_stage_skipped_iff
           inner pool_map nat choice_cycle shuffle_rotate ppf_approx
           std_approx sqrt_int fdr_bh 0%nat g' ex_target ex_kept 2 false
           (PyInt 1) 1 2 (95 # 100) 2 sc H).
Defined.

Lemma p_values_in_unit_interval_witness :
  NoDup (index ex_kept) /\ (1 <= 2)%Z
  /\ exists sc g' pf,
       associate inner pool_map choice_cycle shuffle_rotate ppf_approx
                 std_approx sqrt_int fdr_bh 0%nat ex_target ex_kept 2 false
                 (PyInt 1) 1 2 (95 # 100) 2
       = Ok (sc, g')
       /\ p_values_and_fdrs sc = Some pf /\ pf <> []
       /\ forall i r, In (i, r) pf -> 0 < p_value r <= 1.
Proof.
  assert (Hnd : NoDup (index ex_kept)) by distinct_labels.
  assert (Hw : (1 <= 2)%Z) by lia.
  split; [exact Hnd|]. split; [exact Hw|].
  destruct ex_association as [sc [g' [H [pf [Hpf Hne]]]]]. exists sc, g', pf.
  split; [exact H|]. split; [exact Hpf|]. split; [exact Hne|].
  exact (@p_values_in_unit_interval
           inner pool_map nat choice_cycle shuffle_rotate ppf_approx
           std_approx sqrt_int fdr_bh pool_map_collects 0%nat g' ex_target
           ex_kept 2 false (PyInt 1) 1 2 (95 # 100) 2 sc pf Hnd Hw H Hpf).
Defined.

Lemma margins_only_for_selection_witness :
  exists margins g',
    bootstrap_stage inner choice_cycle ppf_approx std_approx sqrt_int
                    0%nat ex_target ex_kept ex_scores (PyInt 1) 2
                    (95 # 100)
    = Ok (Some margins, g')
    /\ exists sel,
         indices_to_bootstrap (PyInt 1) ex_scores = Ok sel
         /\ map fst margins = map fst ex_scores
         /\ forall i v, In (i, Some v) margins -> In i sel.
Proof.
  destruct ex_bootstrap as [margins [g' H]]. exists margins, g'.
  split; [exact H|].
  exact (@margins_only_for_selection
           inner nat choice_cycle ppf_approx std_approx sqrt_int 0%nat g'
           ex_target ex_kept ex_scores (PyInt 1) 2 (95 # 100) margins H).
Defined.

Lemma count_selection_witness :
  (1 <= 1)%Z
  /\ exists sel,
       indices_to_bootstrap
         (PyInt 1) [(LStr "F1", 55); (LStr "F2", 35); (LStr "F3", 20)]
       = Ok sel
       /\ sel = [LStr "F1"; LStr "F3"].
Proof.
  assert (H1 : (1 <= 1)%Z) by lia.
  split; [exact H1|].
  pose proof (@count_selection
                1 [(LStr "F1", 55); (LStr "F2", 35); (LStr "F3", 20)] H1)
    as H.
  cbv zeta in H. destruct H as [sel [Hs [He _]]].
  exists sel. split; [exact Hs | exact He].
Defined.

Lemma boundaries_of_runs_witness :
  [1; 1; 0] <> []
  /\ exists inner_boundaries,
       boundaries [1; 1; 0] 3 = Some (0%nat :: inner_boundaries ++ [3%nat])
       /\ forall b, In b inner_boundaries
                    <-> (1 <= b < 3)%nat
                        /\ ~ nth (b - 1) [1; 1; 0] 0 == nth b [1; 1; 0] 0.
Proof.
  assert (Hne : [1; 1; 0] <> []) by discriminate.
  split; [exact Hne|].
  destruct (@boundaries_of_runs [1; 1; 0] Hne) as [bs [H1 [_ [H3 _]]]].
  exists bs. split; [exact H1 | exact H3].
Defined.

Lemma label_positions_are_midpoints_witness :
  [1; 1; 0] <> [] /\ boundaries [1; 1; 0] 3 = Some [0; 2; 3]%nat
  /\ S (length (label_horizontal_positions [0; 2; 3]%nat)) = 3%nat.
Proof.
  assert (Hne : [1; 1; 0] <> []) by discriminate.
  assert (Hb : boundaries [1; 1; 0] (length [1; 1; 0])
               = Some [0; 2; 3]%nat) by reflexivity.
  split; [exact Hne|]. split; [exact Hb|].
  exact (proj1 (@label_positions_are_midpoints [1; 1; 0] [0; 2; 3]%nat
                  Hne Hb)).
Defined.

Lemma one_label_position_per_class_witness :
  [1; 1; 0] <> [] /\ Sorted (fun a b => b <= a) [1; 1; 0]
  /\ boundaries [1; 1; 0] 3 = Some [0; 2; 3]%nat
  /\ length (label_horizontal_positions [0; 2; 3]%nat)
     = length (set_of [1; 1; 0]).
Proof.
  assert (Hne : [1; 1; 0] <> []) by discriminate.
  assert (Hs : Sorted (fun a b => b <= a) [1; 1; 0]).
  { repeat constructor; unfold Qle; simpl; lia. }
  assert (Hb : boundaries [1; 1; 0] (length [1; 1; 0])
               = Some [0; 2; 3]%nat) by reflexivity.
  split; [exact Hne|]. split; [exact Hs|]. split; [exact Hb|].
  exact (@one_label_position_per_class [1; 1; 0] [0; 2; 3]%nat Hne Hs Hb).
Defined.


Lemma bundle_columns_become_rows_witness :
  entry_dataframe (fun _ => None)
    (mkEntry "mutations" (Frame ex_kept) "binary" false (PyInt 1)
             (Labels ["B"%string; "A"%string]) NoAlias)
  = Loaded (mkDF [LStr "F1"; LStr "F2"]
                 [(LStr "B", [4; 2]); (LStr "A", [5; 1])]).
Proof.
  assert (Hc : NoDup (columns ex_kept)) by distinct_labels.
  assert (Hrect : Forall (fun r => length (snd r) = length (columns ex_kept))
                         (rows ex_kept)) by (repeat constructor).
  assert (Hincl : incl [LStr "B"; LStr "A"] (columns ex_kept))
    by (intros l [<- | [<- | []]]; simpl; tauto).
  exact (@bundle_columns_become_rows
           (fun _ => None)
           (mkEntry "mutations" (Frame ex_kept) "binary" false (PyInt 1)
                    (Labels ["B"%string; "A"%string]) NoAlias)
           ex_kept eq_refl eq_refl eq_refl eq_refl Hc Hrect Hincl).
Defined.

Lemma bundle_rows_renamed_witness :
  (exists vss,
     entry_dataframe (fun _ => None)
       (mkEntry "expression" (Frame ex_kept) "continuous" false (PyInt 0)
                (OneLabel "F2") (AliasStr "gene"))
     = Loaded (mkDF (columns ex_kept) (combine [LStr "gene"] vss))
     /\ Forall2 (fun l vs => In (l, vs) (rows ex_kept)) [LStr "F2"] vss)
  /\ entry_dataframe (fun _ => None)
       (mkEntry "expression" (Frame ex_kept) "continuous" false (PyInt 0)
                (OneLabel "F2") (AliasList [LStr "a"; LStr "b"]))
     = Failed AliasLength.
Proof.
  assert (Hidx : NoDup (index ex_kept)) by distinct_labels.
  assert (Hincl : incl [LStr "F2"] (index ex_kept))
    by (intros l [<- | []]; simpl; tauto).
  split.
  - exact (proj1 (@bundle_rows_renamed
                    (fun _ => None)
                    (mkEntry "expression" (Frame ex_kept) "continuous" false
                             (PyInt 0) (OneLabel "F2") (AliasStr "gene"))
                    ex_kept eq_refl eq_refl eq_refl eq_refl Hidx Hincl)
                 eq_refl).
  - apply (proj2 (@bundle_rows_renamed
                    (fun _ => None)
                    (mkEntry "expression" (Frame ex_kept) "continuous" false
                             (PyInt 0) (OneLabel "F2")
                             (AliasList [LStr "a"; LStr "b"]))
                    ex_kept eq_refl eq_refl eq_refl eq_refl Hidx Hincl)).
    simpl. lia.
Defined.

Lemma bundle_last_entry_wins_witness :
  exists d,
    _read_bundle (fun _ => None)
      [mkEntry "x" (Frame ex_aligned) "continuous" false PyNone NoLabels
               NoAlias;
       mkEntry "y" (Frame ex_kept) "binary" true PyNone NoLabels NoAlias;
       mkEntry "x" (Frame ex_kept) "categorical" true PyNone NoLabels
               NoAlias]
    = Loaded d
    /\ dict_get "x" d = Some (mkFeatures "categorical" true ex_kept)
    /\ dict_get "z" d = None.
Proof.
  set (b := [mkEntry "x" (Frame ex_aligned) "continuous" false PyNone
                     NoLabels NoAlias;
             mkEntry "y" (Frame ex_kept) "binary" true PyNone NoLabels
                     NoAlias;
             mkEntry "x" (Frame ex_kept) "categorical" true PyNone NoLabels
                     NoAlias]).
  assert (Hall : Forall (fun e => exists df,
                           entry_dataframe (fun _ => None) e = Loaded df) b).
  { repeat constructor; eexists; reflexivity. }
  destruct (@bundle_last_entry_wins (fun _ => None) b Hall)
    as [d [Hd [_ Hget]]].
  exists d. split; [exact Hd|]. split.
  - destruct (Hget "x"%string) as [df [Hdf Hx]].
    cbv in Hdf. injection Hdf as <-. exact Hx.
  - exact (Hget "z"%string).
Defined.

Lemma bundle_axis_checked_with_index_witness :
  entry_dataframe (fun _ => None)
    (mkEntry "x" (Frame ex_kept) "binary" false (PyInt 2) NoLabels NoAlias)
  = Loaded ex_kept
  /\ _read_bundle (fun _ => None)
       [mkEntry "y" (Frame ex_aligned) "binary" false PyNone NoLabels
                NoAlias;
        mkEntry "x" (Frame ex_kept) "binary" false (PyInt 2)
                (OneLabel "F1") NoAlias]
     = Failed BadIndexAxis.
Proof.
  assert (Hb : Forall (fun e => exists df,
                         entry_dataframe (fun _ => None) e = Loaded df)
                      [mkEntry "y" (Frame ex_aligned) "binary" false PyNone
                               NoLabels NoAlias]).
  { repeat constructor. eexists. reflexivity. }
  split.
  - exact (proj1 (@bundle_axis_checked_with_index
                    (fun _ => None)
                    (mkEntry "x" (Frame ex_kept) "binary" false (PyInt 2)
                             NoLabels NoAlias)
                    ex_kept [] [] eq_refl (Forall_nil _)) eq_refl).
  - exact (proj2 (proj2 (@bundle_axis_checked_with_index
                           (fun _ => None)
                           (mkEntry "x" (Frame ex_kept) "binary" false
                                    (PyInt 2) (OneLabel "F1") NoAlias)
                           ex_kept
                           [mkEntry "y" (Frame ex_aligned) "binary" false
                                    PyNone NoLabels NoAlias]
                           [] eq_refl Hb)
                        eq_refl eq_refl eq_refl)).
Defined.
Lemma ex_association_skipped :
  exists sc g',
    associate inner pool_map choice_cycle shuffle_rotate ppf_approx
              std_approx sqrt_int fdr_bh 0%nat ex_target ex_kept 2 false
              (PyInt 1) 1 1 (95 # 100) 2
    = Ok (sc, g').
Proof. vm_compute. eexists. eexists. reflexivity. Qed.

Lemma ex_association_digits :
  exists sc g',
    associate inner pool_map choice_digits shuffle_rotate ppf_approx
              std_approx sqrt_int fdr_bh 7%nat ex_target ex_kept 2 false
              (PyInt 1) 1 2 (95 # 100) 2
    = Ok (sc, g').
Proof. vm_compute. eexists. eexists. reflexivity. Qed.

Lemma p_value_floor_witness :
  NoDup (index ex_kept) /\ (1 <= 2)%Z
  /\ exists sc g' pf,
       associate inner pool_map choice_cycle shuffle_rotate ppf_approx
                 std_approx sqrt_int fdr_bh 0%nat ex_target ex_kept 2 false
                 (PyInt 1) 1 2 (95 # 100) 2
       = Ok (sc, g')
       /\ p_values_and_fdrs sc = Some pf /\ pf <> []
       /\ forall i r,
            In (i, r) pf ->
            ~ p_value r == 0
            /\ 1 / inject_Z (2 * Z.of_nat (shape0 ex_kept)) <= p_value r.
Proof.
  assert (Hnd : NoDup (index ex_kept)) by distinct_labels.
  assert (Hw : (1 <= 2)%Z) by lia.
  split; [exact Hnd|]. split; [exact Hw|].
  destruct ex_association as [sc [g' [H [pf [Hpf Hne]]]]]. exists sc, g', pf.
  split; [exact H|]. split; [exact Hpf|]. split; [exact Hne|].
  pose proof (@p_value_floor
                inner pool_map nat choice_cycle shuffle_rotate ppf_approx
                std_approx sqrt_int fdr_bh pool_map_collects 0%nat g'
                ex_target ex_kept 2 false (PyInt 1) 1 2 (95 # 100) 2 sc
                Hnd Hw Hw H) as T.
  cbv zeta in T.
  destruct T as [g1 [null [pf' [_ [_ [_ [Hpf' [_ Hrow]]]]]]]].
  assert (E : pf' = pf) by congruence. subst pf'.
  intros i r Hin. destruct (Hrow i r Hin) as [s [_ [_ [_ [Hnz Hge]]]]].
  split; [exact Hnz | exact Hge].
Defined.

Lemma fdr_columns_witness :
  NoDup (index ex_kept) /\ (1 <= 2)%Z
  /\ (forall pvals, length (fdr_bh pvals) = length pvals)
  /\ exists sc g' pf,
       associate inner pool_map choice_cycle shuffle_rotate ppf_approx
                 std_approx sqrt_int fdr_bh 0%nat ex_target ex_kept 2 false
                 (PyInt 1) 1 2 (95 # 100) 2
       = Ok (sc, g')
       /\ p_values_and_fdrs sc = Some pf /\ pf <> []
       /\ map (fun x => fdr_forward (snd x)) pf
          = fdr_bh (map (fun x => p_value (snd x)) pf)
       /\ forall i r,
            In (i, r) pf ->
            fdr r = Qmin (fdr_forward r) (fdr_reverse r)
            /\ p_value r <= fdr_forward r /\ fdr_forward r <= 1.
Proof.
  assert (Hnd : NoDup (index ex_kept)) by distinct_labels.
  assert (Hw : (1 <= 2)%Z) by lia.
  split; [exact Hnd|]. split; [exact Hw|]. split; [exact fdr_bh_length|].
  destruct ex_association as [sc [g' [H [pf [Hpf Hne]]]]]. exists sc, g', pf.
  split; [exact H|]. split; [exact Hpf|]. split; [exact Hne|].
  destruct (@fdr_columns
              inner pool_map nat choice_cycle shuffle_rotate ppf_approx
              std_approx sqrt_int fdr_bh pool_map_collects fdr_bh_length
              0%nat g' ex_target ex_kept 2 false (PyInt 1) 1 2 (95 # 100) 2
              sc Hnd Hw Hw H)
    as [pf' [Hpf' [_ [Hfw [_ [Hmin Hbh]]]]]].
  assert (E : pf' = pf) by congruence. subst pf'.
  split; [exact Hfw|].
  intros i r Hin. destruct (Hmin i r Hin) as [Hm _].
  destruct (Hbh (fun pvals => eq_refl) i r Hin) as [B1 [B2 _]].
  split; [exact Hm|]. split; [exact B1 | exact B2].
Defined.

Lemma bootstrap_margin_of_error_witness :
  NoDup (columns ex_kept) /\ columns ex_kept = s_index ex_target
  /\ NoDup (index ex_kept)
  /\ (2 <= 2)%Z /\ (3 <= n_resampled (shape1 ex_kept))%Z
  /\ uniform_over (positions 5 4)
                  (map (fun s => fst (randint_digits s 5 4)) (seq 0 625))
  /\ uniform_over (key_vectors ex_samples 4)
                  (map (fun s => fst (choice_digits s ex_samples 4))
                       (seq 0 625))
  /\ exists sc g' sel margins,
       associate inner pool_map choice_digits shuffle_rotate ppf_approx
                 std_approx sqrt_int fdr_bh 7%nat ex_target ex_kept 2 false
                 (PyInt 1) 1 2 (95 # 100) 2
       = Ok (sc, g')
       /\ indices_to_bootstrap (PyInt 1) (score sc) = Ok sel
       /\ moe sc = Some margins
       /\ forall i row,
            In i sel -> In (i, row) (rows ex_kept) ->
            In (i, Some
                     (ppf_approx (95 # 100)
                      * (std_approx
                           (map (fun d =>
                                   inner
                                     (map (value_at (columns ex_kept) row) d)
                                     (map (value_at (s_index ex_target)
                                                    (s_values ex_target)) d))
                                (drawn_samples choice_digits 2 7%nat
                                               ex_samples 4))
                         / sqrt_int 2)))
               margins.
Proof.
  assert (Hc : NoDup (columns ex_kept)) by distinct_labels.
  assert (Hct : columns ex_kept = s_index ex_target) by reflexivity.
  assert (Hrect : forall r, In r (rows ex_kept)
                            -> length (snd r) = length (columns ex_kept)).
  { intros r [<- | [<- | []]]; reflexivity. }
  assert (Hidx : NoDup (index ex_kept)) by distinct_labels.
  assert (Hnum : is_number (PyInt 1) = true) by reflexivity.
  assert (HR : (2 <= 2)%Z) by lia.
  assert (Hw : (1 <= 2)%Z) by lia.
  assert (Hk : (3 <= n_resampled (shape1 ex_kept))%Z)
    by (vm_compute; discriminate).
  assert (Hu : uniform_over (positions 5 4)
                 (map (fun s => fst (randint_digits s 5 4)) (seq 0 625))).
  { exists 1%nat. split; [lia|]. rewrite digits_enumerate.
    cbn [repeat concat]. rewrite app_nil_r. apply Permutation_refl. }
  repeat (split; [assumption|]).
  destruct ex_association_digits as [sc [g' H]].
  pose proof (@bootstrap_margin_of_error
                inner pool_map nat choice_digits shuffle_rotate
                randint_digits ppf_approx std_approx sqrt_int fdr_bh
                pool_map_collects choice_digits_length choice_digits_in
                randint_digits_range choice_digits_by_position
                ex_target ex_kept 2 false (PyInt 1) 1 2 (95 # 100) 2
                7%nat g' sc Hc Hct Hrect Hidx Hw Hnum HR Hk H) as T.
  cbv zeta in T.
  destruct T
    as [_ [_ [_ [_ [_ [_ [Hunif [sel [margins [H1 [H2 [_ H4]]]]]]]]]]]].
  split; [exact (Hunif (seq 0 625) Hu)|].
  exists sc, g', sel, margins.
  split; [exact H|]. split; [exact H1|]. split; [exact H2 | exact H4].
Defined.


Lemma panel_succeeds_on_aligned_input_witness :
  NoDup (s_index ex_raw_target) /\ NoDup (columns ex_raw_features)
  /\ NoDup (index ex_raw_features)
  /\ existsb truthy (shared_labels ex_raw_target ex_raw_features) = true
  /\ (1 <= 2)%Z
  /\ (exists sc sel g',
        make_association_panel_plot inner pool_map choice_cycle
                                    shuffle_rotate ppf_approx std_approx
                                    sqrt_int fdr_bh 0%nat ex_raw_target
                                    ex_raw_features 2 false (PyInt 1) 2 2
        = Some (Ok (sc, sel, g'))
        /\ incl sel (map fst (score sc)))
  /\ make_association_panel_plot inner pool_map choice_cycle shuffle_rotate
                                 ppf_approx std_approx sqrt_int fdr_bh 0%nat
                                 ex_raw_target ex_raw_features 2 false
                                 PyNone 2 2
     = None.
Proof.
  assert (Ht : NoDup (s_index ex_raw_target)) by distinct_labels.
  assert (Hc : NoDup (columns ex_raw_features)) by distinct_labels.
  assert (Hrect : forall r, In r (rows ex_raw_features)
                            -> length (snd r)
                               = length (columns ex_raw_features)).
  { intros r [<- | [<- | [<- | []]]]; reflexivity. }
  assert (Hidx : NoDup (index ex_raw_features)) by distinct_labels.
  assert (Hany : existsb truthy (shared_labels ex_raw_target ex_raw_features)
                 = true) by reflexivity.
  assert (Hvar : exists r l1 l2,
             In r (rows ex_raw_features)
             /\ In l1 (shared_labels ex_raw_target ex_raw_features)
             /\ In l2 (shared_labels ex_raw_target ex_raw_features)
             /\ ~ value_at (columns ex_raw_features) (snd r) l1
                  == value_at (columns ex_raw_features) (snd r) l2).
  { exists (LStr "F1", [4 # 1; 5 # 1; 3 # 1; 1 # 1; 2 # 1; 7 # 1]),
           (LStr "A"), (LStr "B").
    split; [now left|]. split; [simpl; tauto|]. split; [simpl; tauto|].
    intros E. discriminate E. }
  assert (Hw : (1 <= 2)%Z) by lia.
  assert (Hdoc : documented (PyInt 1)) by (simpl; lia).
  split; [exact Ht|]. split; [exact Hc|]. split; [exact Hidx|].
  split; [exact Hany|]. split; [exact Hw|]. split.
  - destruct (@panel_succeeds_on_aligned_input
                inner pool_map nat choice_cycle shuffle_rotate ppf_approx
                std_approx sqrt_int fdr_bh pool_map_collects fdr_bh_length
                0%nat ex_raw_target ex_raw_features 2 false (PyInt 1) 2 2
                Ht Hc Hrect Hidx Hany Hvar Hw)
      as [T _].
    destruct (T Hdoc) as [sc [sel [g' [H1 [H2 _]]]]].
    exists sc, sel, g'. split; [exact H1 | exact H2].
  - destruct (@panel_succeeds_on_aligned_input
                inner pool_map nat choice_cycle shuffle_rotate ppf_approx
                std_approx sqrt_int fdr_bh pool_map_collects fdr_bh_length
                0%nat ex_raw_target ex_raw_features 2 false PyNone 2 2
                Ht Hc Hrect Hidx Hany Hvar Hw)
      as [_ T].
    exact (proj2 (T eq_refl)).
Defined.
